(** * Cache-Composer: a shallow embedding of the layer composition and
      eviction engine, and the properties of its specification.

    Classes embedded here, each in a module of its name:
    - [CacheComposer]  ([src/CacheComposer.ts]), module [Composer];
    - [MemoryLayer]    ([layers/MemoryLayer.ts]);
    - [FileLayer]      ([layers/FileLayer.ts]);
    - [RedisLayer]     ([src/layers/RedisLayer.ts]).
    The interfaces they share ([CacheEntry], [CacheOptions], [CacheLayer],
    [CacheStats], the configuration) are those of [types.ts].
    The definitions come first; the facts about them and the properties of
    the specification (C1 to C10) follow, then further properties of the
    code.

    Conventions.
    - Timestamps and TTLs are JavaScript numbers holding integers
      (milliseconds); they are modelled as [Z].  Counters are [nat]: a
      counter starts at [0] and only [++] changes it, which is exact below
      [2^53].  The hit rate is a quotient of two counters and is a double
      ([float], with the division of IEEE 754 binary64).
    - [Date.now()] is an oracle: every call consumes the next reading of a
      [Clock].  Nothing is assumed about successive readings unless a
      theorem says so.
    - A JavaScript [Map] iterates in insertion order; it is modelled by an
      association list in that order (module [JsMap]).
    - [T | null] is [option V], with [None] for [null].  [V] is the type
      of the values other than [null]: to the composer a cached [null] is
      an absent entry ([value !== null]), so every statement about a value
      [v : V] is about a value that is not [null].
    - Latency samples ([performance.now()], [accessTimes], [avgAccessTime])
      are floating point and are left out of [LayerStats]. *)

From Stdlib Require Import ZArith List String Ascii Bool Lia Floats.
From stdpp Require Import base list.
Import ListNotations.

Local Open Scope nat_scope.
Local Open Scope string_scope.

(* ===================================================================== *)
(** * JavaScript [Map<string, A>]: an insertion-ordered dictionary       *)
(* ===================================================================== *)

Module JsMap.
Section Defs.
Context {A : Type}.

Definition t : Type := list (string * A).

Definition empty : t := [].

(** [m.get(k)]: [None] is [undefined]. *)
Fixpoint get (k : string) (m : t) : option A :=
  match m with
  | [] => None
  | (k', a) :: m' => if String.eqb k' k then Some a else get k m'
  end.

(** [m.has(k)] *)
Definition has (k : string) (m : t) : bool :=
  match get k m with Some _ => true | None => false end.

(** [m.set(k, a)]: an existing key keeps its position, a new key goes last. *)
Fixpoint set (k : string) (a : A) (m : t) : t :=
  match m with
  | [] => [(k, a)]
  | (k', a') :: m' =>
      if String.eqb k' k then (k', a) :: m' else (k', a') :: set k a m'
  end.

(** [m.delete(k)]: the map afterwards (the call itself returns [has k m]). *)
Fixpoint delete (k : string) (m : t) : t :=
  match m with
  | [] => []
  | (k', a') :: m' =>
      if String.eqb k' k then m' else (k', a') :: delete k m'
  end.

(** [m.size] *)
Definition size (m : t) : nat := length m.

(** [m.entries()], [m.keys()]: in insertion order. *)
Definition entries (m : t) : list (string * A) := m.
Definition keys (m : t) : list string := map fst m.

(** Representation invariant: a [Map] holds each key once. *)
Definition wf (m : t) : Prop := List.NoDup (keys m).

End Defs.
Arguments t : clear implicits.
End JsMap.

(* ===================================================================== *)
(** * The clock and the effect monad of the methods                       *)
(* ===================================================================== *)

(** [Date.now()] as an oracle: reading number [cursor] is returned next. *)
Record Clock : Type := mkClock { readings : nat -> Z; cursor : nat }.

Definition peek (c : Clock) : Z := readings c (cursor c).
Definition tick (c : Clock) : Clock := mkClock (readings c) (S (cursor c)).

(** A clock that always reads [z] (nothing ever elapses). *)
Definition frozen (z : Z) : Clock := mkClock (fun _ => z) 0.
(** A clock whose successive readings are the elements of [zs], then [z]. *)
Definition clock_of (zs : list Z) (z : Z) : Clock :=
  mkClock (fun n => nth n zs z) 0.

(** A method of an object with state [S]: it may mutate [this] and read the
    clock. *)
Definition Eff (S A : Type) : Type := S -> Clock -> A * S * Clock.

Definition ret {S A} (a : A) : Eff S A := fun s c => (a, s, c).
Definition bind {S A B} (m : Eff S A) (f : A -> Eff S B) : Eff S B :=
  fun s c => let '(a, s', c') := m s c in f a s' c'.
Definition gets {S A} (f : S -> A) : Eff S A := fun s c => (f s, s, c).
Definition modify {S} (f : S -> S) : Eff S unit := fun s c => (tt, f s, c).
Definition Date_now {S} : Eff S Z := fun s c => (peek c, s, tick c).
Definition when_ {S} (b : bool) (m : Eff S unit) : Eff S unit :=
  if b then m else ret tt.

Declare Scope eff_scope.
Delimit Scope eff_scope with eff.
Notation "x <- m ;; k" := (bind m (fun x => k))
  (at level 100, m at next level, right associativity) : eff_scope.
Notation "m ;;; k" := (bind m (fun _ => k))
  (at level 100, right associativity) : eff_scope.

(** Projections of the outcome of running a method. *)
Definition result {S A} (r : A * S * Clock) : A := fst (fst r).
Definition state {S A} (r : A * S * Clock) : S := snd (fst r).
Definition clock {S A} (r : A * S * Clock) : Clock := snd r.

(* ===================================================================== *)
(** * Shared types                                                         *)
(* ===================================================================== *)

(** The records below have the fields the classes read and write. *)

(** [CacheEntry<T>] ([types.ts]), for a value that is not [null]. *)
Record CacheEntry (V : Type) : Type := mkEntry {
  value : V;
  expiresAt : Z;
  createdAt : Z;
  accessCount : nat;
  lastAccessed : Z;
  tags : option (list string)
}.
Arguments mkEntry {V}.
Arguments value {V}.
Arguments expiresAt {V}.
Arguments createdAt {V}.
Arguments accessCount {V}.
Arguments lastAccessed {V}.
Arguments tags {V}.

(** [CacheOptions]: [{ ttl?: number; tags?: string[] }] *)
Record CacheOptions : Type := mkOptions {
  opt_ttl : option Z;
  opt_tags : option (list string)
}.

(** The default argument [options = {}]. *)
Definition no_options : CacheOptions := mkOptions None None.

(** [InvalidationStrategy] ([types.ts]):
    [type: 'ttl' | 'lru' | 'lfu' | 'manual'].  Its optional [maxSize] and
    [maxAge] are read by no class and are left out. *)
Inductive InvalidationType : Type := LRU | LFU | TTL | Manual.
Record InvalidationStrategy : Type := mkStrategy { type_ : InvalidationType }.

(** [LayerStats] without the floating-point [avgAccessTime]. *)
Record LayerStats : Type := mkLayerStats {
  ls_hits : nat;
  ls_misses : nat;
  ls_size : nat
}.

Definition stats_zero : LayerStats := mkLayerStats 0 0 0.
Definition stats_hit (s : LayerStats) : LayerStats :=
  mkLayerStats (S (ls_hits s)) (ls_misses s) (ls_size s).
Definition stats_miss (s : LayerStats) : LayerStats :=
  mkLayerStats (ls_hits s) (S (ls_misses s)) (ls_size s).
Definition stats_set_size (n : nat) (s : LayerStats) : LayerStats :=
  mkLayerStats (ls_hits s) (ls_misses s) n.

(** [x || d] on an optional number: [undefined] and [0] are falsy. *)
Definition num_or (x : option Z) (d : Z) : Z :=
  match x with
  | Some n => if (n =? 0)%Z then d else n
  | None => d
  end.

(** [options.ttl || this.defaultTTL] *)
Definition ttl_or_default (ttl : option Z) (defaultTTL : Z) : Z :=
  num_or ttl defaultTTL.

(** [entry.tags?.includes(tag)] *)
Definition tags_include (tag : string) (ts : option (list string)) : bool :=
  match ts with
  | Some l => existsb (String.eqb tag) l
  | None => false
  end.

(** The object literal every layer's [set] builds.  The three [Date.now()]
    calls are evaluated in the order of the fields: [expiresAt], [createdAt],
    [lastAccessed]. *)
Definition new_entry {S V} (v : V) (ttl : Z) (tgs : option (list string))
  : Eff S (CacheEntry V) :=
  (t_exp <- Date_now ;;
   t_created <- Date_now ;;
   t_accessed <- Date_now ;;
   ret (mkEntry v (t_exp + ttl)%Z t_created 0 t_accessed tgs))%eff.

(* ===================================================================== *)
(** * [MemoryLayer]                                                        *)
(* ===================================================================== *)

Module MemoryLayer.
Section WithValue.
Context {V : Type}.

Record t : Type := mk {
  cache : JsMap.t (CacheEntry V);
  stats : LayerStats;
  maxSize : Z;
  defaultTTL : Z;
  invalidation : InvalidationStrategy
}.

(** [new MemoryLayer(maxSize, defaultTTL, invalidation)] *)
Definition new (maxSize defaultTTL : Z) (invalidation : InvalidationStrategy) : t :=
  mk JsMap.empty stats_zero maxSize defaultTTL invalidation.

Definition with_cache (f : JsMap.t (CacheEntry V) -> JsMap.t (CacheEntry V)) (this : t) : t :=
  mk (f (cache this)) (stats this) (maxSize this) (defaultTTL this) (invalidation this).
Definition with_stats (f : LayerStats -> LayerStats) (this : t) : t :=
  mk (cache this) (f (stats this)) (maxSize this) (defaultTTL this) (invalidation this).
(** [this.stats.size = this.cache.size] *)
Definition sync_size (this : t) : t :=
  with_stats (stats_set_size (JsMap.size (cache this))) this.

(** [entry.accessCount++; entry.lastAccessed = now] *)
Definition touch_entry (now : Z) (e : CacheEntry V) : CacheEntry V :=
  mkEntry (value e) (expiresAt e) (createdAt e) (S (accessCount e)) now (tags e).

Definition get (key : string) : Eff t (option V) :=
  (entry <- gets (fun this => JsMap.get key (cache this)) ;;
   match entry with
   | None =>
       modify (with_stats stats_miss) ;;;
       ret None
   | Some entry =>
       now <- Date_now ;;
       if (expiresAt entry <? now)%Z then
         modify (with_cache (JsMap.delete key)) ;;;
         modify (with_stats stats_miss) ;;;
         ret None
       else
         now' <- Date_now ;;
         modify (with_cache (JsMap.set key (touch_entry now' entry))) ;;;
         modify (with_stats stats_hit) ;;;
         ret (Some (value entry))
   end)%eff.

(** [evictLRU]: [oldest] starts at [Infinity] ([None]). *)
Fixpoint evictLRU_loop (es : list (string * CacheEntry V))
    (oldest : option Z) (keyToEvict : option string) : option string :=
  match es with
  | [] => keyToEvict
  | (key, entry) :: es' =>
      if match oldest with
         | None => true
         | Some o => (lastAccessed entry <? o)%Z
         end
      then evictLRU_loop es' (Some (lastAccessed entry)) (Some key)
      else evictLRU_loop es' oldest keyToEvict
  end.
Definition evictLRU (this : t) : option string :=
  evictLRU_loop (JsMap.entries (cache this)) None None.

(** [evictLFU]: [lowest] starts at [Infinity] ([None]). *)
Fixpoint evictLFU_loop (es : list (string * CacheEntry V))
    (lowest : option nat) (keyToEvict : option string) : option string :=
  match es with
  | [] => keyToEvict
  | (key, entry) :: es' =>
      if match lowest with
         | None => true
         | Some o => (accessCount entry <? o)%nat
         end
      then evictLFU_loop es' (Some (accessCount entry)) (Some key)
      else evictLFU_loop es' lowest keyToEvict
  end.
Definition evictLFU (this : t) : option string :=
  evictLFU_loop (JsMap.entries (cache this)) None None.

(** [if (keyToEvict)]: [null] and the empty string are falsy. *)
Definition truthy (k : option string) : bool :=
  match k with
  | Some s => negb (String.eqb s "")
  | None => false
  end.

(** The [switch] of [evict]. *)
Definition keyToEvict (this : t) : option string :=
  match type_ (invalidation this) with
  | LRU => evictLRU this
  | LFU => evictLFU this
  | _ => evictLRU this
  end.

Definition evict (this : t) : t :=
  if (JsMap.size (cache this) =? 0)%nat then this
  else
    match keyToEvict this with
    | Some k => if truthy (Some k) then with_cache (JsMap.delete k) this else this
    | None => this
    end.

Definition set (key : string) (v : V) (options : CacheOptions) : Eff t unit :=
  (full <- gets (fun this =>
       (Z.of_nat (JsMap.size (cache this)) >=? maxSize this)%Z
       && negb (JsMap.has key (cache this))) ;;
   when_ full (modify evict) ;;;
   ttl <- gets (fun this => ttl_or_default (opt_ttl options) (defaultTTL this)) ;;
   entry <- new_entry v ttl (opt_tags options) ;;
   modify (with_cache (JsMap.set key entry)) ;;;
   modify sync_size)%eff.

Definition delete (key : string) (this : t) : bool * t :=
  (JsMap.has key (cache this), sync_size (with_cache (JsMap.delete key) this)).

Definition clear (this : t) : t :=
  with_stats (stats_set_size 0) (with_cache (fun _ => JsMap.empty) this).

Definition has (key : string) : Eff t bool :=
  (entry <- gets (fun this => JsMap.get key (cache this)) ;;
   match entry with
   | None => ret false
   | Some entry =>
       now <- Date_now ;;
       if (expiresAt entry <? now)%Z then
         modify (with_cache (JsMap.delete key)) ;;;
         ret false
       else ret true
   end)%eff.

Definition keys (this : t) : list string := JsMap.keys (cache this).
Definition size (this : t) : nat := JsMap.size (cache this).
Definition getStats (this : t) : LayerStats := stats this.

(** [deleteByTag]: the [for..of] loop visits every entry of the map once
    (deleting the entry being visited does not disturb a [Map] iterator), so
    it runs over the entries present when the loop starts. *)
Fixpoint deleteByTag_loop (tag : string) (es : list (string * CacheEntry V))
    (c : JsMap.t (CacheEntry V)) (count : nat) : JsMap.t (CacheEntry V) * nat :=
  match es with
  | [] => (c, count)
  | (key, entry) :: es' =>
      if tags_include tag (tags entry)
      then deleteByTag_loop tag es' (JsMap.delete key c) (S count)
      else deleteByTag_loop tag es' c count
  end.
Definition deleteByTag (tag : string) (this : t) : nat * t :=
  let '(c, count) := deleteByTag_loop tag (JsMap.entries (cache this)) (cache this) 0 in
  (count, sync_size (with_cache (fun _ => c) this)).

End WithValue.
Arguments t : clear implicits.
End MemoryLayer.

(* ===================================================================== *)
(** * JavaScript strings, [Set] and the latency window                    *)
(* ===================================================================== *)

Module JsString.

(** [s.slice(n)] *)
Fixpoint drop (n : nat) (s : string) : string :=
  match n, s with
  | O, _ => s
  | S n', String _ s' => drop n' s'
  | S _, EmptyString => EmptyString
  end.

(** [s.replace(pat, '')] for a string pattern: the first occurrence of
    [pat] is removed, and [s] is returned as it is when there is none. *)
Fixpoint remove_first (pat s : string) {struct s} : string :=
  if String.prefix pat s then drop (String.length pat) s
  else
    match s with
    | EmptyString => EmptyString
    | String c s' => String c (remove_first pat s')
    end.

End JsString.

Module JsSet.

(** [set.add(x)]: a [Set] keeps the order of first insertion. *)
Definition add (x : string) (set : list string) : list string :=
  if existsb (String.eqb x) set then set else (set ++ [x])%list.

(** [[...new Set(xs)]] *)
Definition of_array (xs : list string) : list string :=
  fold_left (fun set x => add x set) xs [].

End JsSet.

(** [recordAccessTime], as far as the array [accessTimes] goes: the sample
    is pushed, and the oldest sample is shifted out once there are more
    than 100.  The mean it then stores in [stats.avgAccessTime] is a
    floating-point number and is left out. *)
Definition recordAccessTime {T : Type} (time : T) (accessTimes : list T) : list T :=
  let pushed := (accessTimes ++ [time])%list in
  if (100 <? length pushed)%nat then tl pushed else pushed.

(* ===================================================================== *)
(** * [FileLayer]                                                          *)
(* ===================================================================== *)

Module FileLayer.

(** [ToInt32]: what [<<] and [&] do to their operands and result. *)
Definition toInt32 (z : Z) : Z := ((z + 2 ^ 31) mod 2 ^ 32 - 2 ^ 31)%Z.

(** One round of the loop of [hashKey]:
    [hash = ((hash << 5) - hash) + char; hash = hash & hash]. *)
Definition hash_step (hash : Z) (char : Z) : Z :=
  toInt32 (toInt32 (hash * 32) - hash + char)%Z.

(** [key.charCodeAt(i)], for keys whose code units are below 256. *)
Definition charCodes (key : string) : list Z :=
  map (fun a => Z.of_N (N_of_ascii a)) (list_ascii_of_string key).

Definition digit36 (d : Z) : ascii :=
  nth (Z.to_nat d) (list_ascii_of_string "0123456789abcdefghijklmnopqrstuvwxyz") "0"%char.

(** [n.toString(36)] for [0 <= n <= 2^31 < 36^7]: seven rounds suffice. *)
Fixpoint toString36_digits (rounds : nat) (n : Z) (acc : string) : string :=
  match rounds with
  | O => acc
  | S rounds' =>
      if (n =? 0)%Z then acc
      else toString36_digits rounds' (n / 36)%Z (String (digit36 (n mod 36)%Z) acc)
  end.
Definition toString36 (n : Z) : string :=
  if (n =? 0)%Z then "0" else toString36_digits 7 n "".

Definition hashKey (key : string) : string :=
  toString36 (Z.abs (fold_left hash_step (charCodes key) 0%Z)).

(** [getFilePath]: the name of the key's file inside [this.directory]. *)
Definition getFilePath (key : string) : string := hashKey key ++ ".json".

Section WithValue.
Context {V : Type}.

(** The content of [this.directory]: file name to content.  A file written
    by the layer holds [JSON.stringify(entry)] and is read back with
    [JSON.parse]; a file is modelled by the entry that [JSON.parse] gives
    for it.  So [V] is here the type of the values that [JSON.parse]
    gives back as they were passed to [JSON.stringify], and a directory
    holds files of entries only. *)
Definition Directory : Type := JsMap.t (CacheEntry V).

(** [fs] is [None] when the layer does not run under Node ([this.fs] is
    undefined), and the directory's content otherwise. *)
Record t : Type := mk {
  stats : LayerStats;
  defaultTTL : Z;
  directory : string;
  fs : option Directory
}.

Definition with_files (f : Directory -> Directory) (this : t) : t :=
  mk (stats this) (defaultTTL this) (directory this) (option_map f (fs this)).
Definition with_stats (f : LayerStats -> LayerStats) (this : t) : t :=
  mk (f (stats this)) (defaultTTL this) (directory this) (fs this).

(** [unlink] rejects when the file does not exist. *)
Definition delete (key : string) (this : t) : bool * t :=
  match fs this with
  | None => (false, this)
  | Some files =>
      if JsMap.has (getFilePath key) files
      then (true, with_files (JsMap.delete (getFilePath key)) this)
      else (false, this)
  end.

Definition get (key : string) : Eff t (option V) :=
  (files <- gets fs ;;
   match files with
   | None => ret None
   | Some files =>
       match JsMap.get (getFilePath key) files with
       | None =>
           (* readFile rejects: the catch block *)
           modify (with_stats stats_miss) ;;;
           ret None
       | Some entry =>
           now <- Date_now ;;
           if (expiresAt entry <? now)%Z then
             modify (fun this => snd (delete key this)) ;;;
             modify (with_stats stats_miss) ;;;
             ret None
           else
             modify (with_stats stats_hit) ;;;
             ret (Some (value entry))
       end
   end)%eff.

(** [set], when [writeFile] resolves: the directory exists (the [mkdir]
    the constructor starts has completed) and the file is written.  When
    [writeFile] rejects, the [catch] block logs the error and the directory
    is left as it was; that outcome is for the environment to decide and
    no statement below about a write covers it. *)
Definition set (key : string) (v : V) (options : CacheOptions) : Eff t unit :=
  (files <- gets fs ;;
   match files with
   | None => ret tt
   | Some _ =>
       ttl <- gets (fun this => ttl_or_default (opt_ttl options) (defaultTTL this)) ;;
       entry <- new_entry v ttl (opt_tags options) ;;
       modify (with_files (JsMap.set (getFilePath key) entry))
   end)%eff.

Definition clear (this : t) : t := with_files (fun _ => JsMap.empty) this.

(** [fs.access(filePath)] only tests that the file exists. *)
Definition has (key : string) : Eff t bool :=
  (files <- gets fs ;;
   match files with
   | None => ret false
   | Some files => ret (JsMap.has (getFilePath key) files)
   end)%eff.

Definition getStats (this : t) : LayerStats := stats this.

(** [deleteByTag]: [readdir] returns the list of files to visit. *)
Fixpoint deleteByTag_loop (tag : string) (listing : list (string * CacheEntry V))
    (files : Directory) (count : nat) : Directory * nat :=
  match listing with
  | [] => (files, count)
  | (file, entry) :: listing' =>
      if tags_include tag (tags entry)
      then deleteByTag_loop tag listing' (JsMap.delete file files) (S count)
      else deleteByTag_loop tag listing' files count
  end.
Definition deleteByTag (tag : string) (this : t) : nat * t :=
  match fs this with
  | None => (0, this)
  | Some files =>
      let '(files', count) := deleteByTag_loop tag (JsMap.entries files) files 0 in
      (count, with_files (fun _ => files') this)
  end.

(** [keys]: the names [readdir] lists, with [.json] removed. *)
Definition keys (this : t) : list string :=
  match fs this with
  | None => []
  | Some files => map (JsString.remove_first ".json") (JsMap.keys files)
  end.

Definition size (this : t) : nat :=
  match fs this with
  | None => 0
  | Some files => JsMap.size files
  end.

End WithValue.
Arguments t : clear implicits.
Arguments Directory : clear implicits.
End FileLayer.

(* ===================================================================== *)
(** * [RedisLayer]                                                         *)
(* ===================================================================== *)

(** The Redis client is an external object ([client: any]).  It is a
    parameter of the model: a state [C] and the commands the layer sends.
    The outer [option] of a reply is [None] when the promise rejects.  The
    string stored under a key is the [JSON.stringify] of an entry, read
    back with [JSON.parse]; as for files it is modelled by the entry, and a
    reply that does not parse is a rejection (both end in [catch]). *)
Class RedisClient (V C : Type) : Type := {
  client_get : string -> C -> option (option (CacheEntry V)) * C;
  client_set_px : string -> CacheEntry V -> Z -> C -> option unit * C;
  client_sadd : string -> string -> C -> option unit * C;
  client_del : list string -> C -> option Z * C;
  client_exists : string -> C -> option Z * C;
  client_smembers : string -> C -> option (list string) * C;
  client_keys : string -> C -> option (list string) * C
}.

Module RedisLayer.
Section WithClient.
Context {V C : Type} `{RedisClient V C}.

Record t : Type := mk {
  client : C;
  stats : LayerStats;
  defaultTTL : Z;
  prefix : string
}.

Definition with_client (c : C) (this : t) : t :=
  mk c (stats this) (defaultTTL this) (prefix this).
Definition with_stats (f : LayerStats -> LayerStats) (this : t) : t :=
  mk (client this) (f (stats this)) (defaultTTL this) (prefix this).

Definition getKey (this : t) (key : string) : string := prefix this ++ key.
Definition tagKey (this : t) (tag : string) : string := prefix this ++ "tag:" ++ tag.

Definition delete (key : string) (this : t) : bool * t :=
  match client_del [getKey this key] (client this) with
  | (Some n, c) => ((n >? 0)%Z, with_client c this)
  | (None, c) => (false, with_client c this)
  end.

Definition get (key : string) : Eff t (option V) :=
  (reply <- (fun this clk =>
       let '(r, c) := client_get (getKey this key) (client this) in
       (r, with_client c this, clk)) ;;
   match reply with
   | None | Some None =>
       modify (with_stats stats_miss) ;;;
       ret None
   | Some (Some entry) =>
       now <- Date_now ;;
       if (expiresAt entry <? now)%Z then
         modify (fun this => snd (delete key this)) ;;;
         modify (with_stats stats_miss) ;;;
         ret None
       else
         modify (with_stats stats_hit) ;;;
         ret (Some (value entry))
   end)%eff.

(** The loop [for (const tag of options.tags) await client.sadd(..)]; a
    rejection leaves the loop for the [catch] block. *)
Fixpoint sadd_all (this : t) (key : string) (tgs : list string) (c : C) : C :=
  match tgs with
  | [] => c
  | tag :: tgs' =>
      match client_sadd (tagKey this tag) key c with
      | (Some _, c') => sadd_all this key tgs' c'
      | (None, c') => c'
      end
  end.

Definition set (key : string) (v : V) (options : CacheOptions) : Eff t unit :=
  (ttl <- gets (fun this => ttl_or_default (opt_ttl options) (defaultTTL this)) ;;
   entry <- new_entry v ttl (opt_tags options) ;;
   modify (fun this =>
     match client_set_px (getKey this key) entry ttl (client this) with
     | (Some _, c) =>
         match opt_tags options with
         | Some tgs => with_client (sadd_all this key tgs c) this
         | None => with_client c this
         end
     | (None, c) => with_client c this
     end))%eff.

Definition has (key : string) : Eff t bool :=
  fun this clk =>
    match client_exists (getKey this key) (client this) with
    | (Some n, c) => ((n =? 1)%Z, with_client c this, clk)
    | (None, c) => (false, with_client c this, clk)
    end.

(** [clear]: [DEL] of everything [KEYS prefix*] lists. *)
Definition clear (this : t) : t :=
  match client_keys (prefix this ++ "*") (client this) with
  | (Some ks, c) =>
      if (length ks =? 0)%nat then with_client c this
      else with_client (snd (client_del ks c)) this
  | (None, c) => with_client c this
  end.

Definition getStats (this : t) : LayerStats := stats this.

Definition deleteByTag (tag : string) (this : t) : nat * t :=
  match client_smembers (tagKey this tag) (client this) with
  | (None, c) => (0, with_client c this)
  | (Some ks, c) =>
      if (length ks =? 0)%nat then (0, with_client c this)
      else
        match client_del (map (getKey this) ks) c with
        | (None, c1) => (0, with_client c1 this)
        | (Some _, c1) =>
            match client_del [tagKey this tag] c1 with
            | (None, c2) => (0, with_client c2 this)
            | (Some _, c2) => (length ks, with_client c2 this)
            end
        end
  end.

(** [keys]: what [KEYS prefix*] lists, with the prefix removed. *)
Definition keys (this : t) : list string * t :=
  match client_keys (prefix this ++ "*") (client this) with
  | (Some ks, c) => (map (JsString.remove_first (prefix this)) ks, with_client c this)
  | (None, c) => ([], with_client c this)
  end.

Definition size (this : t) : nat * t :=
  match client_keys (prefix this ++ "*") (client this) with
  | (Some ks, c) => (length ks, with_client c this)
  | (None, c) => (0, with_client c this)
  end.

End WithClient.
Arguments t : clear implicits.
End RedisLayer.

(* ===================================================================== *)
(** * The [CacheLayer] interface                                           *)
(* ===================================================================== *)

(** The interface [CacheLayer] ([types.ts]): [name], [get], [set],
    [delete], [clear], [has] and [getStats]; [keys] is the class
    [CacheLayerKeys] below, and [size] is called by no method of the
    composer.  The interface does not declare [deleteByTag]: the composer
    asks each object whether it has the method (['deleteByTag' in layer]),
    and [layer_deleteByTag tag l = None] says that the object [l] has
    none. *)
Class CacheLayer (V L : Type) : Type := {
  layer_name : L -> string;
  layer_get : string -> Eff L (option V);
  layer_set : string -> V -> CacheOptions -> Eff L unit;
  layer_delete : string -> L -> bool * L;
  layer_clear : L -> L;
  layer_has : string -> Eff L bool;
  layer_getStats : L -> LayerStats;
  layer_deleteByTag : string -> L -> option (nat * L)
}.

#[export] Instance MemoryLayer_CacheLayer {V : Type} : CacheLayer V (MemoryLayer.t V) := {
  layer_name := fun _ => "memory";
  layer_get := MemoryLayer.get;
  layer_set := MemoryLayer.set;
  layer_delete := MemoryLayer.delete;
  layer_clear := MemoryLayer.clear;
  layer_has := MemoryLayer.has;
  layer_getStats := MemoryLayer.getStats;
  layer_deleteByTag := fun tag this => Some (MemoryLayer.deleteByTag tag this)
}.

#[export] Instance FileLayer_CacheLayer {V : Type} : CacheLayer V (FileLayer.t V) := {
  layer_name := fun _ => "file";
  layer_get := FileLayer.get;
  layer_set := FileLayer.set;
  layer_delete := FileLayer.delete;
  layer_clear := FileLayer.clear;
  layer_has := FileLayer.has;
  layer_getStats := FileLayer.getStats;
  layer_deleteByTag := fun tag this => Some (FileLayer.deleteByTag tag this)
}.

#[export] Instance RedisLayer_CacheLayer {V C : Type} `{RedisClient V C}
  : CacheLayer V (RedisLayer.t C) := {
  layer_name := fun _ => "redis";
  layer_get := RedisLayer.get;
  layer_set := RedisLayer.set;
  layer_delete := RedisLayer.delete;
  layer_clear := RedisLayer.clear;
  layer_has := RedisLayer.has;
  layer_getStats := RedisLayer.getStats;
  layer_deleteByTag := fun tag this => Some (RedisLayer.deleteByTag tag this)
}.

(** Running a method of the left or right summand of a heterogeneous layer. *)
Definition on_left {A B X} (m : Eff A X) (a : A) : Eff (A + B) X :=
  fun _ clk => let '(x, a', clk') := m a clk in (x, inl a', clk').
Definition on_right {A B X} (m : Eff B X) (b : B) : Eff (A + B) X :=
  fun _ clk => let '(x, b', clk') := m b clk in (x, inr b', clk').

(** An array of layers of different classes: each element dispatches to the
    methods of its own class. *)
#[export] Instance sum_CacheLayer {V A B : Type} `{CacheLayer V A} `{CacheLayer V B}
  : CacheLayer V (A + B) := {
  layer_name := fun l => match l with inl a => layer_name a | inr b => layer_name b end;
  layer_get := fun key l =>
    match l with inl a => on_left (layer_get key) a l | inr b => on_right (layer_get key) b l end;
  layer_set := fun key v o l =>
    match l with inl a => on_left (layer_set key v o) a l | inr b => on_right (layer_set key v o) b l end;
  layer_delete := fun key l =>
    match l with
    | inl a => let '(r, a') := layer_delete key a in (r, inl a')
    | inr b => let '(r, b') := layer_delete key b in (r, inr b')
    end;
  layer_clear := fun l =>
    match l with inl a => inl (layer_clear a) | inr b => inr (layer_clear b) end;
  layer_has := fun key l =>
    match l with inl a => on_left (layer_has key) a l | inr b => on_right (layer_has key) b l end;
  layer_getStats := fun l =>
    match l with inl a => layer_getStats a | inr b => layer_getStats b end;
  layer_deleteByTag := fun tag l =>
    match l with
    | inl a => option_map (fun '(n, a') => (n, inl a')) (layer_deleteByTag tag a)
    | inr b => option_map (fun '(n, b') => (n, inr b')) (layer_deleteByTag tag b)
    end
}.

(** [keys(): Promise<string[]>] of the interface [CacheLayer]
    ([types.ts]).  The Redis layer asks its client, whose state may
    change. *)
Class CacheLayerKeys (L : Type) : Type := {
  layer_keys : L -> list string * L
}.

#[export] Instance MemoryLayer_CacheLayerKeys {V : Type} : CacheLayerKeys (MemoryLayer.t V) := {
  layer_keys := fun this => (MemoryLayer.keys this, this)
}.

#[export] Instance FileLayer_CacheLayerKeys {V : Type} : CacheLayerKeys (FileLayer.t V) := {
  layer_keys := fun this => (FileLayer.keys this, this)
}.

#[export] Instance RedisLayer_CacheLayerKeys {V C : Type} `{RedisClient V C}
  : CacheLayerKeys (RedisLayer.t C) := {
  layer_keys := RedisLayer.keys
}.

#[export] Instance sum_CacheLayerKeys {A B : Type} `{CacheLayerKeys A} `{CacheLayerKeys B}
  : CacheLayerKeys (A + B) := {
  layer_keys := fun l =>
    match l with
    | inl a => let '(ks, a') := layer_keys a in (ks, inl a')
    | inr b => let '(ks, b') := layer_keys b in (ks, inr b')
    end
}.

(* ===================================================================== *)
(** * [CacheComposer]                                                      *)
(* ===================================================================== *)

(** [globalStats] *)
Record GlobalStats : Type := mkGlobalStats {
  hits : nat;
  misses : nat;
  sets : nat;
  deletes : nat
}.

(** A counter as the JavaScript number it is: the double of that value
    (exact below [2^53]). *)
Definition number (n : nat) : float :=
  PrimFloat.of_uint63 (Uint63.of_Z (Z.of_nat n)).

(** [CacheStats] ([types.ts]), the value of [getStats()].  [hitRate] is a
    double. *)
Record CacheStats : Type := mkCacheStats {
  cs_hits : nat;
  cs_misses : nat;
  cs_sets : nat;
  cs_deletes : nat;
  hitRate : float;
  totalRequests : nat;
  layerStats : JsMap.t LayerStats
}.

Module Composer.
Section WithLayers.
Context {V L : Type} `{CacheLayer V L}.

Record t : Type := mk {
  layers : list L;
  analytics : bool;
  globalStats : GlobalStats
}.

Definition with_layers (f : list L -> list L) (this : t) : t :=
  mk (f (layers this)) (analytics this) (globalStats this).
Definition with_globalStats (f : GlobalStats -> GlobalStats) (this : t) : t :=
  mk (layers this) (analytics this) (f (globalStats this)).

Definition incr_hits (g : GlobalStats) : GlobalStats :=
  mkGlobalStats (S (hits g)) (misses g) (sets g) (deletes g).
Definition incr_misses (g : GlobalStats) : GlobalStats :=
  mkGlobalStats (hits g) (S (misses g)) (sets g) (deletes g).
Definition incr_sets (g : GlobalStats) : GlobalStats :=
  mkGlobalStats (hits g) (misses g) (S (sets g)) (deletes g).
Definition incr_deletes (g : GlobalStats) : GlobalStats :=
  mkGlobalStats (hits g) (misses g) (sets g) (S (deletes g)).

(** [if (this.analytics) this.globalStats.<counter>++] *)
Definition count (incr : GlobalStats -> GlobalStats) : Eff t unit :=
  (a <- gets analytics ;;
   when_ a (modify (with_globalStats incr)))%eff.

(** [await this.layers[i].<method>(..)]: the layer object at index [i] is
    mutated in place.  [undefined] stands for the result when there is no
    such layer, which the loops below never ask for. *)
Definition call_layer {A} (i : nat) (m : Eff L A) (undefined : A) : Eff t A :=
  fun this clk =>
    match layers this !! i with
    | Some layer =>
        let '(a, layer', clk') := m layer clk in
        (a, with_layers (fun ls => <[i := layer']> ls) this, clk')
    | None => (undefined, this, clk)
    end.

(** [for (let j = 0; j < i; j++) await this.layers[j].set(key, value)]:
    [js] is [0, .., i-1]. *)
Fixpoint promote (js : list nat) (key : string) (v : V) : Eff t unit :=
  match js with
  | [] => ret tt
  | j :: js' =>
      (call_layer j (layer_set key v no_options) tt ;;;
       promote js' key v)%eff
  end.

(** The loop of [get] over the indices [idx = i, .., layers.length-1], and
    the code that follows it. *)
Fixpoint get_loop (idx : list nat) (key : string) : Eff t (option V) :=
  match idx with
  | [] =>
      (count incr_misses ;;;
       ret None)%eff
  | i :: idx' =>
      (value <- call_layer i (layer_get key) None ;;
       match value with
       | Some v =>
           count incr_hits ;;;
           promote (seq 0 i) key v ;;;
           ret (Some v)
       | None => get_loop idx' key
       end)%eff
  end.

Definition get (key : string) : Eff t (option V) :=
  fun this => get_loop (seq 0 (length (layers this))) key this.

(** [Promise.all(this.layers.map(layer => layer.<method>(..)))].  [map]
    starts the calls in array order; the layers share no state and every
    [Date.now()] of a layer's [set] precedes its first [await], so the
    readings are taken in array order. *)
Fixpoint all_layers {A} (m : Eff L A) (ls : list L) (clk : Clock)
  : list A * list L * Clock :=
  match ls with
  | [] => ([], [], clk)
  | l :: ls' =>
      let '(a, l', clk1) := m l clk in
      let '(rs, ls'', clk2) := all_layers m ls' clk1 in
      (a :: rs, l' :: ls'', clk2)
  end.

Definition set (key : string) (v : V) (options : CacheOptions) : Eff t unit :=
  (count incr_sets ;;;
   fun this clk =>
     let '(_, ls, clk') := all_layers (layer_set key v options) (layers this) clk in
     (tt, with_layers (fun _ => ls) this, clk'))%eff.

(** [delete]: no layer reads the clock when deleting. *)
Definition delete (key : string) (this : t) : bool * t :=
  let this := if analytics this then with_globalStats incr_deletes this else this in
  let results := map (layer_delete key) (layers this) in
  (existsb (fun r => r) (map fst results), with_layers (fun _ => map snd results) this).

Definition clear (this : t) : t := with_layers (map layer_clear) this.

(** [for (const layer of this.layers) if (await layer.has(key)) return true] *)
Fixpoint has_loop (key : string) (ls : list L) (clk : Clock) : bool * list L * Clock :=
  match ls with
  | [] => (false, [], clk)
  | l :: ls' =>
      let '(b, l', clk1) := layer_has key l clk in
      if b then (true, l' :: ls', clk1)
      else let '(r, ls'', clk2) := has_loop key ls' clk1 in (r, l' :: ls'', clk2)
  end.
Definition has (key : string) : Eff t bool :=
  fun this clk =>
    let '(r, ls, clk') := has_loop key (layers this) clk in
    (r, with_layers (fun _ => ls) this, clk').

(** The loop of [deleteByTag] with its accumulator [totalDeleted]. *)
Fixpoint deleteByTag_loop (tag : string) (ls : list L) (totalDeleted : nat)
  : nat * list L :=
  match ls with
  | [] => (totalDeleted, [])
  | layer :: ls' =>
      match layer_deleteByTag tag layer with
      | Some (deleted, layer') =>
          let '(n, ls'') := deleteByTag_loop tag ls' (totalDeleted + deleted) in
          (n, layer' :: ls'')
      | None =>
          let '(n, ls'') := deleteByTag_loop tag ls' totalDeleted in
          (n, layer :: ls'')
      end
  end.
Definition deleteByTag (tag : string) (this : t) : nat * t :=
  let '(n, ls) := deleteByTag_loop tag (layers this) 0 in
  (n, with_layers (fun _ => ls) this).

(** [getStats]: [hitRate = totalRequests > 0 ? hits / totalRequests : 0]. *)
Definition getStats (this : t) : CacheStats :=
  let totalRequests := hits (globalStats this) + misses (globalStats this) in
  let hitRate :=
    if (0 <? totalRequests)%nat
    then PrimFloat.div (number (hits (globalStats this))) (number totalRequests)
    else PrimFloat.zero in
  let layerStats :=
    fold_left (fun acc layer => JsMap.set (layer_name layer) (layer_getStats layer) acc)
              (layers this) JsMap.empty in
  mkCacheStats (hits (globalStats this)) (misses (globalStats this))
               (sets (globalStats this)) (deletes (globalStats this))
               hitRate totalRequests layerStats.

Definition resetStats (this : t) : t :=
  with_globalStats (fun _ => mkGlobalStats 0 0 0 0) this.

(** A caller that awaits [get] for each key of [ks] in turn. *)
Fixpoint get_each (ks : list string) : Eff t (list (option V)) :=
  match ks with
  | [] => ret []
  | k :: ks' =>
      (r <- get k ;;
       rs <- get_each ks' ;;
       ret (r :: rs))%eff
  end.

(** [getOrSet].  [loader] is what the call [await loader()] yields, should
    it be made: [Some value] for a value that is not [null], or [None] when
    it rejects; the result [None] is the rejection, which [getOrSet] lets
    through.  (A loader that yields [null] has [null] stored and is asked
    again by the next call, since a cached [null] reads as absent.) *)
Definition getOrSet (key : string) (loader : option V) (options : CacheOptions)
  : Eff t (option V) :=
  (cached <- get key ;;
   match cached with
   | Some c => ret (Some c)
   | None =>
       match loader with
       | None => ret None
       | Some v =>
           set key v options ;;;
           ret (Some v)
       end
   end)%eff.

(** [touch]: the options of the [set] are [{ ttl }]. *)
Definition touch (key : string) (ttl : option Z) : Eff t bool :=
  (cached <- get key ;;
   match cached with
   | None => ret false
   | Some v =>
       set key v (mkOptions ttl None) ;;;
       ret true
   end)%eff.

(** [ttl].  [truthy] tells which values JavaScript takes for true in
    [if (!value)]. *)
Definition ttl (truthy : V -> bool) (key : string) : Eff t (option Z) :=
  fun this clk =>
    match layers this !! 0 with
    | None => (None, this, clk)
    | Some _ =>
        (cached <- call_layer 0 (layer_get key) None ;;
         match cached with
         | Some v => if truthy v then ret (Some (-1)%Z) else ret None
         | None => ret None
         end)%eff this clk
    end.

Context `{CacheLayerKeys L}.

(** [Promise.all(this.layers.map(layer => layer.keys()))] *)
Fixpoint all_keys (ls : list L) : list (list string) * list L :=
  match ls with
  | [] => ([], [])
  | l :: ls' =>
      let '(ks, l') := layer_keys l in
      let '(kss, ls'') := all_keys ls' in
      (ks :: kss, l' :: ls'')
  end.

(** [keys]: [[...new Set(allKeys.flat())]] *)
Definition keys (this : t) : list string * t :=
  let '(allKeys, ls) := all_keys (layers this) in
  (JsSet.of_array (concat allKeys), with_layers (fun _ => ls) this).

(** [allKeys.filter(key => pattern.test(key))].  A [RegExp] is an object:
    [test] reads and writes its [lastIndex] when the pattern has the [g] or
    the [y] flag.  [P] is the type of the states of the object and [test]
    its method. *)
Fixpoint filter_test {P : Type} (test : string -> P -> bool * P)
    (allKeys : list string) (pattern : P) : list string * P :=
  match allKeys with
  | [] => ([], pattern)
  | key :: rest =>
      let '(matched, pattern1) := test key pattern in
      let '(matchingKeys, pattern2) := filter_test test rest pattern1 in
      (if matched then key :: matchingKeys else matchingKeys, pattern2)
  end.

(** [invalidatePattern].  Each [delete] sends one command to each layer,
    and the commands reach a layer in the order of [matchingKeys]. *)
Definition invalidatePattern {P : Type} (test : string -> P -> bool * P)
    (pattern : P) (this : t) : nat * t * P :=
  let '(allKeys, this1) := keys this in
  let '(matchingKeys, pattern1) := filter_test test allKeys pattern in
  (length matchingKeys,
   fold_left (fun c key => snd (delete key c)) matchingKeys this1,
   pattern1).

End WithLayers.
Arguments t : clear implicits.
End Composer.

(* ===================================================================== *)
(** * The constructor of [CacheComposer]                                   *)
(* ===================================================================== *)

(** The three layer classes the constructor can push, in one array. *)
Definition AnyLayer (V C : Type) : Type :=
  (MemoryLayer.t V + (RedisLayer.t C + FileLayer.t V))%type.

Module Config.

(** [CacheComposerConfig] and [CacheLayerConfig] ([types.ts]), with the
    fields [initializeLayers] reads.  [None] is an absent (undefined)
    field.  [types.ts] declares [enabled: boolean] without [?]; the tests
    of the constructor ([enabled !== false], [?.enabled]) answer for an
    absent [enabled] as well, which a JavaScript caller can leave out
    ([new CacheComposer({ memory: { maxSize: 1000 } })]), so the field is
    optional here. *)
Record MemoryConfig : Type := mkMemory {
  mem_enabled : option bool;
  mem_maxSize : option Z;
  mem_ttl : option Z;
  mem_invalidation : option InvalidationStrategy
}.
Record RedisConfig (C : Type) : Type := mkRedis {
  redis_enabled : option bool;
  redis_client : option C;
  redis_ttl : option Z
}.
Record FileConfig : Type := mkFile {
  file_enabled : option bool;
  file_directory : option string;
  file_ttl : option Z
}.
Record t (C : Type) : Type := mk {
  memory : option MemoryConfig;
  redis : option (RedisConfig C);
  file : option FileConfig;
  analytics : option bool
}.
Arguments mkRedis {C}.
Arguments redis_enabled {C}.
Arguments redis_client {C}.
Arguments redis_ttl {C}.
Arguments mk {C}.
Arguments memory {C}.
Arguments redis {C}.
Arguments file {C}.
Arguments analytics {C}.

(** [new CacheComposer()]: the default argument [config = {}]. *)
Definition empty {C : Type} : t C := mk None None None None.

End Config.

Section Constructor.
Context {V C : Type} `{RedisClient V C}.

(** [initializeLayers].  [node_fs] is the environment of [new FileLayer]:
    [None] outside Node, and the content of the directory otherwise. *)
Definition initializeLayers (config : Config.t C)
    (node_fs : string -> option (FileLayer.Directory V)) : list (AnyLayer V C) :=
  (* this.config.memory?.enabled !== false *)
  (match Config.memory config with
   | Some (Config.mkMemory (Some false) _ _ _) => []
   | memConfig =>
       [inl (MemoryLayer.new
               (num_or (memConfig ≫= Config.mem_maxSize) 1000)
               (num_or (memConfig ≫= Config.mem_ttl) 3600000)
               (default (mkStrategy LRU) (memConfig ≫= Config.mem_invalidation)))]
   end)
  ++
  (* this.config.redis?.enabled && this.config.redis.client *)
  (match Config.redis config with
   | Some (Config.mkRedis (Some true) (Some client) ttl) =>
       [inr (inl (RedisLayer.mk client stats_zero (num_or ttl 3600000) "cache:"))]
   | _ => []
   end)
  ++
  (* this.config.file?.enabled *)
  (match Config.file config with
   | Some (Config.mkFile (Some true) dir ttl) =>
       let directory :=
         match dir with
         | Some d => if String.eqb d "" then ".cache" else d
         | None => ".cache"
         end in
       [inr (inr (FileLayer.mk stats_zero (num_or ttl 3600000) directory (node_fs directory)))]
   | _ => []
   end).

(** [new CacheComposer(config)], without the warm-up. *)
Definition new_composer (config : Config.t C)
    (node_fs : string -> option (FileLayer.Directory V)) : Composer.t (AnyLayer V C) :=
  Composer.mk (initializeLayers config node_fs)
              (default true (Config.analytics config))
              (mkGlobalStats 0 0 0 0).

End Constructor.

Ltac eff_unfold :=
  unfold new_entry, bind, ret, gets, modify, Date_now, when_,
         result, state, clock in *.

(** Closes [JsMap.wf] of an explicit list of entries. *)
Ltac concrete_wf :=
  unfold JsMap.wf; simpl; repeat constructor; simpl; intuition discriminate.

(* ===================================================================== *)
(** * The specification's vocabulary                                      *)
(* ===================================================================== *)

(** "The configured number, and the default when none or [0] is
    configured": [y] is that number. *)
Definition configured_or (x : option Z) (d : Z) (y : Z) : Prop :=
  (forall n, x = Some n -> n <> 0%Z -> y = n) /\
  (x = None \/ x = Some 0%Z -> y = d).

Section SpecVocabulary.
Context {V : Type}.

(** "The first-found entry with the smallest [f]": the entry stored under
    [k] has an [f] strictly below every entry before it in iteration order
    and not above any entry after it. *)
Definition first_smallest (f : CacheEntry V -> Z)
    (es : list (string * CacheEntry V)) (k : string) : Prop :=
  exists pre e post,
    es = (pre ++ (k, e) :: post)%list /\
    Forall (fun x => (f e < f (snd x))%Z) pre /\
    Forall (fun x => (f e <= f (snd x))%Z) post.

(** "An entry whose tag set contains the tag". *)
Definition tagged (tag : string) (x : string * CacheEntry V) : bool :=
  tags_include tag (tags (snd x)).

(** "The configured TTL has not elapsed" for [e] when the clock reads [now]:
    the layers expire an entry when [expiresAt < now]. *)
Definition live (e : CacheEntry V) (now : Z) : Prop := ~ (expiresAt e < now)%Z.

(** The entry [set] writes: three successive readings of the clock. *)
Definition written_entry (v : V) (o : CacheOptions) (defaultTTL : Z) (clk : Clock)
  : CacheEntry V :=
  mkEntry v (peek clk + ttl_or_default (opt_ttl o) defaultTTL)%Z
          (peek (tick clk)) 0 (peek (tick (tick clk))) (opt_tags o).

(** The capacity test of [set]. *)
Definition must_evict (key : string) (this : MemoryLayer.t V) : bool :=
  (Z.of_nat (JsMap.size (MemoryLayer.cache this)) >=? MemoryLayer.maxSize this)%Z
  && negb (JsMap.has key (MemoryLayer.cache this)).

(** "The count a layer reports for the tag": what its [deleteByTag] returns,
    and nothing for a layer without that method. *)
Definition deleted_by {L : Type} `{CacheLayer V L} (tag : string) (l : L) : nat :=
  match layer_deleteByTag tag l with
  | Some (n, _) => n
  | None => 0
  end.
Definition after_deleteByTag {L : Type} `{CacheLayer V L} (tag : string) (l : L) : L :=
  match layer_deleteByTag tag l with
  | Some (_, l') => l'
  | None => l
  end.

(** The representation invariant of a memory layer or of a file layer's
    directory. *)
Definition layer_wf (l : MemoryLayer.t V + FileLayer.t V) : Prop :=
  match l with
  | inl m => JsMap.wf (MemoryLayer.cache m)
  | inr f => forall files, FileLayer.fs f = Some files -> JsMap.wf files
  end.

End SpecVocabulary.

(** ** "Any operation" on a memory layer *)

Section MemoryCalls.
Context {V : Type}.

(** One call of a method of the memory layer's contract. *)
Inductive Call : Type :=
  | CallGet (key : string)
  | CallSet (key : string) (v : V) (options : CacheOptions)
  | CallDelete (key : string)
  | CallHas (key : string)
  | CallClear
  | CallDeleteByTag (tag : string).

Definition call (c : Call) : Eff (MemoryLayer.t V) unit :=
  match c with
  | CallGet key => (MemoryLayer.get key ;;; ret tt)%eff
  | CallSet key v options => MemoryLayer.set key v options
  | CallDelete key => modify (fun this => snd (MemoryLayer.delete key this))
  | CallHas key => (MemoryLayer.has key ;;; ret tt)%eff
  | CallClear => modify MemoryLayer.clear
  | CallDeleteByTag tag => modify (fun this => snd (MemoryLayer.deleteByTag tag this))
  end.

Fixpoint calls (cs : list Call) : Eff (MemoryLayer.t V) unit :=
  match cs with
  | [] => ret tt
  | c :: cs' => (call c ;;; calls cs')%eff
  end.

(** The keys a call stores under are truthy strings. *)
Definition stores_truthy_key (c : Call) : Prop :=
  match c with
  | CallSet key _ _ => key <> ""
  | _ => True
  end.

(** Every resident key is a truthy string. *)
Definition truthy_keys (this : MemoryLayer.t V) : Prop :=
  Forall (fun k => k <> "") (JsMap.keys (MemoryLayer.cache this)).

(** The bound of the memory layer, with what keeps it. *)
Definition within_capacity (this : MemoryLayer.t V) : Prop :=
  (Z.of_nat (JsMap.size (MemoryLayer.cache this)) <= MemoryLayer.maxSize this)%Z /\
  truthy_keys this.

End MemoryCalls.
Arguments Call : clear implicits.

(** ** Base 36 *)

(** The digits of base 36, in order. *)
Definition alphabet36 : list ascii :=
  list_ascii_of_string "0123456789abcdefghijklmnopqrstuvwxyz".

(** The value of a digit: its place in [alphabet36]. *)
Fixpoint place (c : ascii) (l : list ascii) : nat :=
  match l with
  | [] => 0
  | d :: l' => if Ascii.eqb c d then 0 else S (place c l')
  end.

(** The number a string of base-36 digits denotes ([parseInt(s, 36)]). *)
Fixpoint value36 (s : string) (acc : Z) : Z :=
  match s with
  | EmptyString => acc
  | String c s' => value36 s' (acc * 36 + Z.of_nat (place c alphabet36))%Z
  end.

(** The 32-bit hash [hashKey] computes before it is printed. *)
Definition hash32 (key : string) : Z :=
  fold_left FileLayer.hash_step (FileLayer.charCodes key) 0%Z.

(** ** Counting calls *)

(** The calls of [get] in a sequence of calls. *)
Definition count_gets {V : Type} (cs : list (Call V)) : nat :=
  length (List.filter (fun c => match c with CallGet _ => true | _ => false end) cs).

(** ** [get] as the specification words it *)

Section GetSpec.
Context {V L : Type} `{CacheLayer V L}.

(** "Probe layers in order 0..n-1" up to "the first layer that returns a
    present value": the layers that answered absent (as their [get] left
    them), the value found with the layer that had it, the layers never
    asked, and the clock afterwards. *)
Fixpoint probe (key : string) (ls : list L) (clk : Clock)
  : list L * option (V * L) * list L * Clock :=
  match ls with
  | [] => ([], None, [], clk)
  | l :: rest =>
      let '(r, l', clk') := layer_get key l clk in
      match r with
      | Some v => ([], Some (v, l'), rest, clk')
      | None =>
          let '(missed, hit, rest', clk'') := probe key rest clk' in
          (l' :: missed, hit, rest', clk'')
      end
  end.

(** "For every layer strictly above the hit, issue a [set(key, value)]" with
    no options, "sequential by layer index". *)
Fixpoint plain_set_each (key : string) (v : V) (ls : list L) (clk : Clock)
  : list L * Clock :=
  match ls with
  | [] => ([], clk)
  | l :: rest =>
      let '(_, l', clk') := layer_set key v no_options l clk in
      let '(rest', clk'') := plain_set_each key v rest clk' in
      (l' :: rest', clk'')
  end.

(** The counter named by [incr] goes up by one "if analytics enabled". *)
Definition counted (this : Composer.t L) (incr : GlobalStats -> GlobalStats)
  : GlobalStats :=
  if Composer.analytics this
  then incr (Composer.globalStats this)
  else Composer.globalStats this.

Definition get_spec (key : string) : Eff (Composer.t L) (option V) :=
  fun this clk =>
    let '(missed, hit, rest, clk1) := probe key (Composer.layers this) clk in
    match hit with
    | Some (v, l) =>
        let '(promoted, clk2) := plain_set_each key v missed clk1 in
        (Some v,
         Composer.mk (promoted ++ l :: rest) (Composer.analytics this)
                     (counted this Composer.incr_hits),
         clk2)
    | None =>
        (None,
         Composer.mk missed (Composer.analytics this)
                     (counted this Composer.incr_misses),
         clk1)
    end.

End GetSpec.

(** Counting the answers of a run of [get]s. *)
Definition present {V : Type} (rs : list (option V)) : nat :=
  length (List.filter (fun r => match r with Some _ => true | None => false end) rs).
Definition absent {V : Type} (rs : list (option V)) : nat :=
  length (List.filter (fun r => match r with Some _ => false | None => true end) rs).

(* ===================================================================== *)
(** * Scenarios used by the examples and witnesses                        *)
(* ===================================================================== *)

(** A Redis client whose server cannot be reached: every command rejects. *)
#[export] Instance offline_client {V : Type} : RedisClient V unit := {
  client_get := fun _ c => (None, c);
  client_set_px := fun _ _ _ c => (None, c);
  client_sadd := fun _ _ c => (None, c);
  client_del := fun _ c => (None, c);
  client_exists := fun _ c => (None, c);
  client_smembers := fun _ c => (None, c);
  client_keys := fun _ c => (None, c)
}.

(** A Redis client that answers [KEYS] with a fixed listing, its state;
    every other command rejects. *)
#[export] Instance listing_client {V : Type} : RedisClient V (list string) := {
  client_get := fun _ c => (None, c);
  client_set_px := fun _ _ _ c => (None, c);
  client_sadd := fun _ _ c => (None, c);
  client_del := fun _ c => (None, c);
  client_exists := fun _ c => (None, c);
  client_smembers := fun _ c => (None, c);
  client_keys := fun _ c => (Some c, c)
}.

(** A layer class that implements the contract without the optional
    [deleteByTag]: it stores its entries like the memory layer. *)
Record PlainLayer : Type := mkPlain { plain_store : MemoryLayer.t string }.

Definition plainly {A} (m : Eff (MemoryLayer.t string) A) : Eff PlainLayer A :=
  fun this clk =>
    let '(a, store, clk') := m (plain_store this) clk in (a, mkPlain store, clk').

#[export] Instance PlainLayer_CacheLayer : CacheLayer string PlainLayer := {
  layer_name := fun _ => "plain";
  layer_get := fun key => plainly (MemoryLayer.get key);
  layer_set := fun key v o => plainly (MemoryLayer.set key v o);
  layer_delete := fun key this =>
    let '(r, store) := MemoryLayer.delete key (plain_store this) in (r, mkPlain store);
  layer_clear := fun this => mkPlain (MemoryLayer.clear (plain_store this));
  layer_has := fun key => plainly (MemoryLayer.has key);
  layer_getStats := fun this => MemoryLayer.getStats (plain_store this);
  layer_deleteByTag := fun _ _ => None
}.

Module Scenario.

(** [new MemoryLayer(n)] with the default TTL and policy, and one with the
    frequency policy. *)
Definition memory (n : Z) : MemoryLayer.t string :=
  MemoryLayer.new n 3600000 (mkStrategy LRU).
Definition memory_lfu (n : Z) : MemoryLayer.t string :=
  MemoryLayer.new n 3600000 (mkStrategy LFU).

(** [new FileLayer()] under Node, on an empty directory. *)
Definition file : FileLayer.t string :=
  FileLayer.mk stats_zero 3600000 ".cache" (Some JsMap.empty).

(** [new CacheComposer({ memory: { enabled: false } })] *)
Definition no_memory : Config.t unit :=
  Config.mk (Some (Config.mkMemory (Some false) None None None)) None None None.

(** [new CacheComposer({ analytics: false })] *)
Definition no_analytics : Config.t unit :=
  Config.mk None None None (Some false).

(** [new CacheComposer({ memory: { maxSize: 1 }, file: { enabled: true } })] *)
Definition two_tier : Config.t unit :=
  Config.mk (Some (Config.mkMemory None (Some 1%Z) None None)) None
            (Some (Config.mkFile (Some true) None None)) None.

Definition composer (config : Config.t unit) : Composer.t (AnyLayer string unit) :=
  new_composer config (fun _ => Some JsMap.empty).

(** A memory layer above a layer that has no [deleteByTag]. *)
Definition memory_over_plain : Composer.t (MemoryLayer.t string + PlainLayer) :=
  Composer.mk [inl (memory 10); inr (mkPlain (memory 10))] true (mkGlobalStats 0 0 0 0).

(** A memory layer of capacity 10 above a file layer, with analytics. *)
Definition roomy_over_file : Composer.t (MemoryLayer.t string + FileLayer.t string) :=
  Composer.mk [inl (memory 10); inr file] true (mkGlobalStats 0 0 0 0).

(** [test] of a pattern [/^literal/] (no flag): the object is the literal,
    and [test] leaves it as it is. *)
Definition test_prefix (key : string) (pattern : string) : bool * string :=
  (String.prefix pattern key, pattern).

(** [test] of a pattern [/literal/g]: the object is the literal with its
    [lastIndex]; [test] searches from [lastIndex], leaves [lastIndex]
    behind the occurrence it finds, and sets it to [0] when it finds
    none. *)
Definition test_global (key : string) (pattern : string * nat) : bool * (string * nat) :=
  let '(literal, lastIndex) := pattern in
  match String.index lastIndex literal key with
  | Some i => (true, (literal, i + String.length literal))
  | None => (false, (literal, 0))
  end.

(** A memory layer of capacity 1 above a file layer, with analytics. *)
Definition memory_over_file : Composer.t (MemoryLayer.t string + FileLayer.t string) :=
  Composer.mk [inl (memory 1); inr file] true (mkGlobalStats 0 0 0 0).

End Scenario.

(* ===================================================================== *)
(** * Facts about [JsMap]                                                  *)
(* ===================================================================== *)

Section JsMapFacts.
Context {A : Type}.
Implicit Types (m : JsMap.t A) (k : string) (a : A).

Lemma JsMap_get_set_eq k a m : JsMap.get k (JsMap.set k a m) = Some a.
Proof.
  induction m as [|[k' a'] m IH]; simpl.
  - now rewrite String.eqb_refl.
  - destruct (String.eqb k' k) eqn:E; simpl; rewrite E; auto.
Qed.

Lemma JsMap_get_set_ne k k' a m :
  k <> k' -> JsMap.get k' (JsMap.set k a m) = JsMap.get k' m.
Proof.
  intros Hne. induction m as [|[k1 a1] m IH]; simpl.
  - apply String.eqb_neq in Hne. now rewrite Hne.
  - destruct (String.eqb k1 k) eqn:E; simpl.
    + apply String.eqb_eq in E. subst k1.
      apply String.eqb_neq in Hne. now rewrite Hne.
    + destruct (String.eqb k1 k'); auto.
Qed.

Lemma JsMap_get_delete_ne k k' m :
  k <> k' -> JsMap.get k' (JsMap.delete k m) = JsMap.get k' m.
Proof.
  intros Hne. induction m as [|[k1 a1] m IH]; simpl; auto.
  destruct (String.eqb k1 k) eqn:E; simpl.
  - apply String.eqb_eq in E. subst k1.
    apply String.eqb_neq in Hne. now rewrite Hne.
  - destruct (String.eqb k1 k'); auto.
Qed.

Lemma JsMap_get_None_keys k m : JsMap.get k m = None <-> ~ In k (JsMap.keys m).
Proof.
  induction m as [|[k1 a1] m IH]; simpl.
  - tauto.
  - destruct (String.eqb k1 k) eqn:E.
    + apply String.eqb_eq in E. split; [discriminate | intros H; exfalso; auto].
    + apply String.eqb_neq in E. rewrite IH. tauto.
Qed.

Lemma JsMap_has_keys k m : JsMap.has k m = true <-> In k (JsMap.keys m).
Proof.
  unfold JsMap.has. destruct (JsMap.get k m) eqn:E.
  - split; auto. intros _.
    destruct (in_dec string_dec k (JsMap.keys m)) as [Hin|Hin]; auto.
    apply JsMap_get_None_keys in Hin. congruence.
  - apply JsMap_get_None_keys in E. split; [discriminate | tauto].
Qed.

Lemma JsMap_keys_delete_incl k k' m :
  In k' (JsMap.keys (JsMap.delete k m)) -> In k' (JsMap.keys m).
Proof.
  induction m as [|[k1 a1] m IH]; simpl; auto.
  destruct (String.eqb k1 k); simpl; tauto.
Qed.

Lemma JsMap_wf_delete k m : JsMap.wf m -> JsMap.wf (JsMap.delete k m).
Proof.
  unfold JsMap.wf. induction m as [|[k1 a1] m IH]; simpl; auto.
  intros Hnd. inversion Hnd as [|? ? Hnotin Hnd']; subst.
  destruct (String.eqb k1 k); simpl; auto.
  constructor; auto. intros Hin. apply Hnotin. eapply JsMap_keys_delete_incl; eauto.
Qed.

Lemma JsMap_get_delete_eq k m : JsMap.wf m -> JsMap.get k (JsMap.delete k m) = None.
Proof.
  unfold JsMap.wf. induction m as [|[k1 a1] m IH]; simpl; auto.
  intros Hnd. inversion Hnd as [|? ? Hnotin Hnd']; subst.
  destruct (String.eqb k1 k) eqn:E; simpl.
  - apply String.eqb_eq in E. subst k1. now apply JsMap_get_None_keys.
  - rewrite E. auto.
Qed.

Lemma JsMap_keys_set k a m :
  JsMap.keys (JsMap.set k a m) =
  if JsMap.has k m then JsMap.keys m else (JsMap.keys m ++ [k])%list.
Proof.
  unfold JsMap.has. induction m as [|[k1 a1] m IH]; simpl; auto.
  destruct (String.eqb k1 k) eqn:E; simpl; auto.
  rewrite IH. destruct (JsMap.get k m); auto.
Qed.

Lemma JsMap_wf_set k a m : JsMap.wf m -> JsMap.wf (JsMap.set k a m).
Proof.
  unfold JsMap.wf. intros Hnd. rewrite JsMap_keys_set.
  destruct (JsMap.has k m) eqn:E; auto.
  apply List.NoDup_app; auto.
  - constructor; [simpl; tauto | constructor].
  - intros x Hx [Hk|[]]. subst x.
    apply JsMap_has_keys in Hx. congruence.
Qed.

Lemma JsMap_size_set k a m :
  JsMap.size (JsMap.set k a m) =
  if JsMap.has k m then JsMap.size m else S (JsMap.size m).
Proof.
  unfold JsMap.size, JsMap.has. induction m as [|[k1 a1] m IH]; simpl; auto.
  destruct (String.eqb k1 k) eqn:E; simpl; auto.
  rewrite IH. destruct (JsMap.get k m); auto.
Qed.

Lemma JsMap_size_delete k m :
  JsMap.size (JsMap.delete k m) =
  if JsMap.has k m then pred (JsMap.size m) else JsMap.size m.
Proof.
  unfold JsMap.size, JsMap.has. induction m as [|[k1 a1] m IH]; simpl; auto.
  destruct (String.eqb k1 k) eqn:E; simpl; auto.
  rewrite IH. destruct (JsMap.get k m) eqn:G; auto.
  destruct m; simpl in *; [discriminate | reflexivity].
Qed.

End JsMapFacts.

(* ===================================================================== *)
(** * Facts about [MemoryLayer]                                            *)
(* ===================================================================== *)

Section MemoryLayerFacts.
Context {V : Type}.
Implicit Types (this : MemoryLayer.t V) (key tag : string) (v : V)
         (o : CacheOptions) (clk : Clock) (e : CacheEntry V).

Lemma MemoryLayer_evict_fields this :
  MemoryLayer.defaultTTL (MemoryLayer.evict this) = MemoryLayer.defaultTTL this /\
  MemoryLayer.maxSize (MemoryLayer.evict this) = MemoryLayer.maxSize this /\
  MemoryLayer.invalidation (MemoryLayer.evict this) = MemoryLayer.invalidation this /\
  MemoryLayer.stats (MemoryLayer.evict this) = MemoryLayer.stats this.
Proof.
  unfold MemoryLayer.evict.
  destruct (JsMap.size (MemoryLayer.cache this) =? 0)%nat; auto.
  destruct (MemoryLayer.keyToEvict this); auto.
  destruct (MemoryLayer.truthy (Some s)); auto.
Qed.

(** [set] in closed form. *)
Lemma MemoryLayer_set_run key v o this clk :
  MemoryLayer.set key v o this clk =
  (tt,
   MemoryLayer.sync_size
     (MemoryLayer.with_cache
        (JsMap.set key (written_entry v o (MemoryLayer.defaultTTL this) clk))
        (if must_evict key this then MemoryLayer.evict this else this)),
   tick (tick (tick clk))).
Proof.
  unfold MemoryLayer.set, must_evict, written_entry. eff_unfold.
  destruct ((Z.of_nat (JsMap.size (MemoryLayer.cache this)) >=? MemoryLayer.maxSize this)%Z
            && negb (JsMap.has key (MemoryLayer.cache this))); simpl; auto.
  destruct (MemoryLayer_evict_fields this) as [-> _]. reflexivity.
Qed.

(** [get] in closed form. *)
Lemma MemoryLayer_get_run key this clk :
  MemoryLayer.get key this clk =
  match JsMap.get key (MemoryLayer.cache this) with
  | None => (None, MemoryLayer.with_stats stats_miss this, clk)
  | Some e =>
      if (expiresAt e <? peek clk)%Z
      then (None,
            MemoryLayer.with_stats stats_miss
              (MemoryLayer.with_cache (JsMap.delete key) this),
            tick clk)
      else (Some (value e),
            MemoryLayer.with_stats stats_hit
              (MemoryLayer.with_cache
                 (JsMap.set key (MemoryLayer.touch_entry (peek (tick clk)) e)) this),
            tick (tick clk))
  end.
Proof.
  unfold MemoryLayer.get. eff_unfold.
  destruct (JsMap.get key (MemoryLayer.cache this)) as [e|]; auto.
  destruct (expiresAt e <? peek clk)%Z; auto.
Qed.

(** [has] in closed form. *)
Lemma MemoryLayer_has_run key this clk :
  MemoryLayer.has key this clk =
  match JsMap.get key (MemoryLayer.cache this) with
  | None => (false, this, clk)
  | Some e =>
      if (expiresAt e <? peek clk)%Z
      then (false, MemoryLayer.with_cache (JsMap.delete key) this, tick clk)
      else (true, this, tick clk)
  end.
Proof.
  unfold MemoryLayer.has. eff_unfold.
  destruct (JsMap.get key (MemoryLayer.cache this)) as [e|]; auto.
  destruct (expiresAt e <? peek clk)%Z; auto.
Qed.

End MemoryLayerFacts.

(* --------------------------------------------------------------------- *)
(** ** Eviction selection                                                  *)
(* --------------------------------------------------------------------- *)

Section EvictionFacts.
Context {V : Type}.
Implicit Types (this : MemoryLayer.t V) (es : list (string * CacheEntry V)).

(** The scan with a finite bound [o] held for the candidate [k0]: either no
    entry is strictly below [o] and [k0] stays, or the result is the first
    entry whose [lastAccessed] is the smallest, and it is below [o]. *)
Lemma evictLRU_loop_bounded es : forall o k0,
  (MemoryLayer.evictLRU_loop es (Some o) (Some k0) = Some k0 /\
   Forall (fun x => (o <= lastAccessed (snd x))%Z) es) \/
  (exists k pre e post,
     MemoryLayer.evictLRU_loop es (Some o) (Some k0) = Some k /\
     es = (pre ++ (k, e) :: post)%list /\
     (lastAccessed e < o)%Z /\
     Forall (fun x => (lastAccessed e < lastAccessed (snd x))%Z) pre /\
     Forall (fun x => (lastAccessed e <= lastAccessed (snd x))%Z) post).
Proof.
  induction es as [|[k1 e1] es IH]; intros o k0; simpl.
  - left. split; [reflexivity | constructor].
  - destruct (lastAccessed e1 <? o)%Z eqn:E.
    + apply Z.ltb_lt in E.
      destruct (IH (lastAccessed e1) k1)
        as [[Hr Hall] | (k & pre & e & post & Hr & Hes & Hlt & Hpre & Hpost)].
      * right. exists k1, [], e1, es. repeat split; auto.
      * right. exists k, ((k1, e1) :: pre), e, post. subst es.
        repeat split; auto; try lia; constructor; simpl; auto; lia.
    + apply Z.ltb_ge in E.
      destruct (IH o k0)
        as [[Hr Hall] | (k & pre & e & post & Hr & Hes & Hlt & Hpre & Hpost)].
      * left. split; auto.
      * right. exists k, ((k1, e1) :: pre), e, post. subst es.
        repeat split; auto; try lia; constructor; simpl; auto; lia.
Qed.

Lemma evictLFU_loop_bounded es : forall o k0,
  (MemoryLayer.evictLFU_loop es (Some o) (Some k0) = Some k0 /\
   Forall (fun x => o <= accessCount (snd x)) es) \/
  (exists k pre e post,
     MemoryLayer.evictLFU_loop es (Some o) (Some k0) = Some k /\
     es = (pre ++ (k, e) :: post)%list /\
     accessCount e < o /\
     Forall (fun x => accessCount e < accessCount (snd x)) pre /\
     Forall (fun x => accessCount e <= accessCount (snd x)) post).
Proof.
  induction es as [|[k1 e1] es IH]; intros o k0; simpl.
  - left. split; [reflexivity | constructor].
  - destruct (accessCount e1 <? o)%nat eqn:E.
    + apply Nat.ltb_lt in E.
      destruct (IH (accessCount e1) k1)
        as [[Hr Hall] | (k & pre & e & post & Hr & Hes & Hlt & Hpre & Hpost)].
      * right. exists k1, [], e1, es. repeat split; auto.
      * right. exists k, ((k1, e1) :: pre), e, post. subst es.
        repeat split; auto; try lia; constructor; simpl; auto; lia.
    + apply Nat.ltb_ge in E.
      destruct (IH o k0)
        as [[Hr Hall] | (k & pre & e & post & Hr & Hes & Hlt & Hpre & Hpost)].
      * left. split; auto.
      * right. exists k, ((k1, e1) :: pre), e, post. subst es.
        repeat split; auto; try lia; constructor; simpl; auto; lia.
Qed.

Lemma evictLRU_first_smallest this :
  match MemoryLayer.evictLRU this with
  | None => MemoryLayer.cache this = []
  | Some k => first_smallest lastAccessed (MemoryLayer.cache this) k
  end.
Proof.
  unfold MemoryLayer.evictLRU, JsMap.entries.
  destruct (MemoryLayer.cache this) as [|[k1 e1] es]; simpl; auto.
  destruct (evictLRU_loop_bounded es (lastAccessed e1) k1)
    as [[-> Hall] | (k & pre & e & post & -> & Hes & Hlt & Hpre & Hpost)].
  - exists [], e1, es. repeat split; auto.
  - exists ((k1, e1) :: pre), e, post. subst es. repeat split; auto.
Qed.

Lemma evictLFU_first_smallest this :
  match MemoryLayer.evictLFU this with
  | None => MemoryLayer.cache this = []
  | Some k =>
      first_smallest (fun e => Z.of_nat (accessCount e)) (MemoryLayer.cache this) k
  end.
Proof.
  unfold MemoryLayer.evictLFU, JsMap.entries.
  destruct (MemoryLayer.cache this) as [|[k1 e1] es]; simpl; auto.
  destruct (evictLFU_loop_bounded es (accessCount e1) k1)
    as [[-> Hall] | (k & pre & e & post & -> & Hes & Hlt & Hpre & Hpost)].
  - exists [], e1, es. repeat split; auto.
    eapply List.Forall_impl; [|exact Hall]. simpl. intros; lia.
  - exists ((k1, e1) :: pre), e, post. subst es. repeat split; auto.
    + constructor; [simpl; lia|].
      eapply List.Forall_impl; [|exact Hpre]. simpl. intros; lia.
    + eapply List.Forall_impl; [|exact Hpost]. simpl. intros; lia.
Qed.

(** A selected key is resident. *)
Lemma first_smallest_In (f : CacheEntry V -> Z) es k :
  first_smallest f es k -> In k (JsMap.keys es).
Proof.
  intros (pre & e & post & -> & _). unfold JsMap.keys.
  rewrite map_app. apply in_or_app. right. now left.
Qed.

Lemma keyToEvict_resident this :
  match MemoryLayer.keyToEvict this with
  | None => MemoryLayer.cache this = []
  | Some k => In k (JsMap.keys (MemoryLayer.cache this))
  end.
Proof.
  unfold MemoryLayer.keyToEvict.
  pose proof (evictLRU_first_smallest this) as HR.
  pose proof (evictLFU_first_smallest this) as HF.
  destruct (type_ (MemoryLayer.invalidation this));
    [ destruct (MemoryLayer.evictLRU this)
    | destruct (MemoryLayer.evictLFU this)
    | destruct (MemoryLayer.evictLRU this)
    | destruct (MemoryLayer.evictLRU this) ];
    auto; eapply first_smallest_In; eauto.
Qed.

(** [evict] removes the key chosen, unless none is chosen or it is falsy. *)
Lemma MemoryLayer_evict_run this :
  match MemoryLayer.keyToEvict this with
  | Some k =>
      if String.eqb k ""
      then MemoryLayer.evict this = this
      else MemoryLayer.evict this = MemoryLayer.with_cache (JsMap.delete k) this
  | None => MemoryLayer.evict this = this
  end.
Proof.
  pose proof (keyToEvict_resident this) as Hres.
  unfold MemoryLayer.evict.
  destruct (MemoryLayer.keyToEvict this) as [k|] eqn:Hk.
  - destruct (JsMap.size (MemoryLayer.cache this) =? 0)%nat eqn:Hsz.
    + apply Nat.eqb_eq in Hsz. unfold JsMap.size in Hsz.
      destruct (MemoryLayer.cache this); [destruct Hres | discriminate].
    + simpl. destruct (String.eqb k ""); reflexivity.
  - destruct (JsMap.size (MemoryLayer.cache this) =? 0)%nat; reflexivity.
Qed.

End EvictionFacts.

(* --------------------------------------------------------------------- *)
(** ** Entries written and read                                            *)
(* --------------------------------------------------------------------- *)

Section MemoryEntryFacts.
Context {V : Type}.
Implicit Types (this : MemoryLayer.t V) (key tag : string) (v : V)
         (o : CacheOptions) (clk : Clock) (e : CacheEntry V).

(** After [set], the key holds the entry just built. *)
Lemma MemoryLayer_get_after_set key v o this clk :
  JsMap.get key (MemoryLayer.cache (state (MemoryLayer.set key v o this clk))) =
  Some (written_entry v o (MemoryLayer.defaultTTL this) clk).
Proof.
  rewrite MemoryLayer_set_run. unfold state. simpl.
  apply JsMap_get_set_eq.
Qed.

(** [set] changes the entry of one other key at most: the key [evict]
    selects, and only when the layer is full and the key written is new. *)
Lemma MemoryLayer_set_evicts_one key v o this clk k' :
  JsMap.wf (MemoryLayer.cache this) -> k' <> key ->
  JsMap.get k' (MemoryLayer.cache (state (MemoryLayer.set key v o this clk))) =
    JsMap.get k' (MemoryLayer.cache this) \/
  (must_evict key this = true /\
   MemoryLayer.keyToEvict this = Some k' /\
   JsMap.get k' (MemoryLayer.cache (state (MemoryLayer.set key v o this clk))) = None).
Proof.
  intros Hwf Hne. rewrite MemoryLayer_set_run. unfold state. simpl.
  rewrite JsMap_get_set_ne by congruence.
  destruct (must_evict key this); auto.
  pose proof (MemoryLayer_evict_run this) as Hev.
  destruct (MemoryLayer.keyToEvict this) as [k|]; [|rewrite Hev; auto].
  destruct (String.eqb k ""); rewrite Hev; auto. simpl.
  destruct (string_dec k k') as [->|Hk].
  - right. repeat split. now apply JsMap_get_delete_eq.
  - left. now apply JsMap_get_delete_ne.
Qed.

(** [get] never touches the entry of another key. *)
Lemma MemoryLayer_get_other key this clk k' :
  k' <> key ->
  JsMap.get k' (MemoryLayer.cache (state (MemoryLayer.get key this clk))) =
  JsMap.get k' (MemoryLayer.cache this).
Proof.
  intros Hne. rewrite MemoryLayer_get_run. unfold state.
  destruct (JsMap.get key (MemoryLayer.cache this)) as [e|]; simpl; auto.
  destruct (expiresAt e <? peek clk)%Z; simpl.
  - apply JsMap_get_delete_ne. congruence.
  - apply JsMap_get_set_ne. congruence.
Qed.

(** A read hit: the value comes back, the count goes up by one and the
    time of the read is recorded. *)
Lemma MemoryLayer_get_hit key this clk e :
  JsMap.get key (MemoryLayer.cache this) = Some e ->
  live e (peek clk) ->
  result (MemoryLayer.get key this clk) = Some (value e) /\
  JsMap.get key (MemoryLayer.cache (state (MemoryLayer.get key this clk))) =
    Some (mkEntry (value e) (expiresAt e) (createdAt e)
                  (S (accessCount e)) (peek (tick clk)) (tags e)).
Proof.
  intros Hget Hlive. rewrite MemoryLayer_get_run, Hget.
  unfold live in Hlive.
  destruct (expiresAt e <? peek clk)%Z eqn:E.
  - apply Z.ltb_lt in E. contradiction.
  - unfold result, state. simpl. split; auto.
    apply JsMap_get_set_eq.
Qed.

(** Lazy expiry in the memory layer: an entry whose [expiresAt] is in the
    past is removed by [get] and by [has], which report absence. *)
Lemma MemoryLayer_lazy_expiry key this clk e :
  JsMap.wf (MemoryLayer.cache this) ->
  JsMap.get key (MemoryLayer.cache this) = Some e ->
  (expiresAt e < peek clk)%Z ->
  result (MemoryLayer.get key this clk) = None /\
  JsMap.get key (MemoryLayer.cache (state (MemoryLayer.get key this clk))) = None /\
  result (MemoryLayer.has key this clk) = false /\
  JsMap.get key (MemoryLayer.cache (state (MemoryLayer.has key this clk))) = None.
Proof.
  intros Hwf Hget Hexp.
  rewrite MemoryLayer_get_run, MemoryLayer_has_run, Hget.
  apply Z.ltb_lt in Hexp. rewrite Hexp. unfold result, state. simpl.
  repeat split; auto; now apply JsMap_get_delete_eq.
Qed.

(** [deleteByTag]: with [kept] the entries already visited and kept. *)
Lemma JsMap_delete_app_fresh (kept es : JsMap.t (CacheEntry V)) k e :
  ~ In k (JsMap.keys kept) ->
  JsMap.delete k (kept ++ (k, e) :: es)%list = (kept ++ es)%list.
Proof.
  induction kept as [|[k1 e1] kept IH]; simpl; intros Hnotin.
  - now rewrite String.eqb_refl.
  - destruct (String.eqb k1 k) eqn:E.
    + apply String.eqb_eq in E. exfalso. auto.
    + f_equal. apply IH. tauto.
Qed.

Lemma MemoryLayer_deleteByTag_loop_filter tag (es : JsMap.t (CacheEntry V)) :
  forall (kept : JsMap.t (CacheEntry V)) n,
  JsMap.wf (kept ++ es)%list ->
  MemoryLayer.deleteByTag_loop tag es (kept ++ es)%list n =
  ((kept ++ List.filter (fun x => negb (tagged tag x)) es)%list,
   n + length (List.filter (tagged tag) es)).
Proof.
  induction es as [|[k e] es IH]; intros kept n Hwf; simpl.
  - f_equal. lia.
  - change (tagged tag (k, e)) with (tags_include tag (tags e)).
    destruct (tags_include tag (tags e)) eqn:E; simpl.
    + assert (Hfresh : ~ In k (JsMap.keys kept)).
      { unfold JsMap.wf, JsMap.keys in *. rewrite map_app in Hwf. simpl in Hwf.
        apply List.NoDup_remove_2 in Hwf. intros Hin. apply Hwf.
        apply in_or_app. now left. }
      rewrite JsMap_delete_app_fresh by exact Hfresh.
      rewrite IH.
      * f_equal. lia.
      * unfold JsMap.wf, JsMap.keys in *. rewrite map_app in *. simpl in Hwf.
        now apply List.NoDup_remove_1 in Hwf.
    + replace (kept ++ (k, e) :: es)%list with ((kept ++ [(k, e)]) ++ es)%list
        by (rewrite <- app_assoc; reflexivity).
      rewrite IH.
      * rewrite <- app_assoc. reflexivity.
      * rewrite <- app_assoc. exact Hwf.
Qed.

Lemma MemoryLayer_deleteByTag_filter tag this :
  JsMap.wf (MemoryLayer.cache this) ->
  MemoryLayer.cache (snd (MemoryLayer.deleteByTag tag this)) =
    List.filter (fun x => negb (tagged tag x)) (MemoryLayer.cache this) /\
  fst (MemoryLayer.deleteByTag tag this) =
    length (List.filter (tagged tag) (MemoryLayer.cache this)).
Proof.
  intros Hwf. unfold MemoryLayer.deleteByTag, JsMap.entries.
  pose proof (MemoryLayer_deleteByTag_loop_filter tag (MemoryLayer.cache this) [] 0 Hwf) as E.
  simpl in E. rewrite E. simpl. auto.
Qed.

End MemoryEntryFacts.

(* ===================================================================== *)
(** * Facts about [FileLayer] and [RedisLayer]                             *)
(* ===================================================================== *)

Section FileLayerFacts.
Context {V : Type}.
Implicit Types (this : FileLayer.t V) (key : string) (v : V)
         (o : CacheOptions) (clk : Clock).

(** [set] in closed form. *)
Lemma FileLayer_set_run key v o this clk :
  FileLayer.set key v o this clk =
  match FileLayer.fs this with
  | None => (tt, this, clk)
  | Some _ =>
      (tt,
       FileLayer.with_files
         (JsMap.set (FileLayer.getFilePath key)
                    (written_entry v o (FileLayer.defaultTTL this) clk)) this,
       tick (tick (tick clk)))
  end.
Proof.
  unfold FileLayer.set, written_entry. eff_unfold.
  destruct (FileLayer.fs this); reflexivity.
Qed.

(** [has] never looks at the content of the file, nor at the clock. *)
Lemma FileLayer_has_run key this clk :
  FileLayer.has key this clk =
  (match FileLayer.fs this with
   | None => false
   | Some files => JsMap.has (FileLayer.getFilePath key) files
   end, this, clk).
Proof.
  unfold FileLayer.has. eff_unfold. destruct (FileLayer.fs this); reflexivity.
Qed.

(** [get] in closed form. *)
Lemma FileLayer_get_run key this clk :
  FileLayer.get key this clk =
  match FileLayer.fs this with
  | None => (None, this, clk)
  | Some files =>
      match JsMap.get (FileLayer.getFilePath key) files with
      | None => (None, FileLayer.with_stats stats_miss this, clk)
      | Some e =>
          if (expiresAt e <? peek clk)%Z
          then (None,
                FileLayer.with_stats stats_miss (snd (FileLayer.delete key this)),
                tick clk)
          else (Some (value e), FileLayer.with_stats stats_hit this, tick clk)
      end
  end.
Proof.
  unfold FileLayer.get. eff_unfold.
  destruct (FileLayer.fs this) as [files|]; auto.
  destruct (JsMap.get (FileLayer.getFilePath key) files) as [e|]; auto.
  destruct (expiresAt e <? peek clk)%Z; auto.
Qed.

End FileLayerFacts.

Section RedisLayerFacts.
Context {V C : Type} `{RedisClient V C}.
Implicit Types (this : RedisLayer.t C) (key : string) (v : V)
         (o : CacheOptions) (clk : Clock).


End RedisLayerFacts.

(* ===================================================================== *)
(** * Facts about [Composer]                                               *)
(* ===================================================================== *)

Section ComposerFacts.
Context {V L : Type} `{CacheLayer V L}.
Implicit Types (this : Composer.t L) (key : string) (clk : Clock).

Lemma Composer_eta this :
  Composer.mk (Composer.layers this) (Composer.analytics this) (Composer.globalStats this) = this.
Proof. destruct this; reflexivity. Qed.

Lemma lookup_middle_len (pre post : list L) (l : L) i :
  length pre = i -> (pre ++ l :: post)%list !! i = Some l.
Proof. intros <-. induction pre; simpl; auto. Qed.

Lemma insert_middle_len (pre post : list L) (l l' : L) i :
  length pre = i -> <[i := l']> (pre ++ l :: post)%list = (pre ++ l' :: post)%list.
Proof. intros <-. induction pre; simpl; auto. f_equal. auto. Qed.

(** Calling a method of the layer at index [length pre]. *)
Lemma call_layer_middle {A} (m : Eff L A) (u : A) this (pre post : list L) (l : L) clk :
  Composer.layers this = (pre ++ l :: post)%list ->
  Composer.call_layer (length pre) m u this clk =
  (result (m l clk),
   Composer.mk (pre ++ state (m l clk) :: post)%list
               (Composer.analytics this) (Composer.globalStats this),
   clock (m l clk)).
Proof.
  intros E. unfold Composer.call_layer. rewrite E.
  rewrite lookup_middle_len by reflexivity.
  destruct (m l clk) as [[a l'] clk']. unfold result, state, clock. simpl.
  unfold Composer.with_layers. rewrite E.
  rewrite insert_middle_len by reflexivity. reflexivity.
Qed.

Lemma count_run (incr : GlobalStats -> GlobalStats) this clk :
  Composer.count incr this clk =
  (tt, Composer.mk (Composer.layers this) (Composer.analytics this) (counted this incr), clk).
Proof.
  unfold Composer.count, counted. eff_unfold.
  destruct (Composer.analytics this) eqn:E; simpl.
  - unfold Composer.with_globalStats. rewrite E. reflexivity.
  - rewrite <- E. now rewrite Composer_eta.
Qed.

Lemma promote_run key (v : V) (mid : list L) : forall (pre post : list L) this clk,
  Composer.layers this = (pre ++ mid ++ post)%list ->
  Composer.promote (seq (length pre) (length mid)) key v this clk =
  (tt,
   Composer.mk (pre ++ fst (plain_set_each key v mid clk) ++ post)%list
               (Composer.analytics this) (Composer.globalStats this),
   snd (plain_set_each key v mid clk)).
Proof.
  induction mid as [|l mid IH]; intros pre post this clk E; simpl.
  - simpl in E. unfold ret. rewrite <- E. now rewrite Composer_eta.
  - unfold bind. rewrite (call_layer_middle _ _ this pre (mid ++ post) l clk E).
    destruct (layer_set key v no_options l clk) as [[[] l'] clk'] eqn:Eset.
    unfold result, state, clock. simpl.
    specialize (IH (pre ++ [l'])%list post
      (Composer.mk (pre ++ l' :: mid ++ post)%list (Composer.analytics this)
                   (Composer.globalStats this)) clk').
    rewrite length_app in IH. simpl in IH.
    replace (length pre + 1) with (S (length pre)) in IH by lia.
    rewrite IH by (simpl; rewrite <- app_assoc; reflexivity).
    simpl. destruct (plain_set_each key v mid clk') as [mid' clk''].
    simpl. rewrite <- app_assoc. reflexivity.
Qed.

Lemma get_loop_run key (todo : list L) : forall (done : list L) this clk,
  Composer.layers this = (done ++ todo)%list ->
  Composer.get_loop (seq (length done) (length todo)) key this clk =
  let '(missed, hit, rest, clk1) := probe key todo clk in
  match hit with
  | Some (v, l) =>
      let '(promoted, clk2) := plain_set_each key v (done ++ missed)%list clk1 in
      (Some v,
       Composer.mk (promoted ++ l :: rest)%list (Composer.analytics this)
                   (counted this Composer.incr_hits),
       clk2)
  | None =>
      (None,
       Composer.mk (done ++ missed)%list (Composer.analytics this)
                   (counted this Composer.incr_misses),
       clk1)
  end.
Proof.
  unfold counted.
  induction todo as [|l todo IH]; intros done this clk E; simpl.
  - unfold bind. rewrite count_run. unfold ret, counted. rewrite E. reflexivity.
  - unfold bind at 1. rewrite (call_layer_middle _ _ this done todo l clk E).
    destruct (layer_get key l clk) as [[r l'] clk'] eqn:Eget.
    unfold result, state, clock. simpl.
    destruct r as [v|].
    + unfold bind. rewrite count_run. unfold counted. simpl.
      pose proof (promote_run key v done [] (l' :: todo)
        (Composer.mk (done ++ l' :: todo)%list (Composer.analytics this)
                     (if Composer.analytics this
                      then Composer.incr_hits (Composer.globalStats this)
                      else Composer.globalStats this)) clk' eq_refl) as P.
      simpl in P. rewrite P. rewrite app_nil_r.
      destruct (plain_set_each key v done clk') as [promoted clk2]. reflexivity.
    + specialize (IH (done ++ [l'])%list
        (Composer.mk (done ++ l' :: todo)%list (Composer.analytics this)
                     (Composer.globalStats this)) clk').
      rewrite length_app in IH. simpl in IH.
      replace (length done + 1) with (S (length done)) in IH by lia.
      rewrite IH by (simpl; rewrite <- app_assoc; reflexivity).
      destruct (probe key todo clk') as [[[missed hit] rest] clk1].
      rewrite <- app_assoc. simpl. reflexivity.
Qed.

(** The loops of [get] compute what the specification describes. *)
Lemma get_refines key this clk : Composer.get key this clk = get_spec key this clk.
Proof.
  exact (get_loop_run key (Composer.layers this) [] this clk eq_refl).
Qed.

(** [all_layers]: one layer at a time, in array order. *)
Lemma all_layers_cons {A} (m : Eff L A) (l : L) (ls : list L) clk :
  Composer.all_layers m (l :: ls) clk =
  (result (m l clk) :: fst (fst (Composer.all_layers m ls (clock (m l clk)))),
   state (m l clk) :: snd (fst (Composer.all_layers m ls (clock (m l clk)))),
   snd (Composer.all_layers m ls (clock (m l clk)))).
Proof.
  simpl. destruct (m l clk) as [[a l'] clk1]. unfold result, state, clock. simpl.
  destruct (Composer.all_layers m ls clk1) as [[rs ls'] clk2]. reflexivity.
Qed.

Lemma set_run key (v : V) o this clk :
  Composer.set key v o this clk =
  (tt,
   Composer.mk (snd (fst (Composer.all_layers (layer_set key v o) (Composer.layers this) clk)))
               (Composer.analytics this) (counted this Composer.incr_sets),
   snd (Composer.all_layers (layer_set key v o) (Composer.layers this) clk)).
Proof.
  unfold Composer.set, bind. rewrite count_run. simpl.
  destruct (Composer.all_layers (layer_set key v o) (Composer.layers this) clk)
    as [[rs ls] clk']. reflexivity.
Qed.

(** [delete] *)
Lemma delete_layers key this :
  Composer.layers (snd (Composer.delete key this)) =
  map (fun l => snd (layer_delete key l)) (Composer.layers this).
Proof.
  unfold Composer.delete. simpl.
  destruct (Composer.analytics this); simpl; now rewrite map_map.
Qed.

Lemma delete_result key this :
  fst (Composer.delete key this) =
  existsb (fun l => fst (layer_delete key l)) (Composer.layers this).
Proof.
  unfold Composer.delete. simpl.
  assert (E : forall ls : list L,
    existsb (fun r : bool => r) (map fst (map (layer_delete key) ls)) =
    existsb (fun l => fst (layer_delete key l)) ls).
  { induction ls as [|l ls IH]; simpl; auto. now rewrite IH. }
  destruct (Composer.analytics this); simpl; apply E.
Qed.

(** A second [delete] finds nothing when no layer does. *)
Lemma delete_twice key this :
  Forall (fun l => fst (layer_delete key (snd (layer_delete key l))) = false)
         (Composer.layers this) ->
  fst (Composer.delete key (snd (Composer.delete key this))) = false.
Proof.
  intros Hall. rewrite delete_result, delete_layers.
  induction Hall as [|l ls Hl Hall IH]; simpl; auto.
  rewrite Hl, IH. reflexivity.
Qed.

(** [deleteByTag] *)
Lemma deleteByTag_loop_sum tag (ls : list L) : forall acc,
  Composer.deleteByTag_loop tag ls acc =
  (acc + list_sum (map (deleted_by tag) ls), map (after_deleteByTag tag) ls).
Proof.
  induction ls as [|l ls IH]; intros acc; simpl.
  - f_equal. lia.
  - unfold deleted_by at 1, after_deleteByTag at 1.
    destruct (layer_deleteByTag tag l) as [[n l']|]; rewrite IH; f_equal; lia.
Qed.

(** [get] and the global counters. *)
Lemma get_counts key this clk :
  let r := Composer.get key this clk in
  Composer.analytics (state r) = Composer.analytics this /\
  Composer.globalStats (state r) =
    counted this (match result r with
                  | Some _ => Composer.incr_hits
                  | None => Composer.incr_misses
                  end).
Proof.
  simpl. rewrite get_refines. unfold get_spec.
  destruct (probe key (Composer.layers this) clk) as [[[missed hit] rest] clk1].
  destruct hit as [[v l]|].
  - destruct (plain_set_each key v missed clk1) as [promoted clk2].
    unfold state, result. simpl. auto.
  - unfold state, result. simpl. auto.
Qed.

Lemma get_each_counts (ks : list string) : forall this clk,
  let r := Composer.get_each ks this clk in
  Composer.analytics (state r) = Composer.analytics this /\
  hits (Composer.globalStats (state r)) =
    hits (Composer.globalStats this)
    + (if Composer.analytics this then present (result r) else 0) /\
  misses (Composer.globalStats (state r)) =
    misses (Composer.globalStats this)
    + (if Composer.analytics this then absent (result r) else 0).
Proof.
  induction ks as [|k ks IH]; intros this clk; simpl.
  - unfold ret, state, result, present, absent. simpl.
    destruct (Composer.analytics this); repeat split; lia.
  - unfold bind.
    pose proof (get_counts k this clk) as G. simpl in G.
    destruct (Composer.get k this clk) as [[r this1] clk1].
    unfold state, result in G. simpl in G. destruct G as [Ga Gs].
    specialize (IH this1 clk1). simpl in IH.
    destruct (Composer.get_each ks this1 clk1) as [[rs this2] clk2].
    unfold state, result, ret in *. simpl in *.
    destruct IH as (Ia & Ih & Im). rewrite Ia, Ih, Im, Ga, Gs.
    unfold counted, present, absent.
    destruct (Composer.analytics this); destruct r; simpl; repeat split; lia.
Qed.

End ComposerFacts.

(* ===================================================================== *)
(** * The capacity and the representation invariant of the memory layer   *)
(* ===================================================================== *)

Section CapacityFacts.
Context {V : Type}.
Implicit Types (this : MemoryLayer.t V) (key tag : string) (v : V)
         (o : CacheOptions) (clk : Clock).

Lemma JsMap_keys_delete_Forall (P : string -> Prop) (m : JsMap.t (CacheEntry V)) k :
  Forall P (JsMap.keys m) -> Forall P (JsMap.keys (JsMap.delete k m)).
Proof.
  intros Hall. apply List.Forall_forall. intros x Hx.
  apply JsMap_keys_delete_incl in Hx.
  now apply (proj1 (List.Forall_forall P (JsMap.keys m)) Hall).
Qed.

Lemma JsMap_keys_set_Forall (P : string -> Prop) (m : JsMap.t (CacheEntry V)) k a :
  P k -> Forall P (JsMap.keys m) -> Forall P (JsMap.keys (JsMap.set k a m)).
Proof.
  intros Hk Hall. rewrite JsMap_keys_set.
  destruct (JsMap.has k m); auto.
  apply List.Forall_app. split; auto.
Qed.

Lemma JsMap_has_delete_false (m : JsMap.t (CacheEntry V)) k k' :
  JsMap.has k m = false -> JsMap.has k (JsMap.delete k' m) = false.
Proof.
  intros Hno. destruct (JsMap.has k (JsMap.delete k' m)) eqn:E; auto.
  apply JsMap_has_keys, JsMap_keys_delete_incl, JsMap_has_keys in E. congruence.
Qed.

(** When the capacity test of [set] fires on a layer whose keys are truthy,
    [evict] removes exactly one resident entry: the one [keyToEvict] names. *)
Lemma MemoryLayer_evict_one this :
  truthy_keys this ->
  MemoryLayer.cache this <> [] ->
  exists k,
    MemoryLayer.keyToEvict this = Some k /\
    In k (JsMap.keys (MemoryLayer.cache this)) /\
    MemoryLayer.evict this = MemoryLayer.with_cache (JsMap.delete k) this /\
    S (JsMap.size (MemoryLayer.cache (MemoryLayer.evict this))) =
      JsMap.size (MemoryLayer.cache this).
Proof.
  intros Hkeys Hne.
  pose proof (keyToEvict_resident this) as Hres.
  pose proof (MemoryLayer_evict_run this) as Hev.
  destruct (MemoryLayer.keyToEvict this) as [k|]; [|contradiction].
  exists k. split; [reflexivity|]. split; [exact Hres|].
  assert (Hk : k <> "").
  { apply (proj1 (List.Forall_forall _ _) Hkeys). exact Hres. }
  apply String.eqb_neq in Hk. rewrite Hk in Hev. rewrite Hev. split; auto.
  simpl. rewrite JsMap_size_delete.
  apply JsMap_has_keys in Hres. rewrite Hres.
  unfold JsMap.size. destruct (MemoryLayer.cache this); [contradiction|reflexivity].
Qed.

(** [set] on a layer within capacity: a resident key is overwritten in
    place without eviction; a new key on a full layer evicts exactly one
    resident entry first; the layer stays within capacity. *)
Lemma MemoryLayer_set_within_capacity key v o this clk :
  (1 <= MemoryLayer.maxSize this)%Z ->
  key <> "" ->
  within_capacity this ->
  let e := written_entry v o (MemoryLayer.defaultTTL this) clk in
  let this' := state (MemoryLayer.set key v o this clk) in
  within_capacity this' /\
  MemoryLayer.maxSize this' = MemoryLayer.maxSize this /\
  (JsMap.has key (MemoryLayer.cache this) = true ->
   MemoryLayer.cache this' = JsMap.set key e (MemoryLayer.cache this) /\
   JsMap.keys (MemoryLayer.cache this') = JsMap.keys (MemoryLayer.cache this)) /\
  (must_evict key this = true ->
   exists k,
     MemoryLayer.keyToEvict this = Some k /\
     In k (JsMap.keys (MemoryLayer.cache this)) /\
     MemoryLayer.cache this' =
       JsMap.set key e (JsMap.delete k (MemoryLayer.cache this)) /\
     JsMap.size (MemoryLayer.cache this') = JsMap.size (MemoryLayer.cache this)).
Proof.
  intros Hmax Hkey [Hsize Hkeys] e this'.
  subst this'. rewrite MemoryLayer_set_run. unfold state. cbn [fst snd].
  fold e.
  destruct (must_evict key this) eqn:Hfull.
  - (* a new key on a full layer *)
    unfold must_evict in Hfull. apply andb_true_iff in Hfull as [Hge Hnew].
    apply Z.geb_le in Hge. apply negb_true_iff in Hnew.
    assert (Hne : MemoryLayer.cache this <> []).
    { intros E. rewrite E in Hge. simpl in Hge. lia. }
    destruct (MemoryLayer_evict_one this Hkeys Hne) as (k & Hk & Hin & Hev & Hsz).
    rewrite Hev in *. simpl in *.
    assert (Hsize' : JsMap.size (JsMap.set key e (JsMap.delete k (MemoryLayer.cache this)))
                     = JsMap.size (MemoryLayer.cache this)).
    { rewrite JsMap_size_set, JsMap_has_delete_false by exact Hnew. exact Hsz. }
    unfold within_capacity, truthy_keys. simpl.
    split; [split|split; [|split]].
    + rewrite Hsize'. exact Hsize.
    + apply JsMap_keys_set_Forall; auto. now apply JsMap_keys_delete_Forall.
    + reflexivity.
    + congruence.
    + intros _. exists k. auto.
  - (* no eviction *)
    simpl.
    assert (Hsize' : (Z.of_nat (JsMap.size (JsMap.set key e (MemoryLayer.cache this)))
                      <= MemoryLayer.maxSize this)%Z).
    { rewrite JsMap_size_set. unfold must_evict in Hfull.
      destruct (JsMap.has key (MemoryLayer.cache this)); auto.
      rewrite andb_true_r, Z.geb_leb in Hfull. apply Z.leb_gt in Hfull. lia. }
    unfold within_capacity, truthy_keys. simpl.
    split; [split|split; [|split]].
    + exact Hsize'.
    + apply JsMap_keys_set_Forall; auto.
    + reflexivity.
    + intros Hhas. split; [reflexivity|].
      rewrite JsMap_keys_set, Hhas. reflexivity.
    + discriminate.
Qed.

Lemma MemoryLayer_deleteByTag_loop_shrinks tag (es : JsMap.t (CacheEntry V)) :
  forall (c : JsMap.t (CacheEntry V)) n,
  JsMap.size (fst (MemoryLayer.deleteByTag_loop tag es c n)) <= JsMap.size c /\
  (forall k, In k (JsMap.keys (fst (MemoryLayer.deleteByTag_loop tag es c n))) ->
             In k (JsMap.keys c)).
Proof.
  induction es as [|[k e] es IH]; intros c n; simpl; auto.
  destruct (tags_include tag (tags e)).
  - destruct (IH (JsMap.delete k c) (S n)) as [Hs Hk]. split.
    + rewrite JsMap_size_delete in Hs. destruct (JsMap.has k c); lia.
    + intros k' Hin. eapply JsMap_keys_delete_incl; eauto.
  - apply IH.
Qed.

(** Every call keeps a layer within capacity, as long as [set] is given a
    truthy key. *)
Lemma call_within_capacity (c : Call V) this clk :
  (1 <= MemoryLayer.maxSize this)%Z ->
  stores_truthy_key c ->
  within_capacity this ->
  within_capacity (state (call c this clk)) /\
  MemoryLayer.maxSize (state (call c this clk)) = MemoryLayer.maxSize this.
Proof.
  intros Hmax Hc Hcap. pose proof Hcap as [Hsize Hkeys].
  destruct c as [key|key v o|key|key| |tag]; simpl.
  - (* get *)
    unfold bind. rewrite MemoryLayer_get_run.
    destruct (JsMap.get key (MemoryLayer.cache this)) as [e|] eqn:G.
    + assert (Hhas : JsMap.has key (MemoryLayer.cache this) = true)
        by (unfold JsMap.has; now rewrite G).
      destruct (expiresAt e <? peek clk)%Z; unfold ret, state, within_capacity, truthy_keys;
        simpl; split; auto; split.
      * rewrite JsMap_size_delete, Hhas. lia.
      * now apply JsMap_keys_delete_Forall.
      * rewrite JsMap_size_set, Hhas. exact Hsize.
      * rewrite JsMap_keys_set, Hhas. exact Hkeys.
    + unfold ret, state. simpl. split; auto.
  - (* set *)
    destruct (MemoryLayer_set_within_capacity key v o this clk Hmax Hc Hcap)
      as (H1 & H2 & _). auto.
  - (* delete *)
    unfold modify, state, within_capacity, truthy_keys. simpl. split; auto. split.
    + rewrite JsMap_size_delete. destruct (JsMap.has key (MemoryLayer.cache this)); lia.
    + now apply JsMap_keys_delete_Forall.
  - (* has *)
    unfold bind. rewrite MemoryLayer_has_run.
    destruct (JsMap.get key (MemoryLayer.cache this)) as [e|] eqn:G.
    + destruct (expiresAt e <? peek clk)%Z; unfold ret, state, within_capacity, truthy_keys;
        simpl; split; auto; split; auto.
      * rewrite JsMap_size_delete. destruct (JsMap.has key (MemoryLayer.cache this)); lia.
      * now apply JsMap_keys_delete_Forall.
    + unfold ret, state. simpl. split; auto.
  - (* clear *)
    unfold modify, state, within_capacity, truthy_keys. simpl. split; auto. split.
    + lia.
    + constructor.
  - (* deleteByTag *)
    unfold modify, state, within_capacity, truthy_keys, MemoryLayer.deleteByTag,
           JsMap.entries. simpl.
    destruct (MemoryLayer_deleteByTag_loop_shrinks tag (MemoryLayer.cache this)
                (MemoryLayer.cache this) 0) as [Hs Hk].
    destruct (MemoryLayer.deleteByTag_loop tag (MemoryLayer.cache this)
                (MemoryLayer.cache this) 0) as [c' n'].
    simpl in *. split; auto. split.
    + lia.
    + apply List.Forall_forall. intros k Hin.
      apply (proj1 (List.Forall_forall _ _) Hkeys). auto.
Qed.

(** The capacity invariant: starting from an empty layer with
    [maxSize >= 1], the number of entries never exceeds [maxSize] after any
    sequence of calls that store under truthy keys only. *)
Theorem MemoryLayer_capacity_invariant (cs : list (Call V)) :
  forall this clk,
  (1 <= MemoryLayer.maxSize this)%Z ->
  Forall stores_truthy_key cs ->
  within_capacity this ->
  (Z.of_nat (MemoryLayer.size (state (calls cs this clk)))
   <= MemoryLayer.maxSize this)%Z.
Proof.
  induction cs as [|c cs IH]; intros this clk Hmax Hcs Hcap; simpl.
  - unfold ret, state. simpl. apply Hcap.
  - inversion Hcs as [|? ? Hc Hcs']; subst.
    unfold bind.
    destruct (call_within_capacity c this clk Hmax Hc Hcap) as [Hcap' Hmax'].
    destruct (call c this clk) as [[[] this1] clk1]. unfold state in *. simpl in *.
    rewrite <- Hmax'. apply IH; auto. lia.
Qed.

End CapacityFacts.

Section WellFormed.
Context {V : Type}.
Implicit Types (this : MemoryLayer.t V) (key tag : string) (clk : Clock).

Lemma MemoryLayer_evict_wf this :
  JsMap.wf (MemoryLayer.cache this) -> JsMap.wf (MemoryLayer.cache (MemoryLayer.evict this)).
Proof.
  intros Hwf. pose proof (MemoryLayer_evict_run this) as Hev.
  destruct (MemoryLayer.keyToEvict this) as [k|].
  - destruct (String.eqb k ""); rewrite Hev; auto. simpl. now apply JsMap_wf_delete.
  - now rewrite Hev.
Qed.

(** The representation invariant holds of a new layer and is kept by every
    call. *)
Lemma call_wf (c : Call V) this clk :
  JsMap.wf (MemoryLayer.cache this) ->
  JsMap.wf (MemoryLayer.cache (state (call c this clk))).
Proof.
  intros Hwf. destruct c as [key|key v o|key|key| |tag]; simpl.
  - unfold bind. rewrite MemoryLayer_get_run.
    destruct (JsMap.get key (MemoryLayer.cache this)) as [e|]; [|exact Hwf].
    destruct (expiresAt e <? peek clk)%Z; unfold ret, state; simpl.
    + now apply JsMap_wf_delete.
    + now apply JsMap_wf_set.
  - rewrite MemoryLayer_set_run. unfold state. simpl.
    apply JsMap_wf_set. destruct (must_evict key this); auto.
    now apply MemoryLayer_evict_wf.
  - unfold modify, state. simpl. now apply JsMap_wf_delete.
  - unfold bind. rewrite MemoryLayer_has_run.
    destruct (JsMap.get key (MemoryLayer.cache this)) as [e|]; [|exact Hwf].
    destruct (expiresAt e <? peek clk)%Z; unfold ret, state; simpl; auto.
    now apply JsMap_wf_delete.
  - unfold modify, state. simpl. constructor.
  - unfold modify, state. simpl.
    destruct (MemoryLayer_deleteByTag_filter tag this Hwf) as [-> _].
    unfold JsMap.wf, JsMap.keys in *.
    induction (MemoryLayer.cache this) as [|[k e] es IH]; simpl; auto.
    inversion Hwf as [|? ? Hnotin Hwf']; subst.
    destruct (negb (tagged tag (k, e))); simpl; auto.
    constructor; auto. intros Hin. apply Hnotin.
    apply in_map_iff in Hin as [[k' e'] [Hk Hin]]. simpl in Hk. subst k'.
    apply filter_In in Hin as [Hin _]. apply in_map_iff. exists (k, e'). auto.
Qed.

Lemma calls_wf (cs : list (Call V)) : forall this clk,
  JsMap.wf (MemoryLayer.cache this) ->
  JsMap.wf (MemoryLayer.cache (state (calls cs this clk))).
Proof.
  induction cs as [|c cs IH]; intros this clk Hwf; simpl; auto.
  unfold bind. pose proof (call_wf c this clk Hwf) as Hwf'.
  destruct (call c this clk) as [[[] this1] clk1]. apply IH. exact Hwf'.
Qed.

End WellFormed.

(* ===================================================================== *)
(** * Repeated deletion and arithmetic of the hit rate                    *)
(* ===================================================================== *)

Section DeleteTwice.
Context {V : Type}.

Lemma MemoryLayer_delete_twice (this : MemoryLayer.t V) key :
  JsMap.wf (MemoryLayer.cache this) ->
  fst (MemoryLayer.delete key (snd (MemoryLayer.delete key this))) = false.
Proof.
  intros Hwf. unfold MemoryLayer.delete. simpl. unfold JsMap.has.
  now rewrite JsMap_get_delete_eq.
Qed.

Lemma FileLayer_delete_twice (this : FileLayer.t V) key :
  (forall files, FileLayer.fs this = Some files -> JsMap.wf files) ->
  fst (FileLayer.delete key (snd (FileLayer.delete key this))) = false.
Proof.
  intros Hwf. unfold FileLayer.delete.
  destruct (FileLayer.fs this) as [files|] eqn:E; simpl.
  - destruct (JsMap.has (FileLayer.getFilePath key) files) eqn:Hhas; simpl.
    + rewrite E. simpl. unfold JsMap.has.
      rewrite JsMap_get_delete_eq by (apply Hwf; reflexivity). reflexivity.
    + rewrite E, Hhas. reflexivity.
  - rewrite E. reflexivity.
Qed.

End DeleteTwice.

(* ===================================================================== *)
(** * The claims of the specification                                      *)
(* ===================================================================== *)

(** C1 (amended).  For a composer whose first layer is the memory layer
    (the memory layer is enabled, as it is by default), [set(k, v, options)]
    immediately followed by [get(k)] returns [v], provided the TTL of the
    entry the memory layer has just written has not elapsed when [get]
    reads the clock.  The entry is the one under [k] in the memory layer
    after the [set]. *)
Theorem C1_set_then_get {V R : Type} `{CacheLayer V R}
    (this : Composer.t (MemoryLayer.t V + R))
    (m : MemoryLayer.t V) (rest : list (MemoryLayer.t V + R))
    (k : string) (v : V) (o : CacheOptions) (clk : Clock)
    (Hmemory : Composer.layers this = inl m :: rest)
    (Hlive : live (written_entry v o (MemoryLayer.defaultTTL m) clk)
                  (peek (clock (Composer.set k v o this clk)))) :
  (exists m' rest',
     Composer.layers (state (Composer.set k v o this clk)) = inl m' :: rest' /\
     JsMap.get k (MemoryLayer.cache m') =
       Some (written_entry v o (MemoryLayer.defaultTTL m) clk)) /\
  result (Composer.get k (state (Composer.set k v o this clk))
                         (clock (Composer.set k v o this clk))) = Some v.
Proof.
  pose (m' := MemoryLayer.sync_size
     (MemoryLayer.with_cache
        (JsMap.set k (written_entry v o (MemoryLayer.defaultTTL m) clk))
        (if must_evict k m then MemoryLayer.evict m else m))).
  assert (Hset : layer_set k v o (inl m : MemoryLayer.t V + R) clk =
                 (tt, inl m', tick (tick (tick clk)))).
  { simpl. unfold on_left. now rewrite MemoryLayer_set_run. }
  assert (Hget : JsMap.get k (MemoryLayer.cache m') =
                 Some (written_entry v o (MemoryLayer.defaultTTL m) clk)).
  { subst m'. simpl. apply JsMap_get_set_eq. }
  revert Hlive. rewrite set_run, Hmemory, all_layers_cons, Hset.
  unfold result, state, clock. cbn [fst snd].
  destruct (Composer.all_layers (layer_set k v o) rest (tick (tick (tick clk))))
    as [[rs rest'] clkF]. cbn [fst snd]. intros Hlive.
  split.
  - exists m', rest'. auto.
  - rewrite get_refines. unfold get_spec. cbn [Composer.layers probe].
    destruct (MemoryLayer_get_hit k m' clkF _ Hget Hlive) as [Hres _].
    assert (Hl : layer_get k (inl m' : MemoryLayer.t V + R) clkF =
                 (result (MemoryLayer.get k m' clkF),
                  inl (state (MemoryLayer.get k m' clkF)),
                  clock (MemoryLayer.get k m' clkF))).
    { simpl. unfold on_left.
      destruct (MemoryLayer.get k m' clkF) as [[r m''] clk2]. reflexivity. }
    rewrite Hl, Hres. reflexivity.
Qed.

(** C1 (counterexample).  A composer built with the memory layer disabled
    and no other layer has no layer at all: [get(k)] right after
    [set(k, v)] returns [null], although no TTL elapsed (the clock stands
    still) and nothing was evicted. *)
Lemma C1_counterexample :
  let this := Scenario.composer Scenario.no_memory in
  let written := Composer.set "k" "v" no_options this (frozen 0) in
  Composer.layers this = [] /\
  result (Composer.get "k" (state written) (clock written)) = None.
Proof. vm_compute. split; reflexivity. Qed.

(** C2 (amended).  [get] probes the layers in order; on the first layer
    that returns a present value it increments the global hit counter when
    analytics is enabled, then issues a plain [set(key, value)] with no
    options to every layer above the hit, in index order, before returning
    the value; if no layer has the key it increments the global miss
    counter when analytics is enabled, and returns absent.  A plain [set]
    makes the memory layer store the value with its own default TTL and no
    tags. *)
Theorem C2_get_probes_and_promotes {V L : Type} `{CacheLayer V L}
    (this : Composer.t L) (m : MemoryLayer.t V)
    (key : string) (v : V) (clk : Clock) :
  Composer.get key this clk = get_spec key this clk /\
  Composer.globalStats (state (Composer.get key this clk)) =
    (if Composer.analytics this
     then match result (Composer.get key this clk) with
          | Some _ => Composer.incr_hits (Composer.globalStats this)
          | None => Composer.incr_misses (Composer.globalStats this)
          end
     else Composer.globalStats this) /\
  JsMap.get key (MemoryLayer.cache (state (layer_set key v no_options m clk))) =
    Some (mkEntry v (peek clk + MemoryLayer.defaultTTL m)%Z (peek (tick clk)) 0
                  (peek (tick (tick clk))) None).
Proof.
  split; [|split].
  - apply get_refines.
  - destruct (get_counts key this clk) as [_ Hg]. rewrite Hg. unfold counted.
    destruct (Composer.analytics this); [|reflexivity].
    destruct (result (Composer.get key this clk)); reflexivity.
  - simpl. rewrite MemoryLayer_get_after_set. reflexivity.
Qed.

(** C2 (counterexample).  With analytics disabled a [get] that finds the key
    in no layer returns absent and leaves the global miss counter at [0]. *)
Lemma C2_counterexample :
  let this := Scenario.composer Scenario.no_analytics in
  let r := Composer.get "k" this (frozen 0) in
  Composer.analytics this = false /\
  result r = None /\
  misses (Composer.globalStats this) = 0 /\
  misses (Composer.globalStats (state r)) = 0.
Proof. vm_compute. repeat split; reflexivity. Qed.

(** C3 (the code departs from the claim).  A memory layer with
    [maxSize = 1] that holds the key [""] is full; [set("a", ..)] runs the
    eviction, which selects [""], but [if (keyToEvict)] takes the empty
    string for "no key" and evicts nothing: the layer ends with two entries. *)
Theorem C3_empty_key_is_never_evicted :
  let first := MemoryLayer.set "" "v1" no_options (Scenario.memory 1) (frozen 0) in
  let second := MemoryLayer.set "a" "v2" no_options (state first) (frozen 0) in
  must_evict "a" (state first) = true /\
  MemoryLayer.keyToEvict (state first) = Some "" /\
  MemoryLayer.evict (state first) = state first /\
  JsMap.keys (MemoryLayer.cache (state second)) = [""; "a"] /\
  MemoryLayer.size (state second) = 2 /\
  MemoryLayer.maxSize (state second) = 1%Z.
Proof. vm_compute. repeat split; reflexivity. Qed.

(** C4.  Eviction selection.  Under the recency policy the key chosen for
    eviction is the first-found entry with the smallest [lastAccessed] among
    all resident entries; under the frequency policy it is the first-found
    entry with the smallest [accessCount]; for any policy type other than
    ['lru'] and ['lfu'] the recency rule is applied.  [evict] removes the key
    so chosen (and nothing else) from a non-empty cache, provided the key is
    a truthy string. *)
Theorem C4_eviction_selection {V : Type} (this : MemoryLayer.t V) :
  match MemoryLayer.evictLRU this with
  | None => MemoryLayer.cache this = []
  | Some k => first_smallest lastAccessed (MemoryLayer.cache this) k
  end /\
  match MemoryLayer.evictLFU this with
  | None => MemoryLayer.cache this = []
  | Some k =>
      first_smallest (fun e => Z.of_nat (accessCount e)) (MemoryLayer.cache this) k
  end /\
  MemoryLayer.keyToEvict this =
    (if match type_ (MemoryLayer.invalidation this) with LFU => true | _ => false end
     then MemoryLayer.evictLFU this
     else MemoryLayer.evictLRU this) /\
  match MemoryLayer.keyToEvict this with
  | Some k =>
      if String.eqb k ""
      then MemoryLayer.evict this = this
      else MemoryLayer.evict this = MemoryLayer.with_cache (JsMap.delete k) this
  | None => MemoryLayer.evict this = this
  end.
Proof.
  split; [apply evictLRU_first_smallest|].
  split; [apply evictLFU_first_smallest|].
  split.
  - unfold MemoryLayer.keyToEvict.
    destruct (type_ (MemoryLayer.invalidation this)); reflexivity.
  - apply MemoryLayer_evict_run.
Qed.

(** C5 (the code departs from the claim).  [FileLayer.has] answers [true]
    for a key whose entry has expired: the entry written at time [0] with
    [ttl = 1] is reported absent by [get] at time [100], yet [has], asked
    at the same time on the same layer, reports it present and leaves the
    file in place. *)
Theorem C5_file_has_ignores_expiry :
  let written :=
    FileLayer.set "k" "v" (mkOptions (Some 1%Z) None) Scenario.file (frozen 0) in
  let later := frozen 100 in
  FileLayer.fs (state written) ≫= JsMap.get (FileLayer.getFilePath "k") =
    Some (mkEntry "v" 1%Z 0%Z 0 0%Z None) /\
  result (FileLayer.get "k" (state written) later) = None /\
  result (FileLayer.has "k" (state written) later) = true /\
  state (FileLayer.has "k" (state written) later) = state written.
Proof. vm_compute. repeat split; reflexivity. Qed.

(** C6 (amended).  Bookkeeping of the entries of the memory layer.  A write
    ([set]) stores a fresh entry: [expiresAt] is the first reading of the
    clock plus the effective TTL, [createdAt] the second reading,
    [accessCount] is [0] and [lastAccessed] the third reading, so that
    [expiresAt > createdAt] holds exactly when the effective TTL exceeds the
    time between the first two readings: for a positive TTL when the two
    readings are the same, and, when the clock does not go backwards
    between them, never for a zero or negative TTL.  The entry of every
    other key is left as it was, except that of the one key [evict]
    selects, which is removed, and only when the layer is full and the key
    written is new.  A successful read hit returns the value, increments
    [accessCount] by exactly one and sets [lastAccessed] to the time of the
    read, and no read changes the entry of another key.  In the file layer
    a read hit leaves the stored entries as they are. *)
Theorem C6_entry_bookkeeping {V : Type}
    (this : MemoryLayer.t V) (f : FileLayer.t V)
    (key : string) (v : V) (o : CacheOptions) (clk : Clock)
    (Hwf : JsMap.wf (MemoryLayer.cache this)) :
  let ttl := ttl_or_default (opt_ttl o) (MemoryLayer.defaultTTL this) in
  let written := state (MemoryLayer.set key v o this clk) in
  let read := MemoryLayer.get key this clk in
  JsMap.get key (MemoryLayer.cache written) =
    Some (mkEntry v (peek clk + ttl)%Z (peek (tick clk)) 0 (peek (tick (tick clk)))
                  (opt_tags o)) /\
  (forall e, JsMap.get key (MemoryLayer.cache written) = Some e ->
     ((createdAt e < expiresAt e)%Z <-> (peek (tick clk) - peek clk < ttl)%Z) /\
     (peek (tick clk) = peek clk -> (0 < ttl)%Z -> (createdAt e < expiresAt e)%Z) /\
     ((peek clk <= peek (tick clk))%Z -> (ttl <= 0)%Z -> (expiresAt e <= createdAt e)%Z)) /\
  (forall k', k' <> key ->
     JsMap.get k' (MemoryLayer.cache written) = JsMap.get k' (MemoryLayer.cache this) \/
     (must_evict key this = true /\
      MemoryLayer.keyToEvict this = Some k' /\
      JsMap.get k' (MemoryLayer.cache written) = None)) /\
  (forall e, JsMap.get key (MemoryLayer.cache this) = Some e -> live e (peek clk) ->
     result read = Some (value e) /\
     JsMap.get key (MemoryLayer.cache (state read)) =
       Some (mkEntry (value e) (expiresAt e) (createdAt e)
                     (S (accessCount e)) (peek (tick clk)) (tags e))) /\
  (forall k', k' <> key ->
     JsMap.get k' (MemoryLayer.cache (state read)) = JsMap.get k' (MemoryLayer.cache this)) /\
  (result (FileLayer.get key f clk) <> None ->
     FileLayer.fs (state (FileLayer.get key f clk)) = FileLayer.fs f).
Proof.
  intros ttl written read.
  assert (Hw : JsMap.get key (MemoryLayer.cache written) =
               Some (written_entry v o (MemoryLayer.defaultTTL this) clk))
    by apply MemoryLayer_get_after_set.
  split; [exact Hw|]. split; [|split; [|split; [|split]]].
  - intros e He. rewrite Hw in He. injection He as <-. simpl. fold ttl. lia.
  - intros k' Hne. now apply MemoryLayer_set_evicts_one.
  - intros e He Hlive. now apply MemoryLayer_get_hit.
  - intros k' Hne. now apply MemoryLayer_get_other.
  - rewrite FileLayer_get_run.
    destruct (FileLayer.fs f) as [files|] eqn:E; [|intros _; exact E].
    destruct (JsMap.get (FileLayer.getFilePath key) files) as [e|];
      [|unfold result; simpl; congruence].
    destruct (expiresAt e <? peek clk)%Z; unfold result, state; simpl;
      [congruence | intros _; exact E].
Qed.

(** C6 (counterexample).  With [ttl = -5] the entry written at time [100]
    has [expiresAt = 95], below [createdAt = 100].  A write changes
    [lastAccessed]: the entry of ["k"] written at time [10] has
    [lastAccessed = 10]; after a second [set] of ["k"] at time [20], with no
    read in between, it has [lastAccessed = 20].  And a read hit in the file
    layer updates nothing: the entry written at time [10] and read (a hit)
    at time [20] still has [accessCount = 0] and [lastAccessed = 10]. *)
Lemma C6_counterexample :
  let negative :=
    MemoryLayer.set "k" "v" (mkOptions (Some (-5)%Z) None) (Scenario.memory 10) (frozen 100) in
  let first := MemoryLayer.set "k" "v" no_options (Scenario.memory 10) (frozen 10) in
  let second := MemoryLayer.set "k" "w" no_options (state first) (frozen 20) in
  let filed := FileLayer.set "k" "v" no_options Scenario.file (frozen 10) in
  let fileread := FileLayer.get "k" (state filed) (frozen 20) in
  JsMap.get "k" (MemoryLayer.cache (state negative)) =
    Some (mkEntry "v" 95%Z 100%Z 0 100%Z None) /\
  option_map lastAccessed (JsMap.get "k" (MemoryLayer.cache (state first))) = Some 10%Z /\
  option_map lastAccessed (JsMap.get "k" (MemoryLayer.cache (state second))) = Some 20%Z /\
  result fileread = Some "v" /\
  FileLayer.fs (state fileread) ≫= JsMap.get (FileLayer.getFilePath "k") =
    Some (mkEntry "v" 3600010%Z 10%Z 0 10%Z None).
Proof. vm_compute. repeat split; reflexivity. Qed.

(** C7.  [MemoryLayer.deleteByTag(tag)] deletes exactly the resident entries
    whose tag set contains [tag] and returns how many they were; [set] makes
    the key's tag set the one given in the options, whatever it was before;
    [Composer.deleteByTag(tag)] returns the sum of the counts of the layers
    that have a [deleteByTag] method, leaving the other layers untouched. *)
Theorem C7_delete_by_tag {V L : Type} `{CacheLayer V L}
    (this : MemoryLayer.t V) (composer : Composer.t L)
    (tag key : string) (v : V) (o : CacheOptions) (clk : Clock)
    (Hwf : JsMap.wf (MemoryLayer.cache this)) :
  MemoryLayer.cache (snd (MemoryLayer.deleteByTag tag this)) =
    List.filter (fun x => negb (tagged tag x)) (MemoryLayer.cache this) /\
  fst (MemoryLayer.deleteByTag tag this) =
    length (List.filter (tagged tag) (MemoryLayer.cache this)) /\
  option_map tags
    (JsMap.get key (MemoryLayer.cache (state (MemoryLayer.set key v o this clk)))) =
    Some (opt_tags o) /\
  fst (Composer.deleteByTag tag composer) =
    list_sum (map (deleted_by tag) (Composer.layers composer)) /\
  Composer.layers (snd (Composer.deleteByTag tag composer)) =
    map (after_deleteByTag tag) (Composer.layers composer).
Proof.
  destruct (MemoryLayer_deleteByTag_filter tag this Hwf) as [Hc Hn].
  repeat split; auto.
  - now rewrite MemoryLayer_get_after_set.
  - unfold Composer.deleteByTag. rewrite deleteByTag_loop_sum. reflexivity.
  - unfold Composer.deleteByTag. rewrite deleteByTag_loop_sum. reflexivity.
Qed.

(** C8.  [Composer.delete(key)] sends [delete] to every layer and returns
    [true] exactly when some layer reported a deletion.  When [delete] is
    repeated right away it returns [false]: this holds of every composer
    whose layers each report nothing left to delete the second time, and the
    memory layer and the file layer do so, so it holds of every composer
    made of them.  The call is total: it returns a boolean in every case. *)
Theorem C8_delete_any_and_idempotent {V L : Type} `{CacheLayer V L}
    (this : Composer.t L) (mf : Composer.t (MemoryLayer.t V + FileLayer.t V))
    (key : string) (Hwf : Forall layer_wf (Composer.layers mf)) :
  (fst (Composer.delete key this) = true <->
   exists l, In l (Composer.layers this) /\ fst (layer_delete key l) = true) /\
  Composer.layers (snd (Composer.delete key this)) =
    map (fun l => snd (layer_delete key l)) (Composer.layers this) /\
  (Forall (fun l => fst (layer_delete key (snd (layer_delete key l))) = false)
          (Composer.layers this) ->
   fst (Composer.delete key (snd (Composer.delete key this))) = false) /\
  fst (Composer.delete key (snd (Composer.delete key mf))) = false.
Proof.
  split; [|split; [|split]].
  - rewrite delete_result. rewrite existsb_exists. reflexivity.
  - apply delete_layers.
  - apply delete_twice.
  - apply delete_twice. eapply List.Forall_impl; [|exact Hwf].
    intros [m|f] Hl; simpl in Hl |- *.
    + exact (MemoryLayer_delete_twice m key Hl).
    + pose proof (FileLayer_delete_twice f key Hl) as E.
      destruct (FileLayer.delete key f) as [b f']. simpl in E |- *.
      destruct (FileLayer.delete key f') as [b' f'']. exact E.
Qed.

(** C9.  [getStats] reports [totalRequests = hits + misses] and
    [hitRate] equal to the quotient [hits / totalRequests] of the two
    numbers as doubles (the division of IEEE 754 binary64) when there were
    requests, and [0] when there were none; [hits] and [misses] are the
    global counters, to which every [get] adds one hit when it returns a
    value and one miss when it returns absent (when analytics is enabled).
    So after a run of [get]s from reset counters with [h] hits and [m]
    misses the hit rate is the double [h / (h + m)], and [0] when
    [h + m = 0]. *)
Theorem C9_hit_rate {V L : Type} `{CacheLayer V L}
    (this : Composer.t L) (ks : list string) (clk : Clock) :
  let s := Composer.getStats this in
  let total := hits (Composer.globalStats this) + misses (Composer.globalStats this) in
  (cs_hits s = hits (Composer.globalStats this) /\
   cs_misses s = misses (Composer.globalStats this) /\
   totalRequests s = total /\
   (0 < total ->
      hitRate s = PrimFloat.div (number (hits (Composer.globalStats this))) (number total)) /\
   (total = 0 -> hitRate s = PrimFloat.zero)) /\
  (let r := Composer.get_each ks this clk in
   hits (Composer.globalStats (state r)) =
     hits (Composer.globalStats this)
     + (if Composer.analytics this then present (result r) else 0) /\
   misses (Composer.globalStats (state r)) =
     misses (Composer.globalStats this)
     + (if Composer.analytics this then absent (result r) else 0)) /\
  (Composer.analytics this = true ->
   let r := Composer.get_each ks (Composer.resetStats this) clk in
   let h := present (result r) in
   let m := absent (result r) in
   totalRequests (Composer.getStats (state r)) = h + m /\
   (0 < h + m ->
      hitRate (Composer.getStats (state r)) = PrimFloat.div (number h) (number (h + m))) /\
   (h + m = 0 -> hitRate (Composer.getStats (state r)) = PrimFloat.zero)).
Proof.
  assert (Hstats : forall c : Composer.t L,
    let t := hits (Composer.globalStats c) + misses (Composer.globalStats c) in
    totalRequests (Composer.getStats c) = t /\
    (0 < t -> hitRate (Composer.getStats c)
              = PrimFloat.div (number (hits (Composer.globalStats c))) (number t)) /\
    (t = 0 -> hitRate (Composer.getStats c) = PrimFloat.zero)).
  { intros c t. unfold Composer.getStats. cbn [totalRequests hitRate]. fold t.
    repeat split.
    - intros Ht. apply Nat.ltb_lt in Ht as Hb. rewrite Hb. reflexivity.
    - intros Ht. rewrite Ht. reflexivity. }
  intros s total.
  split; [|split].
  - destruct (Hstats this) as (Ht & Hr & Hz). repeat split; auto.
  - destruct (get_each_counts ks this clk) as (_ & Hh & Hm). auto.
  - intros Ha r h m.
    destruct (get_each_counts ks (Composer.resetStats this) clk) as (_ & Hh & Hm).
    fold r in Hh, Hm. simpl in Hh, Hm. rewrite Ha in Hh, Hm.
    fold h in Hh. fold m in Hm.
    destruct (Hstats (state r)) as (Ht & Hr & Hz).
    rewrite Hh, Hm in Ht, Hr, Hz. auto.
Qed.


(* ===================================================================== *)
(** * The claims at concrete inputs                                        *)
(* ===================================================================== *)

(** C1 at the two-tier composer (memory of capacity 1 over a file layer),
    with a clock that stands still. *)
Lemma C1_witness :
  let this := Scenario.composer Scenario.two_tier in
  let written := Composer.set "k" "v" no_options this (frozen 0) in
  (exists m rest, Composer.layers this = inl m :: rest) /\
  live (written_entry "v" no_options 3600000%Z (frozen 0)) (peek (clock written)) /\
  result (Composer.get "k" (state written) (clock written)) = Some "v".
Proof.
  intros this written.
  assert (Hlive : live (written_entry "v" no_options 3600000%Z (frozen 0))
                       (peek (clock written))).
  { unfold live. vm_compute. intros H. discriminate H. }
  split; [eexists; eexists; reflexivity|]. split; [exact Hlive|].
  exact (proj2 (C1_set_then_get this (Scenario.memory 1) _ "k" "v" no_options (frozen 0)
                  eq_refl Hlive)).
Defined.

(** C6 at a layer that holds ["k"], overwritten and read at time [50]. *)
Lemma C6_witness :
  let this := state (MemoryLayer.set "k" "v" no_options (Scenario.memory 10) (frozen 10)) in
  JsMap.wf (MemoryLayer.cache this) /\
  JsMap.get "k" (MemoryLayer.cache
                   (state (MemoryLayer.get "k" this (frozen 50)))) =
    Some (mkEntry "v" 3600010%Z 10%Z 1 50%Z None).
Proof.
  intros this.
  assert (Hwf : JsMap.wf (MemoryLayer.cache this)) by concrete_wf.
  split; [exact Hwf|].
  destruct (C6_entry_bookkeeping this Scenario.file "k" "w" no_options (frozen 50) Hwf)
    as (_ & _ & _ & Hhit & _).
  refine (proj2 (Hhit (mkEntry "v" 3600010%Z 10%Z 0 10%Z None) eq_refl _)).
  unfold live. vm_compute. intros H. discriminate H.
Defined.

(** C7 on the entries of the specification's example: tags [a, b] and [b]. *)
Lemma C7_witness :
  let o1 := mkOptions None (Some ["a"; "b"]) in
  let o2 := mkOptions None (Some ["b"]) in
  let first := MemoryLayer.set "k1" "v1" o1 (Scenario.memory 10) (frozen 0) in
  let this := state (MemoryLayer.set "k2" "v2" o2 (state first) (frozen 0)) in
  JsMap.wf (MemoryLayer.cache this) /\
  fst (MemoryLayer.deleteByTag "b" this) = 2 /\
  fst (MemoryLayer.deleteByTag "a" this) = 1 /\
  JsMap.keys (MemoryLayer.cache (snd (MemoryLayer.deleteByTag "a" this))) = ["k2"].
Proof.
  intros o1 o2 first this.
  assert (Hwf : JsMap.wf (MemoryLayer.cache this)) by concrete_wf.
  split; [exact Hwf|].
  pose proof (C7_delete_by_tag this (Scenario.composer Scenario.two_tier)
                "b" "k" "v" no_options (frozen 0) Hwf) as (_ & Hb & _).
  pose proof (C7_delete_by_tag this (Scenario.composer Scenario.two_tier)
                "a" "k" "v" no_options (frozen 0) Hwf) as (Hc & Ha & _).
  split; [rewrite Hb; reflexivity|]. split; [rewrite Ha; reflexivity|].
  rewrite Hc. reflexivity.
Defined.

(** C8 at a memory layer above a file layer, after [set("k", ..)]: the
    first [delete] returns [true], the second [false]. *)
Lemma C8_witness :
  let this := state (Composer.set "k" "v" no_options Scenario.memory_over_file (frozen 0)) in
  Forall layer_wf (Composer.layers this) /\
  fst (Composer.delete "k" this) = true /\
  fst (Composer.delete "k" (snd (Composer.delete "k" this))) = false.
Proof.
  intros this.
  assert (Hwf : Forall layer_wf (Composer.layers this)).
  { repeat constructor; simpl.
    - concrete_wf.
    - intros files E. injection E as <-. concrete_wf. }
  split; [exact Hwf|]. split; [reflexivity|].
  exact (proj2 (proj2 (proj2 (C8_delete_any_and_idempotent this this "k" Hwf)))).
Defined.

(** C9 at the default composer: after [set("a", ..)] and reset counters,
    [get("a")] hits and [get("b")] misses: the hit rate is one half. *)
Lemma C9_witness :
  let this := state (Composer.set "a" "v" no_options
                       (Scenario.composer Config.empty) (frozen 0)) in
  let r := Composer.get_each ["a"; "b"] (Composer.resetStats this) (frozen 0) in
  Composer.analytics this = true /\
  result r = [Some "v"; None] /\
  totalRequests (Composer.getStats (state r)) = 2 /\
  hitRate (Composer.getStats (state r)) = 0.5%float.
Proof.
  intros this r.
  destruct (C9_hit_rate this ["a"; "b"] (frozen 0)) as (_ & _ & Hrun).
  destruct (Hrun eq_refl) as (Htotal & Hrate & _).
  split; [reflexivity|]. split; [reflexivity|]. split; [exact Htotal|].
  refine (eq_trans (Hrate _) _); [vm_compute; lia | reflexivity].
Defined.


(** The capacity invariant on the run of the specification's recency
    example: two entries at most, whatever is inserted. *)
Lemma MemoryLayer_capacity_witness :
  let cs := [CallSet "k1" "v1" no_options; CallSet "k2" "v2" no_options;
             CallGet "k1"; CallSet "k3" "v3" no_options] in
  (1 <= MemoryLayer.maxSize (Scenario.memory 2))%Z /\
  Forall stores_truthy_key cs /\
  within_capacity (Scenario.memory 2) /\
  (Z.of_nat (MemoryLayer.size (state (calls cs (Scenario.memory 2) (frozen 0)))) <= 2)%Z.
Proof.
  intros cs.
  assert (Hmax : (1 <= MemoryLayer.maxSize (Scenario.memory 2))%Z) by (simpl; lia).
  assert (Hcs : Forall stores_truthy_key cs).
  { repeat constructor; simpl; discriminate. }
  assert (Hcap : within_capacity (Scenario.memory 2)).
  { split; [simpl; lia | constructor]. }
  split; [exact Hmax|]. split; [exact Hcs|]. split; [exact Hcap|].
  exact (MemoryLayer_capacity_invariant cs (Scenario.memory 2) (frozen 0) Hmax Hcs Hcap).
Defined.

(* ===================================================================== *)
(** * The specification's examples, run on the model                       *)
(* ===================================================================== *)

(** [hashKey] on short keys and on a key whose hash wraps around 32 bits. *)
Example hashKey_examples :
  FileLayer.hashKey "a" = "2p" /\
  FileLayer.hashKey "user:123" = "4f5e65" /\
  FileLayer.hashKey "" = "0" /\
  FileLayer.hashKey "a very long key that overflows the thirty two bit range" = "uq64bv".
Proof. vm_compute. repeat split; reflexivity. Qed.

(** Recency eviction: with [maxSize = 2], inserting k1, k2, reading k1, then
    inserting k3 evicts k2. *)
Example recency_eviction_example :
  let cs := [CallSet "k1" "v1" no_options; CallSet "k2" "v2" no_options;
             CallGet "k1"; CallSet "k3" "v3" no_options] in
  let clk := mkClock (fun n => Z.of_nat n) 0 in
  MemoryLayer.keys (state (calls cs (Scenario.memory 2) clk)) = ["k1"; "k3"].
Proof. vm_compute. reflexivity. Qed.

(** Frequency eviction: k1 read three times, k2 never; inserting k3 evicts
    k2. *)
Example frequency_eviction_example :
  let cs := [CallSet "k1" "v1" no_options; CallSet "k2" "v2" no_options;
             CallGet "k1"; CallGet "k1"; CallGet "k1";
             CallSet "k3" "v3" no_options] in
  MemoryLayer.keys (state (calls cs (Scenario.memory_lfu 2) (frozen 0))) = ["k1"; "k3"].
Proof. vm_compute. reflexivity. Qed.

(** Promotion: the memory layer has capacity 1 and sits above a file layer;
    after k1 and k2 are set, k1 is only in the file layer; [get(k1)] returns
    v1 and puts it back into the memory layer. *)
Example promotion_example :
  let clk := mkClock (fun n => Z.of_nat n) 0 in
  let r1 := Composer.set "k1" "v1" no_options (Scenario.composer Scenario.two_tier) clk in
  let r2 := Composer.set "k2" "v2" no_options (state r1) (clock r1) in
  let r3 := Composer.get "k1" (state r2) (clock r2) in
  (exists m rest, Composer.layers (state r2) = inl m :: rest /\ MemoryLayer.keys m = ["k2"]) /\
  result r3 = Some "v1" /\
  (exists m rest, Composer.layers (state r3) = inl m :: rest /\ MemoryLayer.keys m = ["k1"]).
Proof.
  vm_compute. repeat split; try reflexivity; eexists; eexists; split; reflexivity.
Qed.

(** Lazy expiry of the memory layer on the entry written at time [0] with
    [ttl = 1], asked at time [100]. *)
Lemma MemoryLayer_lazy_expiry_witness :
  let this := state (MemoryLayer.set "k" "v" (mkOptions (Some 1%Z) None)
                       (Scenario.memory 10) (frozen 0)) in
  JsMap.wf (MemoryLayer.cache this) /\
  result (MemoryLayer.get "k" this (frozen 100)) = None /\
  result (MemoryLayer.has "k" this (frozen 100)) = false.
Proof.
  intros this.
  assert (Hwf : JsMap.wf (MemoryLayer.cache this)) by concrete_wf.
  split; [exact Hwf|].
  destruct (MemoryLayer_lazy_expiry "k" this (frozen 100)
              (mkEntry "v" 1%Z 0%Z 0 0%Z None) Hwf eq_refl)
    as (Hget & _ & Hhas & _).
  - vm_compute. reflexivity.
  - split; [exact Hget | exact Hhas].
Defined.

(** Tag deletion skips a layer without [deleteByTag]: both layers hold k1
    (tags a, b) and k2 (tag b); only the memory layer's two entries are
    deleted and counted. *)
Example deleteByTag_skips_example :
  let r1 := Composer.set "k1" "v1" (mkOptions None (Some ["a"; "b"]))
                         Scenario.memory_over_plain (frozen 0) in
  let r2 := Composer.set "k2" "v2" (mkOptions None (Some ["b"])) (state r1) (frozen 0) in
  let d := Composer.deleteByTag "b" (state r2) in
  fst d = 2 /\
  map (fun l => match l with
                | inl m => MemoryLayer.keys m
                | inr p => MemoryLayer.keys (plain_store p)
                end) (Composer.layers (snd d)) = [[]; ["k1"; "k2"]].
Proof. vm_compute. split; reflexivity. Qed.

(** A TTL of one millisecond with a clock that ticks between the reading
    for [expiresAt] and the reading for [createdAt]: the two are equal. *)
Example expiry_equals_creation_example :
  let this := state (MemoryLayer.set "k" "v" (mkOptions (Some 1%Z) None)
                       (Scenario.memory 10) (clock_of [0; 1; 1]%Z 1%Z)) in
  JsMap.get "k" (MemoryLayer.cache this) = Some (mkEntry "v" 1%Z 1%Z 0 1%Z None).
Proof. vm_compute. reflexivity. Qed.

(* ===================================================================== *)
(** * [hashKey] and the names of the files                                 *)
(* ===================================================================== *)

Section HashFacts.

Lemma toInt32_range z : (- 2 ^ 31 <= FileLayer.toInt32 z < 2 ^ 31)%Z.
Proof.
  unfold FileLayer.toInt32.
  pose proof (Z.mod_pos_bound (z + 2 ^ 31) (2 ^ 32) ltac:(lia)). lia.
Qed.

Lemma hash32_range key : (- 2 ^ 31 <= hash32 key < 2 ^ 31)%Z.
Proof.
  unfold hash32.
  assert (G : forall cs h, (- 2 ^ 31 <= h < 2 ^ 31)%Z ->
              (- 2 ^ 31 <= fold_left FileLayer.hash_step cs h < 2 ^ 31)%Z).
  { induction cs as [|c cs IH]; intros h Hh; simpl; auto.
    apply IH. unfold FileLayer.hash_step. apply toInt32_range. }
  apply G. lia.
Qed.

Lemma digit36_in d : In (FileLayer.digit36 d) alphabet36.
Proof.
  unfold FileLayer.digit36. fold alphabet36.
  destruct (Nat.lt_ge_cases (Z.to_nat d) (length alphabet36)) as [Hlt|Hge].
  - now apply nth_In.
  - rewrite nth_overflow by exact Hge. simpl. auto.
Qed.

Lemma place_digit36 d : (0 <= d < 36)%Z -> Z.of_nat (place (FileLayer.digit36 d) alphabet36) = d.
Proof.
  intros Hd. rewrite <- (Z2Nat.id d) at 2 by lia.
  assert (Hn : Z.to_nat d < 36) by lia.
  unfold FileLayer.digit36. generalize dependent (Z.to_nat d). clear d Hd.
  intros n Hn.
  do 36 (destruct n as [|n]; [reflexivity|]). lia.
Qed.

Lemma string_append_assoc (s1 s2 s3 : string) : (s1 ++ s2) ++ s3 = s1 ++ (s2 ++ s3).
Proof. induction s1 as [|c s1 IH]; simpl; [reflexivity | now rewrite IH]. Qed.

(** The digits are written in front of what is already there. *)
Lemma toString36_digits_app rounds : forall n acc,
  FileLayer.toString36_digits rounds n acc =
  FileLayer.toString36_digits rounds n "" ++ acc.
Proof.
  induction rounds as [|r IH]; intros n acc; simpl; auto.
  destruct (n =? 0)%Z; auto.
  rewrite IH. rewrite (IH _ (String _ "")).
  rewrite string_append_assoc. reflexivity.
Qed.

Lemma value36_app s1 : forall s2 acc,
  value36 (s1 ++ s2) acc = value36 s2 (value36 s1 acc).
Proof. induction s1 as [|c s1 IH]; intros s2 acc; simpl; auto. Qed.

Lemma value36_digits rounds : forall n,
  (0 <= n < 36 ^ Z.of_nat rounds)%Z ->
  value36 (FileLayer.toString36_digits rounds n "") 0 = n.
Proof.
  induction rounds as [|r IH]; intros n Hn.
  - simpl in *. lia.
  - simpl FileLayer.toString36_digits.
    destruct (n =? 0)%Z eqn:E.
    + apply Z.eqb_eq in E. subst. reflexivity.
    + rewrite toString36_digits_app, value36_app. cbn [value36].
      rewrite IH.
      * rewrite place_digit36 by (apply Z.mod_pos_bound; lia).
        pose proof (Z.div_mod n 36 ltac:(lia)). lia.
      * rewrite Nat2Z.inj_succ, Z.pow_succ_r in Hn by lia.
        split; [apply Z.div_pos; lia|].
        apply Z.div_lt_upper_bound; lia.
Qed.

(** Printing in base 36 and reading back gives the number: the seven rounds
    of [toString36] are enough up to [2^31]. *)
Lemma value36_toString36 n :
  (0 <= n <= 2 ^ 31)%Z -> value36 (FileLayer.toString36 n) 0 = n.
Proof.
  intros Hn. unfold FileLayer.toString36.
  destruct (n =? 0)%Z eqn:E.
  - apply Z.eqb_eq in E. subst. reflexivity.
  - apply value36_digits. simpl. lia.
Qed.

Lemma toString36_chars n :
  Forall (fun c => In c alphabet36) (list_ascii_of_string (FileLayer.toString36 n)).
Proof.
  unfold FileLayer.toString36.
  destruct (n =? 0)%Z.
  - repeat constructor.
  - assert (G : forall rounds m acc,
        Forall (fun c => In c alphabet36) (list_ascii_of_string acc) ->
        Forall (fun c => In c alphabet36)
               (list_ascii_of_string (FileLayer.toString36_digits rounds m acc))).
    { induction rounds as [|r IH]; intros m acc Hacc; simpl; auto.
      destruct (m =? 0)%Z; auto.
      apply IH. simpl. constructor; auto. apply digit36_in. }
    apply G. constructor.
Qed.

End HashFacts.

(** [hashKey]: the name is made of the digits [0-9a-z] only; two keys get
    the same name exactly when their 32-bit hashes have the same absolute
    value. *)
Theorem hashKey_names (k1 k2 : string) :
  Forall (fun c => In c alphabet36) (list_ascii_of_string (FileLayer.hashKey k1)) /\
  value36 (FileLayer.hashKey k1) 0 = Z.abs (hash32 k1) /\
  (FileLayer.hashKey k1 = FileLayer.hashKey k2 <-> Z.abs (hash32 k1) = Z.abs (hash32 k2)).
Proof.
  assert (Hv : forall k, value36 (FileLayer.hashKey k) 0 = Z.abs (hash32 k)).
  { intros k. unfold FileLayer.hashKey. fold (hash32 k).
    apply value36_toString36. pose proof (hash32_range k). lia. }
  split; [apply toString36_chars|]. split; [apply Hv|].
  split.
  - intros E. rewrite <- (Hv k1), <- (Hv k2), E. reflexivity.
  - intros E. unfold FileLayer.hashKey. fold (hash32 k1) (hash32 k2). now rewrite E.
Qed.

(* ===================================================================== *)
(** * More about [FileLayer]                                               *)
(* ===================================================================== *)

Section FileNameFacts.

Lemma string_length_append (s1 s2 : string) :
  String.length (s1 ++ s2) = String.length s1 + String.length s2.
Proof. induction s1 as [|c s1 IH]; simpl; auto. Qed.

Lemma string_append_cancel_r (s1 : string) : forall s2 s : string,
  s1 ++ s = s2 ++ s -> s1 = s2.
Proof.
  induction s1 as [|c s1 IH]; intros [|d s2] s E; simpl in E; auto.
  - apply (f_equal String.length) in E. simpl in E.
    rewrite string_length_append in E. lia.
  - apply (f_equal String.length) in E. simpl in E.
    rewrite string_length_append in E. lia.
  - injection E as -> E. f_equal. eapply IH; eauto.
Qed.

Lemma getFilePath_inj_hash k1 k2 :
  FileLayer.getFilePath k1 = FileLayer.getFilePath k2 <->
  FileLayer.hashKey k1 = FileLayer.hashKey k2.
Proof.
  unfold FileLayer.getFilePath. split.
  - apply string_append_cancel_r.
  - now intros ->.
Qed.

(** [.replace('.json', '')] gives back the digits in front of [.json]. *)
Lemma remove_json (h : string) :
  Forall (fun c => In c alphabet36) (list_ascii_of_string h) ->
  JsString.remove_first ".json" (h ++ ".json") = h.
Proof.
  induction h as [|c h IH]; intros Hall.
  - reflexivity.
  - simpl in Hall. inversion Hall as [|? ? Hc Hall']; subst.
    assert (Hdot : c <> "."%char).
    { intros ->. simpl in Hc. intuition discriminate. }
    cbn [append JsString.remove_first String.prefix].
    destruct (ascii_dec "." c) as [E|_]; [congruence|].
    now rewrite IH.
Qed.

End FileNameFacts.

Section FileLayerMoreFacts.
Context {V : Type}.
Implicit Types (this : FileLayer.t V) (key : string) (v : V)
         (o : CacheOptions) (clk : Clock).

(** [keys()] of the file layer lists the hashes of the keys it stores, not
    the keys: a directory whose files are those of the keys [ks] answers
    [map hashKey ks]. *)
Theorem FileLayer_keys_are_hashes this (files : FileLayer.Directory V) (ks : list string) :
  FileLayer.fs this = Some files ->
  JsMap.keys files = map FileLayer.getFilePath ks ->
  FileLayer.keys this = map FileLayer.hashKey ks.
Proof.
  intros Hfs Hnames. unfold FileLayer.keys. rewrite Hfs, Hnames, map_map.
  apply map_ext. intros k. unfold FileLayer.getFilePath.
  apply remove_json. unfold FileLayer.hashKey. apply toString36_chars.
Qed.

(** [get] of the file layer tells keys apart by their hash only.  When the
    directory holds the entry [e] in the file named for [k1], [get k2] for
    a key [k2] with the hash of [k1] ([k1] itself, or a key that collides
    with it) answers from that file: the value of [e], with one hit
    counted and the file left as it is, or, when [e] has expired, [null],
    with one miss counted and the file removed.  For a key with another
    hash, [get k2] leaves the file of [k1] as it is. *)
Theorem FileLayer_get_by_hash this (files : FileLayer.Directory V) k1 k2
    (e : CacheEntry V) clk :
  FileLayer.fs this = Some files ->
  JsMap.get (FileLayer.getFilePath k1) files = Some e ->
  let read := FileLayer.get k2 this clk in
  let expired := (expiresAt e <? peek clk)%Z in
  (FileLayer.hashKey k1 = FileLayer.hashKey k2 ->
   result read = (if expired then None else Some (value e)) /\
   FileLayer.stats (state read) =
     (if expired then stats_miss else stats_hit) (FileLayer.stats this) /\
   FileLayer.fs (state read) =
     Some (if expired then JsMap.delete (FileLayer.getFilePath k1) files else files)) /\
  (FileLayer.hashKey k1 <> FileLayer.hashKey k2 ->
   FileLayer.fs (state read) ≫= JsMap.get (FileLayer.getFilePath k1) = Some e).
Proof.
  intros Hfs He read expired. subst read expired.
  rewrite FileLayer_get_run, Hfs. split.
  - intros Hh. apply getFilePath_inj_hash in Hh. rewrite <- Hh, He.
    destruct (expiresAt e <? peek clk)%Z; unfold result, state; cbn [fst snd].
    + unfold FileLayer.delete. rewrite Hfs. unfold JsMap.has. rewrite <- Hh, He.
      unfold FileLayer.with_stats, FileLayer.with_files.
      cbn [FileLayer.stats FileLayer.fs]. rewrite Hfs. repeat split.
    + unfold FileLayer.with_stats. cbn [FileLayer.stats FileLayer.fs].
      rewrite Hfs. repeat split.
  - intros Hh.
    assert (Hp : FileLayer.getFilePath k2 <> FileLayer.getFilePath k1).
    { intros Hp. apply Hh. symmetry. now apply getFilePath_inj_hash. }
    destruct (JsMap.get (FileLayer.getFilePath k2) files) as [e2|] eqn:E2.
    + destruct (expiresAt e2 <? peek clk)%Z; unfold state; cbn [fst snd].
      * unfold FileLayer.delete. rewrite Hfs. unfold JsMap.has. rewrite E2.
        unfold FileLayer.with_stats, FileLayer.with_files. cbn [FileLayer.fs].
        rewrite Hfs. simpl.
        rewrite JsMap_get_delete_ne by exact Hp. exact He.
      * unfold FileLayer.with_stats. cbn [FileLayer.fs]. rewrite Hfs. exact He.
    + unfold state, FileLayer.with_stats. cbn [fst snd FileLayer.fs]. rewrite Hfs. exact He.
Qed.

(** Outside Node the file layer does nothing: every method answers "absent"
    and leaves the layer, its statistics included, as it was. *)
Theorem FileLayer_inert_without_fs this key v o tag clk :
  FileLayer.fs this = None ->
  FileLayer.set key v o this clk = (tt, this, clk) /\
  FileLayer.get key this clk = (None, this, clk) /\
  FileLayer.has key this clk = (false, this, clk) /\
  FileLayer.delete key this = (false, this) /\
  FileLayer.deleteByTag tag this = (0, this) /\
  FileLayer.keys this = [] /\
  FileLayer.size this = 0.
Proof.
  intros Hfs.
  rewrite FileLayer_set_run, FileLayer_get_run, FileLayer_has_run.
  unfold FileLayer.delete, FileLayer.deleteByTag, FileLayer.keys, FileLayer.size.
  rewrite Hfs. repeat split; reflexivity.
Qed.

Lemma FileLayer_deleteByTag_loop_filter tag (es : JsMap.t (CacheEntry V)) :
  forall (kept : JsMap.t (CacheEntry V)) n,
  JsMap.wf (kept ++ es)%list ->
  FileLayer.deleteByTag_loop tag es (kept ++ es)%list n =
  ((kept ++ List.filter (fun x => negb (tagged tag x)) es)%list,
   n + length (List.filter (tagged tag) es)).
Proof.
  induction es as [|[k e] es IH]; intros kept n Hwf; simpl.
  - f_equal. lia.
  - change (tagged tag (k, e)) with (tags_include tag (tags e)).
    destruct (tags_include tag (tags e)) eqn:E; simpl.
    + assert (Hfresh : ~ In k (JsMap.keys kept)).
      { unfold JsMap.wf, JsMap.keys in *. rewrite map_app in Hwf. simpl in Hwf.
        apply List.NoDup_remove_2 in Hwf. intros Hin. apply Hwf.
        apply in_or_app. now left. }
      rewrite JsMap_delete_app_fresh by exact Hfresh.
      rewrite IH.
      * f_equal. lia.
      * unfold JsMap.wf, JsMap.keys in *. rewrite map_app in *. simpl in Hwf.
        now apply List.NoDup_remove_1 in Hwf.
    + replace (kept ++ (k, e) :: es)%list with ((kept ++ [(k, e)]) ++ es)%list
        by (rewrite <- app_assoc; reflexivity).
      rewrite IH.
      * rewrite <- app_assoc. reflexivity.
      * rewrite <- app_assoc. exact Hwf.
Qed.

(** [deleteByTag] of the file layer removes exactly the files whose entry
    carries the tag, expired or not, and returns how many they were. *)
Theorem FileLayer_deleteByTag_filter tag this (files : FileLayer.Directory V) :
  FileLayer.fs this = Some files ->
  JsMap.wf files ->
  FileLayer.deleteByTag tag this =
  (length (List.filter (tagged tag) files),
   FileLayer.with_files (fun _ => List.filter (fun x => negb (tagged tag x)) files) this).
Proof.
  intros Hfs Hwf. unfold FileLayer.deleteByTag, JsMap.entries. rewrite Hfs.
  pose proof (FileLayer_deleteByTag_loop_filter tag files [] 0 Hwf) as E.
  simpl in E. rewrite E. reflexivity.
Qed.

End FileLayerMoreFacts.

(* ===================================================================== *)
(** * More about [MemoryLayer]                                             *)
(* ===================================================================== *)

Section MemoryLayerMoreFacts.
Context {V : Type}.
Implicit Types (this : MemoryLayer.t V) (key tag : string) (v : V)
         (o : CacheOptions) (clk : Clock).

(** [set] then [get] in the memory layer: the value comes back as long as
    the clock read by [get] is not past [expiresAt], the reading equal to
    [expiresAt] included, and never after. *)
Theorem MemoryLayer_set_then_get this key v o clk clk' :
  result (MemoryLayer.get key (state (MemoryLayer.set key v o this clk)) clk') =
  if (peek clk + ttl_or_default (opt_ttl o) (MemoryLayer.defaultTTL this) <? peek clk')%Z
  then None else Some v.
Proof.
  rewrite MemoryLayer_get_run, MemoryLayer_get_after_set.
  unfold written_entry. cbn [expiresAt value].
  destruct (_ <? peek clk')%Z; reflexivity.
Qed.


Lemma JsMap_keys_delete (k : string) (m : JsMap.t (CacheEntry V)) :
  JsMap.wf m ->
  forall k', In k' (JsMap.keys (JsMap.delete k m)) <-> In k' (JsMap.keys m) /\ k' <> k.
Proof.
  intros Hwf k'. split.
  - intros Hin. split; [eapply JsMap_keys_delete_incl; eauto|].
    intros ->. apply JsMap_has_keys in Hin. unfold JsMap.has in Hin.
    rewrite JsMap_get_delete_eq in Hin by exact Hwf. discriminate.
  - intros [Hin Hne]. apply JsMap_has_keys. apply JsMap_has_keys in Hin.
    unfold JsMap.has in *. rewrite JsMap_get_delete_ne by congruence. exact Hin.
Qed.

(** [delete] returns [true] exactly when the key was resident (expired or
    not); afterwards [get] and [has] report the key absent whatever the
    clock reads, and the other keys have the entries they had. *)
Theorem MemoryLayer_delete_removes this key clk :
  JsMap.wf (MemoryLayer.cache this) ->
  let deleted := snd (MemoryLayer.delete key this) in
  (fst (MemoryLayer.delete key this) = true <-> In key (MemoryLayer.keys this)) /\
  result (MemoryLayer.get key deleted clk) = None /\
  result (MemoryLayer.has key deleted clk) = false /\
  (forall k', k' <> key ->
     JsMap.get k' (MemoryLayer.cache deleted) = JsMap.get k' (MemoryLayer.cache this)) /\
  ls_size (MemoryLayer.getStats deleted) = MemoryLayer.size deleted.
Proof.
  intros Hwf deleted. subst deleted. unfold MemoryLayer.delete. cbn [fst snd].
  split; [apply JsMap_has_keys|].
  rewrite MemoryLayer_get_run, MemoryLayer_has_run. simpl.
  rewrite JsMap_get_delete_eq by exact Hwf. unfold result. simpl.
  repeat split; auto.
  intros k' Hne. apply JsMap_get_delete_ne. congruence.
Qed.

(** What the statistics of the memory layer count. *)
Lemma call_stats (c : Call V) this clk :
  let this' := state (call c this clk) in
  ls_hits (MemoryLayer.stats this') + ls_misses (MemoryLayer.stats this') =
    ls_hits (MemoryLayer.stats this) + ls_misses (MemoryLayer.stats this)
    + count_gets [c] /\
  (JsMap.size (MemoryLayer.cache this) <= ls_size (MemoryLayer.stats this) ->
   JsMap.size (MemoryLayer.cache this') <= ls_size (MemoryLayer.stats this')) /\
  (match c with
   | CallGet _ | CallHas _ => True
   | _ => ls_size (MemoryLayer.stats this') = JsMap.size (MemoryLayer.cache this')
   end).
Proof.
  destruct c as [key|key v o|key|key| |tag]; simpl.
  - unfold bind. rewrite MemoryLayer_get_run.
    destruct (JsMap.get key (MemoryLayer.cache this)) as [e|] eqn:G.
    + assert (Hhas : JsMap.has key (MemoryLayer.cache this) = true)
        by (unfold JsMap.has; now rewrite G).
      destruct (expiresAt e <? peek clk)%Z; unfold ret, state, count_gets; simpl;
        repeat split; try lia.
      * rewrite JsMap_size_delete, Hhas. lia.
      * rewrite JsMap_size_set, Hhas. lia.
    + unfold ret, state, count_gets. simpl. repeat split; lia.
  - rewrite MemoryLayer_set_run. unfold state, count_gets. simpl.
    destruct (must_evict key this).
    + destruct (MemoryLayer_evict_fields this) as (_ & _ & _ & ->).
      repeat split; lia.
    + repeat split; lia.
  - unfold modify, state, count_gets. simpl. repeat split; lia.
  - unfold bind. rewrite MemoryLayer_has_run.
    destruct (JsMap.get key (MemoryLayer.cache this)) as [e|] eqn:G.
    + destruct (expiresAt e <? peek clk)%Z; unfold ret, state, count_gets; simpl;
        repeat split; try lia.
      rewrite JsMap_size_delete. destruct (JsMap.has key (MemoryLayer.cache this)); lia.
    + unfold ret, state, count_gets. simpl. repeat split; lia.
  - unfold modify, state, count_gets. simpl. repeat split; lia.
  - unfold modify, state, count_gets, MemoryLayer.deleteByTag. simpl.
    destruct (MemoryLayer.deleteByTag_loop tag (JsMap.entries (MemoryLayer.cache this))
                (MemoryLayer.cache this) 0) as [c' n']. simpl.
    repeat split; lia.
Qed.

(** Statistics of the memory layer over any sequence of calls: every [get]
    is counted once, as a hit or as a miss, and nothing else is counted;
    the size reported never falls below the number of entries (it is stale
    after a lazy expiry, which does not update it). *)
Theorem MemoryLayer_stats_invariant (cs : list (Call V)) : forall this clk,
  let this' := state (calls cs this clk) in
  ls_hits (MemoryLayer.getStats this') + ls_misses (MemoryLayer.getStats this') =
    ls_hits (MemoryLayer.getStats this) + ls_misses (MemoryLayer.getStats this)
    + count_gets cs /\
  (MemoryLayer.size this <= ls_size (MemoryLayer.getStats this) ->
   MemoryLayer.size this' <= ls_size (MemoryLayer.getStats this')).
Proof.
  unfold MemoryLayer.getStats, MemoryLayer.size.
  induction cs as [|c cs IH]; intros this clk; simpl.
  - unfold ret, state, count_gets. simpl. split; [lia|auto].
  - unfold bind.
    destruct (call_stats c this clk) as (Hc & Hs & _).
    destruct (call c this clk) as [[[] this1] clk1]. unfold state in Hc, Hs. simpl in Hc, Hs.
    destruct (IH this1 clk1) as [IHc IHs].
    split.
    + rewrite IHc, Hc. unfold count_gets. simpl.
      destruct c; simpl; lia.
    + intros H0. apply IHs, Hs, H0.
Qed.

End MemoryLayerMoreFacts.

(** The window of latency samples: after any number of samples recorded
    from an empty window, [accessTimes] holds the last 100 of them, oldest
    first. *)
Theorem recordAccessTime_window {T : Type} (samples : list T) :
  fold_left (fun window time => recordAccessTime time window) samples [] =
  skipn (length samples - 100) samples.
Proof.
  induction samples as [|t xs IH] using rev_ind; [reflexivity|].
  rewrite fold_left_app. simpl. rewrite IH. unfold recordAccessTime.
  rewrite !length_app, length_skipn. simpl.
  destruct (Nat.lt_ge_cases (length xs) 100) as [Hlt|Hge].
  - replace (length xs - 100) with 0 by lia.
    replace (length xs + 1 - 100) with 0 by lia. simpl.
    destruct (100 <? length xs - 0 + 1)%nat eqn:E; [|reflexivity].
    apply Nat.ltb_lt in E. lia.
  - destruct (100 <? length xs - (length xs - 100) + 1)%nat eqn:E.
    + replace (length xs + 1 - 100) with (S (length xs - 100)) by lia.
      rewrite List.skipn_app.
      replace (S (length xs - 100) - length xs) with 0 by lia. simpl skipn at 3.
      assert (Hne : exists y ys, skipn (length xs - 100) xs = y :: ys).
      { destruct (skipn (length xs - 100) xs) as [|y ys] eqn:Es.
        - apply (f_equal (@length T)) in Es. rewrite length_skipn in Es. simpl in Es. lia.
        - eauto. }
      destruct Hne as (y & ys & Es). rewrite Es. simpl.
      f_equal. change (S (length xs - 100)) with (1 + (length xs - 100)).
      rewrite <- List.skipn_skipn, Es. reflexivity.
    + apply Nat.ltb_ge in E. lia.
Qed.

(* ===================================================================== *)
(** * The composer with the memory layer first                             *)
(* ===================================================================== *)

Section MemoryFirstFacts.
Context {V R : Type} `{CacheLayer V R}.
Implicit Types (this : Composer.t (MemoryLayer.t V + R)) (m : MemoryLayer.t V)
         (rest : list (MemoryLayer.t V + R)) (key : string) (clk : Clock).

(** The methods of a memory layer inside a heterogeneous array. *)
Lemma layer_get_inl key m clk :
  layer_get key (inl m : MemoryLayer.t V + R) clk =
  (result (MemoryLayer.get key m clk), inl (state (MemoryLayer.get key m clk)),
   clock (MemoryLayer.get key m clk)).
Proof.
  simpl. unfold on_left. destruct (MemoryLayer.get key m clk) as [[r m'] clk']. reflexivity.
Qed.

Lemma layer_set_inl key (v : V) o m clk :
  layer_set key v o (inl m : MemoryLayer.t V + R) clk =
  (tt, inl (state (MemoryLayer.set key v o m clk)), tick (tick (tick clk))).
Proof.
  simpl. unfold on_left. rewrite MemoryLayer_set_run. reflexivity.
Qed.

Lemma layer_has_inl key m clk :
  layer_has key (inl m : MemoryLayer.t V + R) clk =
  (result (MemoryLayer.has key m clk), inl (state (MemoryLayer.has key m clk)),
   clock (MemoryLayer.has key m clk)).
Proof.
  simpl. unfold on_left. destruct (MemoryLayer.has key m clk) as [[r m'] clk']. reflexivity.
Qed.

(** [get] with the key live in the memory layer at index 0: a hit there,
    and no other layer is asked. *)
Lemma get_hit_memory_first this m rest key clk (e : CacheEntry V) :
  Composer.layers this = inl m :: rest ->
  JsMap.get key (MemoryLayer.cache m) = Some e ->
  live e (peek clk) ->
  Composer.get key this clk =
  (Some (value e),
   Composer.mk (inl (state (MemoryLayer.get key m clk)) :: rest)
               (Composer.analytics this) (counted this Composer.incr_hits),
   tick (tick clk)).
Proof.
  intros Hl Hget Hlive. rewrite get_refines. unfold get_spec. rewrite Hl.
  cbn [probe]. rewrite layer_get_inl.
  rewrite MemoryLayer_get_run, Hget. unfold live in Hlive.
  destruct (expiresAt e <? peek clk)%Z eqn:E; [apply Z.ltb_lt in E; contradiction|].
  reflexivity.
Qed.

(** A [get] that finds nothing leaves the memory layer first, with its
    default TTL. *)
Lemma get_miss_memory_first this m rest key clk :
  Composer.layers this = inl m :: rest ->
  result (Composer.get key this clk) = None ->
  exists m' rest',
    Composer.layers (state (Composer.get key this clk)) = inl m' :: rest' /\
    MemoryLayer.defaultTTL m' = MemoryLayer.defaultTTL m /\
    Composer.analytics (state (Composer.get key this clk)) = Composer.analytics this.
Proof.
  intros Hl. rewrite get_refines. unfold get_spec. rewrite Hl.
  cbn [probe]. rewrite layer_get_inl.
  assert (Hd : MemoryLayer.defaultTTL (state (MemoryLayer.get key m clk)) =
               MemoryLayer.defaultTTL m).
  { rewrite MemoryLayer_get_run.
    destruct (JsMap.get key (MemoryLayer.cache m)) as [e|]; [|reflexivity].
    destruct (expiresAt e <? peek clk)%Z; reflexivity. }
  destruct (result (MemoryLayer.get key m clk)) as [v|].
  - unfold result. simpl. discriminate.
  - destruct (probe key rest (clock (MemoryLayer.get key m clk)))
      as [[[missed hit] rest'] clk1].
    destruct hit as [[v l]|].
    + destruct (plain_set_each key v (inl (state (MemoryLayer.get key m clk)) :: missed) clk1)
        as [promoted clk2]. unfold result. simpl. discriminate.
    + intros _. unfold state. simpl. eauto.
Qed.

(** [set] then [get] with the memory layer first. *)
Lemma set_then_get_memory_first this m rest key (v : V) o clk :
  Composer.layers this = inl m :: rest ->
  live (written_entry v o (MemoryLayer.defaultTTL m) clk)
       (peek (clock (Composer.set key v o this clk))) ->
  result (Composer.get key (state (Composer.set key v o this clk))
                       (clock (Composer.set key v o this clk))) = Some v.
Proof.
  intros Hl. rewrite set_run, Hl, all_layers_cons, layer_set_inl.
  pose proof (MemoryLayer_get_after_set key v o m clk) as Hget.
  set (m1 := state (MemoryLayer.set key v o m clk)) in *.
  cbn [result state clock fst snd].
  destruct (Composer.all_layers (layer_set key v o) rest (tick (tick (tick clk))))
    as [[rs rest'] clkF]. cbn [fst snd]. intros Hlive.
  rewrite (get_hit_memory_first
             (Composer.mk (inl m1 :: rest') (Composer.analytics this)
                          (counted this Composer.incr_sets))
             m1 rest' key clkF _ eq_refl Hget Hlive).
  reflexivity.
Qed.

End MemoryFirstFacts.

Section ComposerMoreFacts.
Context {V R : Type} `{CacheLayer V R}.
Implicit Types (this : Composer.t (MemoryLayer.t V + R)) (m : MemoryLayer.t V)
         (rest : list (MemoryLayer.t V + R)) (key : string) (clk : Clock).

(** [getOrSet] with the memory layer first, for values other than [null]
    (the values of [V]).  On a hit the cached value is returned and nothing
    else happens, whatever the loader.  On a miss a loader that rejects
    makes [getOrSet] reject with nothing stored.  On a miss a loader that
    yields a value [v] other than [null] makes [getOrSet] store and return
    [v], and a second [getOrSet] of the key returns [v] whatever its loader,
    as long as the TTL of the stored entry has not elapsed. *)
Theorem Composer_getOrSet_caches this m rest key (loader : option V) o clk :
  Composer.layers this = inl m :: rest ->
  let found := Composer.get key this clk in
  let first := Composer.getOrSet key loader o this clk in
  (forall c, result found = Some c -> first = (Some c, state found, clock found)) /\
  (result found = None -> loader = None -> first = (None, state found, clock found)) /\
  (forall v, result found = None -> loader = Some v ->
     first = (Some v, state (Composer.set key v o (state found) (clock found)),
              clock (Composer.set key v o (state found) (clock found))) /\
     forall loader' o',
       live (written_entry v o (MemoryLayer.defaultTTL m) (clock found))
            (peek (clock first)) ->
       result (Composer.getOrSet key loader' o' (state first) (clock first)) = Some v).
Proof.
  intros Hl found first. subst first found. unfold Composer.getOrSet, bind.
  destruct (Composer.get key this clk) as [[r this1] clk1] eqn:Ef.
  unfold result, state, clock. cbn [fst snd].
  split; [|split].
  - intros c ->. reflexivity.
  - intros -> ->. reflexivity.
  - intros v -> ->.
    destruct (Composer.set key v o this1 clk1) as [[[] this2] clk2] eqn:Es.
    unfold ret. cbn [fst snd]. split; [reflexivity|].
    intros loader' o' Hlive.
    assert (Hmiss : result (Composer.get key this clk) = None) by (rewrite Ef; reflexivity).
    destruct (get_miss_memory_first this m rest key clk Hl Hmiss) as (m1 & rest1 & Hl1 & Hd & _).
    rewrite Ef in Hl1. unfold state in Hl1. cbn [fst snd] in Hl1.
    pose proof (set_then_get_memory_first this1 m1 rest1 key v o clk1 Hl1) as G.
    rewrite Es, Hd in G. unfold result, state, clock in G. cbn [fst snd] in G.
    specialize (G Hlive).
    destruct (Composer.get key this2 clk2) as [[r2 this3] clk3].
    cbn [fst snd] in G. subst r2. reflexivity.
Qed.

(** [touch] with the key live in the memory layer at index 0 under a value
    other than [null] (a value of [V]): it returns [true] and the memory
    layer then holds the value in a fresh entry that expires [ttl] (or the
    default TTL, when [ttl] is falsy) after the clock is read again, with
    no tags and an access count of [0]. *)
Theorem Composer_touch_rewrites this m rest key (ttl : option Z) clk (e : CacheEntry V) :
  Composer.layers this = inl m :: rest ->
  JsMap.get key (MemoryLayer.cache m) = Some e ->
  live e (peek clk) ->
  let touched := Composer.touch key ttl this clk in
  let now := tick (tick clk) in
  result touched = true /\
  exists m' rest',
    Composer.layers (state touched) = inl m' :: rest' /\
    JsMap.get key (MemoryLayer.cache m') =
      Some (mkEntry (value e)
                    (peek now + ttl_or_default ttl (MemoryLayer.defaultTTL m))%Z
                    (peek (tick now)) 0 (peek (tick (tick now))) None).
Proof.
  intros Hl Hget Hlive touched now. subst touched.
  unfold Composer.touch, bind.
  rewrite (get_hit_memory_first this m rest key clk e Hl Hget Hlive).
  rewrite set_run. cbn [Composer.layers]. rewrite all_layers_cons, layer_set_inl.
  assert (Hd : MemoryLayer.defaultTTL (state (MemoryLayer.get key m clk)) =
               MemoryLayer.defaultTTL m).
  { rewrite MemoryLayer_get_run, Hget. destruct (expiresAt e <? peek clk)%Z; reflexivity. }
  pose proof (MemoryLayer_get_after_set key (value e) (mkOptions ttl None)
                (state (MemoryLayer.get key m clk)) (tick (tick clk))) as Hw.
  rewrite Hd in Hw.
  set (m1 := state (MemoryLayer.set key (value e) (mkOptions ttl None)
                      (state (MemoryLayer.get key m clk)) (tick (tick clk)))) in *.
  cbn [result state clock fst snd].
  destruct (Composer.all_layers (layer_set key (value e) (mkOptions ttl None)) rest
              (tick (tick (tick (tick (tick clk)))))) as [[rs rest'] clkF].
  cbn [fst snd ret Composer.layers]. split; [reflexivity|].
  exists m1, rest'. split; [reflexivity|]. exact Hw.
Qed.

(** [touch] of a key no layer has returns [false] and writes nothing: the
    composer is left as the failed [get] left it. *)
Theorem Composer_touch_absent this key (ttl : option Z) clk :
  result (Composer.get key this clk) = None ->
  Composer.touch key ttl this clk =
  (false, state (Composer.get key this clk), clock (Composer.get key this clk)).
Proof.
  intros Hmiss. unfold Composer.touch, bind.
  destruct (Composer.get key this clk) as [[r this1] clk1].
  unfold result in Hmiss. cbn [fst snd] in Hmiss. subst r. reflexivity.
Qed.

(** [ttl] never reports a remaining time: with the key live in the memory
    layer at index 0 it answers [-1] for a truthy value and [null] for a
    falsy one, and it is an access of that layer (the access count of the
    entry goes up) that the global counters do not see. *)
Theorem Composer_ttl_is_a_read this m rest key (truthy : V -> bool) clk (e : CacheEntry V) :
  Composer.layers this = inl m :: rest ->
  JsMap.get key (MemoryLayer.cache m) = Some e ->
  live e (peek clk) ->
  let asked := Composer.ttl truthy key this clk in
  result asked = (if truthy (value e) then Some (-1)%Z else None) /\
  Composer.globalStats (state asked) = Composer.globalStats this /\
  Composer.layers (state asked) = inl (state (MemoryLayer.get key m clk)) :: rest /\
  option_map accessCount
    (JsMap.get key (MemoryLayer.cache (state (MemoryLayer.get key m clk)))) =
    Some (S (accessCount e)).
Proof.
  intros Hl Hget Hlive asked. subst asked.
  unfold Composer.ttl. rewrite Hl. cbn [lookup list_lookup].
  unfold bind, Composer.call_layer. rewrite Hl. cbn [lookup list_lookup].
  rewrite layer_get_inl.
  destruct (MemoryLayer_get_hit key m clk e Hget Hlive) as [Hres Hafter].
  rewrite Hres, Hafter. unfold Composer.with_layers. rewrite Hl.
  cbn [insert list_insert]. unfold result, state, ret.
  destruct (truthy (value e)); cbn [fst snd Composer.globalStats Composer.layers];
    repeat split; reflexivity.
Qed.

(** [has] does not promote and counts nothing: when the memory layer at
    index 0 does not hold the key, it is left exactly as it was even when a
    lower layer reports the key, and the global counters do not move. *)
Theorem Composer_has_does_not_promote this m rest key clk :
  Composer.layers this = inl m :: rest ->
  JsMap.get key (MemoryLayer.cache m) = None ->
  let asked := Composer.has key this clk in
  result asked = fst (fst (Composer.has_loop key rest clk)) /\
  Composer.layers (state asked) = inl m :: snd (fst (Composer.has_loop key rest clk)) /\
  Composer.globalStats (state asked) = Composer.globalStats this.
Proof.
  intros Hl Hget asked. subst asked. unfold Composer.has. rewrite Hl.
  cbn [Composer.has_loop]. rewrite layer_has_inl, MemoryLayer_has_run, Hget.
  cbn [result state clock fst snd].
  destruct (Composer.has_loop key rest clk) as [[r ls] clk1].
  repeat split; reflexivity.
Qed.

(** [set] reaches every layer: the array keeps its length, and every memory
    layer in it, at whatever index, then holds the value under the key. *)
Theorem Composer_set_reaches_every_layer this key (v : V) o clk :
  let written := state (Composer.set key v o this clk) in
  length (Composer.layers written) = length (Composer.layers this) /\
  forall i m, Composer.layers this !! i = Some (inl m) ->
    exists m', Composer.layers written !! i = Some (inl m') /\
               option_map value (JsMap.get key (MemoryLayer.cache m')) = Some v.
Proof.
  intros written. subst written. rewrite set_run. unfold state. cbn [fst snd Composer.layers].
  generalize (Composer.layers this) clk. clear this clk.
  induction l as [|l ls IH]; intros clk.
  - split; [reflexivity|]. intros i m Hi. destruct i; discriminate.
  - rewrite all_layers_cons. cbn [fst snd].
    destruct (IH (clock (layer_set key v o l clk))) as [Hlen Hall].
    split; [cbn [length]; f_equal; exact Hlen|].
    intros [|i] m Hi.
    + simpl in Hi. injection Hi as ->. rewrite layer_set_inl.
      exists (state (MemoryLayer.set key v o m clk)). split; [reflexivity|].
      now rewrite MemoryLayer_get_after_set.
    + simpl in Hi. apply Hall in Hi. exact Hi.
Qed.

End ComposerMoreFacts.

(* ===================================================================== *)
(** * [keys] and [invalidatePattern]                                       *)
(* ===================================================================== *)

Section JsSetFacts.

Lemma existsb_eqb_In (x : string) (xs : list string) :
  existsb (String.eqb x) xs = true <-> In x xs.
Proof.
  rewrite existsb_exists. split.
  - intros (y & Hy & E). apply String.eqb_eq in E. now subst.
  - intros Hx. exists x. split; [assumption|apply String.eqb_refl].
Qed.

Lemma JsSet_add_In (x y : string) (set : list string) :
  In y (JsSet.add x set) <-> y = x \/ In y set.
Proof.
  unfold JsSet.add. destruct (existsb (String.eqb x) set) eqn:E.
  - apply existsb_eqb_In in E. split; [auto|]. intros [->|]; assumption.
  - rewrite in_app_iff. simpl. intuition.
Qed.

Lemma JsSet_add_NoDup (x : string) (set : list string) :
  List.NoDup set -> List.NoDup (JsSet.add x set).
Proof.
  intros Hnd. unfold JsSet.add. destruct (existsb (String.eqb x) set) eqn:E; [assumption|].
  assert (Hx : ~ In x set).
  { intros Hin. apply existsb_eqb_In in Hin. congruence. }
  apply List.NoDup_app; [assumption| |].
  - constructor; [intros []|constructor].
  - intros y Hy [<-|[]]. contradiction.
Qed.

Lemma JsSet_fold_add (xs set : list string) :
  List.NoDup set ->
  List.NoDup (fold_left (fun set x => JsSet.add x set) xs set) /\
  forall y, In y (fold_left (fun set x => JsSet.add x set) xs set) <-> In y xs \/ In y set.
Proof.
  revert set. induction xs as [|x xs IH]; intros set Hnd; simpl.
  - split; [assumption|]. intuition.
  - destruct (IH (JsSet.add x set) (JsSet_add_NoDup x set Hnd)) as [Hnd' Hin].
    split; [assumption|]. intros y. rewrite Hin, JsSet_add_In. intuition.
Qed.

(** [[...new Set(xs)]] holds every element of [xs], once. *)
Lemma JsSet_of_array_spec (xs : list string) :
  List.NoDup (JsSet.of_array xs) /\ forall y, In y (JsSet.of_array xs) <-> In y xs.
Proof.
  unfold JsSet.of_array.
  destruct (JsSet_fold_add xs [] (List.NoDup_nil _)) as [Hnd Hin].
  split; [assumption|]. intros y. rewrite Hin. simpl. intuition.
Qed.

End JsSetFacts.

Section JsMapDeleteFacts.
Context {A : Type}.
Implicit Types (m : JsMap.t A) (k : string).

Lemma filter_keeps_all (f : string * A -> bool) (m : JsMap.t A) :
  (forall p, In p m -> f p = true) -> List.filter f m = m.
Proof.
  induction m as [|p m IH]; intros Hall; simpl; [reflexivity|].
  rewrite (Hall p (or_introl eq_refl)). f_equal. apply IH.
  intros q Hq. apply Hall. now right.
Qed.

(** On a map that holds each key once, [delete] is a filter. *)
Lemma JsMap_delete_filter k m :
  JsMap.wf m ->
  JsMap.delete k m = List.filter (fun p => negb (String.eqb (fst p) k)) m.
Proof.
  unfold JsMap.wf, JsMap.keys.
  induction m as [|[k' a] m IH]; intros Hwf; simpl; [reflexivity|].
  inversion Hwf as [|? ? Hnotin Hnd]; subst.
  destruct (String.eqb k' k) eqn:E; simpl.
  - apply String.eqb_eq in E. subst k'. symmetry. apply filter_keeps_all.
    intros [k1 a1] Hin. simpl. apply negb_true_iff, String.eqb_neq.
    intros ->. apply Hnotin. apply in_map_iff. now exists (k, a1).
  - f_equal. now apply IH.
Qed.

Lemma JsMap_wf_filter (f : string * A -> bool) m :
  JsMap.wf m -> JsMap.wf (List.filter f m).
Proof.
  unfold JsMap.wf, JsMap.keys.
  induction m as [|[k a] m IH]; intros Hwf; simpl; [assumption|].
  inversion Hwf as [|? ? Hnotin Hnd]; subst.
  destruct (f (k, a)); simpl; [|now apply IH].
  constructor; [|now apply IH].
  intros Hin. apply Hnotin. apply in_map_iff in Hin as ([k1 a1] & E & Hin).
  apply List.filter_In in Hin as [Hin _]. apply in_map_iff. now exists (k1, a1).
Qed.

Lemma filter_filter (f g : string * A -> bool) (m : JsMap.t A) :
  List.filter f (List.filter g m) = List.filter (fun p => g p && f p) m.
Proof.
  induction m as [|p m IH]; simpl; [reflexivity|].
  destruct (g p); simpl; [destruct (f p)|]; now rewrite IH.
Qed.

(** Deleting a list of keys keeps the entries under the other keys. *)
Lemma JsMap_delete_all ks m :
  JsMap.wf m ->
  fold_left (fun c k => JsMap.delete k c) ks m =
  List.filter (fun p => negb (existsb (String.eqb (fst p)) ks)) m.
Proof.
  revert m. induction ks as [|k ks IH]; intros m Hwf; simpl.
  - symmetry. now apply filter_keeps_all.
  - rewrite (JsMap_delete_filter k m Hwf).
    rewrite IH by now apply JsMap_wf_filter.
    rewrite filter_filter. apply List.filter_ext. intros p.
    now rewrite negb_orb.
Qed.

End JsMapDeleteFacts.

Section KeysFacts.
Context {V L : Type} `{CacheLayer V L} `{CacheLayerKeys L}.

Lemma all_keys_run (ls : list L) :
  Composer.all_keys ls =
  (map (fun l => fst (layer_keys l)) ls, map (fun l => snd (layer_keys l)) ls).
Proof.
  induction ls as [|l ls IH]; simpl; [reflexivity|].
  rewrite IH. destruct (layer_keys l). reflexivity.
Qed.

Lemma keys_run (this : Composer.t L) :
  Composer.keys this =
  (JsSet.of_array (concat (map (fun l => fst (layer_keys l)) (Composer.layers this))),
   Composer.with_layers (fun _ => map (fun l => snd (layer_keys l)) (Composer.layers this))
                        this).
Proof. unfold Composer.keys. rewrite all_keys_run. reflexivity. Qed.

Lemma keys_complete (this : Composer.t L) (l : L) (k : string) :
  In l (Composer.layers this) -> In k (fst (layer_keys l)) ->
  In k (fst (Composer.keys this)).
Proof.
  intros Hl Hk. rewrite keys_run. cbn [fst].
  apply JsSet_of_array_spec, in_concat.
  exists (fst (layer_keys l)). split; [|assumption].
  apply in_map_iff. eauto.
Qed.

(** [keys] is the union of the layers' key lists: a key is listed exactly
    when some layer lists it, and it is listed once. *)
Theorem Composer_keys_union (this : Composer.t L) :
  List.NoDup (fst (Composer.keys this)) /\
  forall k, In k (fst (Composer.keys this)) <->
            exists l, In l (Composer.layers this) /\ In k (fst (layer_keys l)).
Proof.
  rewrite keys_run. cbn [fst].
  destruct (JsSet_of_array_spec
              (concat (map (fun l => fst (layer_keys l)) (Composer.layers this))))
    as [Hnd Hin].
  split; [assumption|]. intros k. rewrite Hin, in_concat. split.
  - intros (ks & Hks & Hk). apply in_map_iff in Hks as (l & <- & Hl). eauto.
  - intros (l & Hl & Hk). exists (fst (layer_keys l)). split; [|assumption].
    apply in_map_iff. eauto.
Qed.

Lemma fold_delete_layers (ks : list string) (this : Composer.t L) :
  Composer.layers (fold_left (fun c key => snd (Composer.delete key c)) ks this) =
  map (fun l => fold_left (fun l key => snd (layer_delete key l)) ks l)
      (Composer.layers this).
Proof.
  revert this. induction ks as [|k ks IH]; intros this; cbn [fold_left].
  - now rewrite map_id.
  - rewrite IH, delete_layers, map_map. reflexivity.
Qed.

Lemma fold_delete_stats (ks : list string) (this : Composer.t L) :
  let after := fold_left (fun c key => snd (Composer.delete key c)) ks this in
  Composer.analytics after = Composer.analytics this /\
  deletes (Composer.globalStats after) =
    deletes (Composer.globalStats this) + (if Composer.analytics this then length ks else 0) /\
  hits (Composer.globalStats after) = hits (Composer.globalStats this) /\
  misses (Composer.globalStats after) = misses (Composer.globalStats this) /\
  sets (Composer.globalStats after) = sets (Composer.globalStats this).
Proof.
  revert this. induction ks as [|k ks IH]; intros this after; subst after; cbn [fold_left].
  - repeat split; auto. destruct (Composer.analytics this); simpl; lia.
  - destruct (IH (snd (Composer.delete k this))) as (Ha & Hd & Hh & Hm & Hs).
    rewrite Ha, Hd, Hh, Hm, Hs. unfold Composer.delete. cbn [snd].
    destruct (Composer.analytics this) eqn:E; simpl; rewrite ?E; repeat split; auto; lia.
Qed.

End KeysFacts.

Section InvalidatePatternFacts.
Context {V R : Type} `{CacheLayer V R} `{CacheLayerKeys R}.
Implicit Types (this : Composer.t (MemoryLayer.t V + R)) (m : MemoryLayer.t V).

Lemma fold_delete_inl (ks : list string) m :
  exists m',
    fold_left (fun (l : MemoryLayer.t V + R) key => snd (layer_delete key l)) ks (inl m) =
      inl m' /\
    MemoryLayer.cache m' = fold_left (fun c k => JsMap.delete k c) ks (MemoryLayer.cache m).
Proof.
  revert m. induction ks as [|k ks IH]; intros m; simpl.
  - eauto.
  - destruct (IH (MemoryLayer.sync_size (MemoryLayer.with_cache (JsMap.delete k) m)))
      as (m' & E & Hc).
    exists m'. split; [exact E|]. rewrite Hc. reflexivity.
Qed.

(** With a pattern whose [test] leaves the RegExp object as it is, the keys
    that match are those [test] answers [true] for. *)
Lemma filter_test_stateless {P : Type} (test : string -> P -> bool * P)
    (pattern : P) (matches : string -> bool) (ks : list string) :
  (forall key, test key pattern = (matches key, pattern)) ->
  Composer.filter_test test ks pattern = (List.filter matches ks, pattern).
Proof.
  intros Htest. induction ks as [|k ks IH]; cbn [Composer.filter_test List.filter].
  - reflexivity.
  - rewrite Htest, IH. destruct (matches k); reflexivity.
Qed.

(** [invalidatePattern] with a pattern whose [test] leaves the RegExp
    object as it is (no [g] and no [y] flag), [matches key] being what
    [test] answers for [key]: it returns the number of keys of [keys()]
    that match, counts one delete for each of them, and leaves in a memory
    layer, at whatever index, exactly the entries whose key does not
    match. *)
Theorem Composer_invalidatePattern_memory {P : Type} this
    (test : string -> P -> bool * P) (pattern : P) (matches : string -> bool) i m :
  (forall key, test key pattern = (matches key, pattern)) ->
  Composer.layers this !! i = Some (inl m) ->
  JsMap.wf (MemoryLayer.cache m) ->
  let done := Composer.invalidatePattern test pattern this in
  fst (fst done) = length (List.filter matches (fst (Composer.keys this))) /\
  snd done = pattern /\
  deletes (Composer.globalStats (snd (fst done))) =
    deletes (Composer.globalStats this) +
    (if Composer.analytics this then fst (fst done) else 0) /\
  exists m',
    Composer.layers (snd (fst done)) !! i = Some (inl m') /\
    MemoryLayer.cache m' =
      List.filter (fun p => negb (matches (fst p))) (MemoryLayer.cache m).
Proof.
  intros Htest Hi Hwf done. subst done. unfold Composer.invalidatePattern.
  pose proof (keys_complete this) as Hin.
  rewrite keys_run in *. cbn [fst snd] in *.
  set (allKeys := JsSet.of_array _) in *.
  set (this1 := Composer.with_layers _ this).
  rewrite (filter_test_stateless test pattern matches allKeys Htest). cbn [fst snd].
  split; [reflexivity|]. split; [reflexivity|]. split.
  - destruct (fold_delete_stats (List.filter matches allKeys) this1) as (_ & Hd & _).
    rewrite Hd. reflexivity.
  - rewrite fold_delete_layers. subst this1. cbn [Composer.layers Composer.with_layers].
    rewrite list_lookup_fmap, list_lookup_fmap, Hi. cbn [fmap option_fmap option_map].
    cbn [layer_keys sum_CacheLayerKeys MemoryLayer_CacheLayerKeys snd].
    destruct (fold_delete_inl (List.filter matches allKeys) m) as (m' & E & Hc).
    exists m'. split; [now rewrite E|].
    rewrite Hc, (JsMap_delete_all _ _ Hwf).
    apply List.filter_ext_in. intros [k e] Hk. cbn [fst]. f_equal.
    assert (Hall : In k allKeys).
    { apply (Hin (inl m)).
      - apply list_elem_of_In. eapply list_elem_of_lookup_2, Hi.
      - cbn. apply in_map_iff. now exists (k, e). }
    destruct (matches k) eqn:Ep.
    + apply existsb_eqb_In. apply List.filter_In. auto.
    + apply not_true_iff_false. intros Hex. apply existsb_eqb_In in Hex.
      apply List.filter_In in Hex as [_ Hex]. congruence.
Qed.

End InvalidatePatternFacts.

(* ===================================================================== *)
(** * [clear] and the constructor                                          *)
(* ===================================================================== *)

Section ClearFacts.
Context {V : Type}.
Implicit Types (ls : list (MemoryLayer.t V + FileLayer.t V)) (key : string) (clk : Clock).

Lemma layer_get_cleared key (l : MemoryLayer.t V + FileLayer.t V) clk :
  result (layer_get key (layer_clear l) clk) = None.
Proof.
  destruct l as [m|f]; simpl; unfold on_left, on_right.
  - rewrite MemoryLayer_get_run. reflexivity.
  - rewrite FileLayer_get_run. unfold FileLayer.clear, FileLayer.with_files. simpl.
    destruct (FileLayer.fs f); reflexivity.
Qed.

Lemma layer_has_cleared key (l : MemoryLayer.t V + FileLayer.t V) clk :
  result (layer_has key (layer_clear l) clk) = false.
Proof.
  destruct l as [m|f]; simpl; unfold on_left, on_right.
  - rewrite MemoryLayer_has_run. reflexivity.
  - rewrite FileLayer_has_run. unfold FileLayer.clear, FileLayer.with_files. simpl.
    destruct (FileLayer.fs f); reflexivity.
Qed.

Lemma layer_keys_cleared (l : MemoryLayer.t V + FileLayer.t V) :
  fst (layer_keys (layer_clear l)) = [].
Proof.
  destruct l as [m|f]; simpl; [reflexivity|].
  unfold FileLayer.keys, FileLayer.clear, FileLayer.with_files. simpl.
  destruct (FileLayer.fs f); reflexivity.
Qed.

Lemma probe_cleared key ls clk :
  snd (fst (fst (probe key (map layer_clear ls) clk))) = None.
Proof.
  revert clk. induction ls as [|l ls IH]; intros clk; cbn [map probe]; [reflexivity|].
  pose proof (layer_get_cleared key l clk) as Hg.
  destruct (layer_get key (layer_clear l) clk) as [[r l'] clk1].
  unfold result in Hg. cbn [fst] in Hg. subst r.
  specialize (IH clk1).
  destruct (probe key (map layer_clear ls) clk1) as [[[missed hit] rest] clk2].
  cbn [fst snd] in *. exact IH.
Qed.

Lemma has_loop_cleared key ls clk :
  fst (fst (Composer.has_loop key (map layer_clear ls) clk)) = false.
Proof.
  revert clk. induction ls as [|l ls IH]; intros clk; cbn [map Composer.has_loop];
    [reflexivity|].
  pose proof (layer_has_cleared key l clk) as Hg.
  destruct (layer_has key (layer_clear l) clk) as [[r l'] clk1].
  unfold result in Hg. cbn [fst] in Hg. subst r.
  specialize (IH clk1).
  destruct (Composer.has_loop key (map layer_clear ls) clk1) as [[r ls'] clk2].
  cbn [fst snd] in *. exact IH.
Qed.

Lemma all_keys_cleared ls :
  concat (fst (Composer.all_keys (map layer_clear ls))) = [].
Proof.
  induction ls as [|l ls IH]; [reflexivity|].
  cbn [map Composer.all_keys].
  pose proof (layer_keys_cleared l) as Hk.
  destruct (layer_keys (layer_clear l)) as [ks l'].
  destruct (Composer.all_keys (map layer_clear ls)) as [kss ls'].
  cbn [fst] in *. subst ks. exact IH.
Qed.

(** After [clear], a composer of memory and file layers holds nothing:
    every [get] misses, every [has] answers [false] and [keys] is empty,
    whatever the clock.  The global counters are not reset. *)
Theorem Composer_clear_empties (this : Composer.t (MemoryLayer.t V + FileLayer.t V)) key clk :
  let cleared := Composer.clear this in
  result (Composer.get key cleared clk) = None /\
  result (Composer.has key cleared clk) = false /\
  fst (Composer.keys cleared) = [] /\
  length (Composer.layers cleared) = length (Composer.layers this) /\
  Composer.globalStats cleared = Composer.globalStats this.
Proof.
  intros cleared. subst cleared. unfold Composer.clear, Composer.with_layers.
  split; [|split; [|split; [|split]]].
  - rewrite get_refines. unfold get_spec. cbn [Composer.layers].
    pose proof (probe_cleared key (Composer.layers this) clk) as Hp.
    destruct (probe key (map layer_clear (Composer.layers this)) clk)
      as [[[missed hit] rest] clk1].
    cbn [fst snd] in Hp. subst hit. reflexivity.
  - unfold Composer.has. cbn [Composer.layers].
    pose proof (has_loop_cleared key (Composer.layers this) clk) as Hp.
    destruct (Composer.has_loop key (map layer_clear (Composer.layers this)) clk)
      as [[r ls'] clk1].
    cbn [fst] in Hp. subst r. reflexivity.
  - unfold Composer.keys. cbn [Composer.layers].
    pose proof (all_keys_cleared (Composer.layers this)) as Hk.
    destruct (Composer.all_keys (map layer_clear (Composer.layers this))) as [kss ls'].
    cbn [fst] in *. rewrite Hk. reflexivity.
  - cbn [Composer.layers]. apply length_map.
  - reflexivity.
Qed.

End ClearFacts.

Section ConstructorFacts.
Context {V C : Type} `{RedisClient V C}.

Lemma num_or_configured (x : option Z) (d : Z) : configured_or x d (num_or x d).
Proof.
  unfold configured_or, num_or. split.
  - intros n -> Hn. apply Z.eqb_neq in Hn. now rewrite Hn.
  - intros [->| ->]; reflexivity.
Qed.

(** The constructor builds at most one layer of each class, in the order
    memory, Redis, file.  The memory layer is left out exactly when
    [memory.enabled] is [false]; the Redis layer is there exactly when
    [redis.enabled] is [true] and a client is given; the file layer exactly
    when [file.enabled] is [true].  Every layer starts with its statistics
    at zero and with the configured TTL, or [3600000] when none or [0] is
    configured.  The memory layer starts empty, with the configured
    capacity, or [1000] when none or [0] is configured, and with the
    configured policy, or LRU.  The Redis layer has the client given and
    the prefix [cache:].  The file layer has the directory configured, or
    [.cache] when none or the empty name is configured. *)
Theorem initializeLayers_shape (config : Config.t C)
    (node_fs : string -> option (FileLayer.Directory V)) :
  let mem := Config.memory config in
  let red := Config.redis config in
  let fil := Config.file config in
  exists (ms : list (MemoryLayer.t V)) (rs : list (RedisLayer.t C))
         (fs : list (FileLayer.t V)),
    initializeLayers config node_fs =
      (map inl ms ++ map (fun r => inr (inl r)) rs ++ map (fun f => inr (inr f)) fs)%list /\
    length ms <= 1 /\ length rs <= 1 /\ length fs <= 1 /\
    (ms = [] <-> mem ≫= Config.mem_enabled = Some false) /\
    (rs <> [] <-> red ≫= Config.redis_enabled = Some true /\
                  red ≫= Config.redis_client <> None) /\
    (fs <> [] <-> fil ≫= Config.file_enabled = Some true) /\
    Forall (fun m => MemoryLayer.cache m = JsMap.empty /\
                     MemoryLayer.stats m = stats_zero /\
                     configured_or (mem ≫= Config.mem_maxSize) 1000 (MemoryLayer.maxSize m) /\
                     configured_or (mem ≫= Config.mem_ttl) 3600000
                                   (MemoryLayer.defaultTTL m) /\
                     (forall st, mem ≫= Config.mem_invalidation = Some st ->
                                 MemoryLayer.invalidation m = st) /\
                     (mem ≫= Config.mem_invalidation = None ->
                      MemoryLayer.invalidation m = mkStrategy LRU)) ms /\
    Forall (fun r => RedisLayer.stats r = stats_zero /\
                     red ≫= Config.redis_client = Some (RedisLayer.client r) /\
                     RedisLayer.prefix r = "cache:" /\
                     configured_or (red ≫= Config.redis_ttl) 3600000
                                   (RedisLayer.defaultTTL r)) rs /\
    Forall (fun f => FileLayer.stats f = stats_zero /\
                     configured_or (fil ≫= Config.file_ttl) 3600000
                                   (FileLayer.defaultTTL f) /\
                     (forall d, fil ≫= Config.file_directory = Some d -> d <> "" ->
                                FileLayer.directory f = d) /\
                     (fil ≫= Config.file_directory = None \/
                      fil ≫= Config.file_directory = Some "" ->
                      FileLayer.directory f = ".cache") /\
                     FileLayer.fs f = node_fs (FileLayer.directory f)) fs.
Proof.
  intros mem red fil. subst mem red fil. unfold initializeLayers.
  set (memL := match Config.memory config with
               | Some (Config.mkMemory (Some false) _ _ _) => _ | _ => _ end).
  set (redL := match Config.redis config with
               | Some (Config.mkRedis (Some true) (Some _) _) => _ | _ => _ end).
  set (filL := match Config.file config with
               | Some (Config.mkFile (Some true) _ _) => _ | _ => _ end).
  assert (Hm : exists ms : list (MemoryLayer.t V),
             memL = map inl ms /\
             length ms <= 1 /\
             (ms = [] <-> Config.memory config ≫= Config.mem_enabled = Some false) /\
             Forall (fun m => MemoryLayer.cache m = JsMap.empty /\
                     MemoryLayer.stats m = stats_zero /\
                     configured_or (Config.memory config ≫= Config.mem_maxSize) 1000 (MemoryLayer.maxSize m) /\
                     configured_or (Config.memory config ≫= Config.mem_ttl) 3600000
                                   (MemoryLayer.defaultTTL m) /\
                     (forall st, Config.memory config ≫= Config.mem_invalidation = Some st ->
                                 MemoryLayer.invalidation m = st) /\
                     (Config.memory config ≫= Config.mem_invalidation = None ->
                      MemoryLayer.invalidation m = mkStrategy LRU)) ms).
  { assert (G : forall mc : option Config.MemoryConfig,
              let m : MemoryLayer.t V :=
                MemoryLayer.new (num_or (mc ≫= Config.mem_maxSize) 1000)
                                (num_or (mc ≫= Config.mem_ttl) 3600000)
                                (default (mkStrategy LRU) (mc ≫= Config.mem_invalidation)) in
              MemoryLayer.cache m = JsMap.empty /\ MemoryLayer.stats m = stats_zero /\
              configured_or (mc ≫= Config.mem_maxSize) 1000 (MemoryLayer.maxSize m) /\
              configured_or (mc ≫= Config.mem_ttl) 3600000 (MemoryLayer.defaultTTL m) /\
              (forall st, mc ≫= Config.mem_invalidation = Some st ->
                          MemoryLayer.invalidation m = st) /\
              (mc ≫= Config.mem_invalidation = None ->
               MemoryLayer.invalidation m = mkStrategy LRU)).
    { intros mc m. subst m. cbn [MemoryLayer.new MemoryLayer.cache MemoryLayer.stats
        MemoryLayer.maxSize MemoryLayer.defaultTTL MemoryLayer.invalidation].
      split; [reflexivity|]. split; [reflexivity|].
      split; [apply num_or_configured|]. split; [apply num_or_configured|].
      split; [intros st ->; reflexivity | intros ->; reflexivity]. }
    subst memL. destruct (Config.memory config) as [[[[|]|] mx tt inv]|] eqn:E.
    2: { exists []. repeat split; auto. }
    all: eexists [_]; split; [reflexivity|]; split; [simpl; lia|];
         split; [split; [discriminate|simpl; discriminate]|];
         constructor; [|constructor].
    all: match goal with |- context [MemoryLayer.new _ _ (default _ (?mc ≫= _))] =>
           exact (G mc) end. }
  assert (Hr : exists rs : list (RedisLayer.t C),
             redL = map (fun r => inr (inl r)) rs /\
             length rs <= 1 /\
             (rs <> [] <-> Config.redis config ≫= Config.redis_enabled = Some true /\
                           Config.redis config ≫= Config.redis_client <> None) /\
             Forall (fun r => RedisLayer.stats r = stats_zero /\
                     Config.redis config ≫= Config.redis_client = Some (RedisLayer.client r) /\
                     RedisLayer.prefix r = "cache:" /\
                     configured_or (Config.redis config ≫= Config.redis_ttl) 3600000
                                   (RedisLayer.defaultTTL r)) rs).
  { subst redL. destruct (Config.redis config) as [[[[|]|] [client|] tt]|].
    1: { eexists [_]. split; [reflexivity|]. split; [simpl; lia|].
         split; [split; [intros _; split; simpl; discriminate || reflexivity
                        | intros _; discriminate]|].
         constructor; [|constructor]. simpl. repeat split; apply num_or_configured. }
    all: exists []; split; [reflexivity|]; split; [simpl; lia|];
         split; [|constructor];
         split; [intros Hne; now contradiction Hne | simpl; intros [He Hc]; congruence]. }
  assert (Hf : exists fs : list (FileLayer.t V),
             filL = map (fun f => inr (inr f)) fs /\
             length fs <= 1 /\
             (fs <> [] <-> Config.file config ≫= Config.file_enabled = Some true) /\
             Forall (fun f => FileLayer.stats f = stats_zero /\
                     configured_or (Config.file config ≫= Config.file_ttl) 3600000
                                   (FileLayer.defaultTTL f) /\
                     (forall d, Config.file config ≫= Config.file_directory = Some d -> d <> "" ->
                                FileLayer.directory f = d) /\
                     (Config.file config ≫= Config.file_directory = None \/
                      Config.file config ≫= Config.file_directory = Some "" ->
                      FileLayer.directory f = ".cache") /\
                     FileLayer.fs f = node_fs (FileLayer.directory f)) fs).
  { subst filL. destruct (Config.file config) as [[[[|]|] dir tt]|].
    1: { eexists [_]. split; [reflexivity|]. split; [simpl; lia|].
         split; [split; [reflexivity | intros _; discriminate]|].
         constructor; [|constructor]. simpl.
         split; [reflexivity|]. split; [apply num_or_configured|].
         split; [|split; [|reflexivity]].
         - intros d -> Hd. apply String.eqb_neq in Hd. now rewrite Hd.
         - intros [->| ->]; reflexivity. }
    all: exists []; split; [reflexivity|]; split; [simpl; lia|];
         split; [|constructor];
         split; [intros Hne; now contradiction Hne | simpl; discriminate]. }
  destruct Hm as (ms & -> & Hlm & Hen & Hms).
  destruct Hr as (rs & -> & Hlr & Hre & Hrs).
  destruct Hf as (fs & -> & Hlf & Hfe & Hfs).
  exists ms, rs, fs.
  split; [reflexivity|]. split; [exact Hlm|]. split; [exact Hlr|]. split; [exact Hlf|].
  split; [exact Hen|]. split; [exact Hre|]. split; [exact Hfe|].
  split; [exact Hms|]. split; [exact Hrs | exact Hfs].
Qed.

End ConstructorFacts.

(* ===================================================================== *)
(** * [keys] of the Redis layer                                            *)
(* ===================================================================== *)

Section RedisKeysFacts.
Context {V C : Type} `{RedisClient V C}.

Lemma prefix_append (p s : string) : String.prefix p (p ++ s) = true.
Proof.
  induction p as [|c p IH]; simpl; [now destruct s|].
  destruct (Ascii.ascii_dec c c); [exact IH|contradiction].
Qed.

Lemma drop_append (p s : string) : JsString.drop (String.length p) (p ++ s) = s.
Proof. induction p as [|c p IH]; simpl; [now destruct s|exact IH]. Qed.

(** Removing [p] from [p ++ s] gives [s] back. *)
Lemma remove_first_append (p s : string) : JsString.remove_first p (p ++ s) = s.
Proof.
  destruct p as [|c p].
  - simpl. destruct s; reflexivity.
  - cbn [JsString.remove_first append]. 
    change (String c (p ++ s)) with (String c p ++ s).
    rewrite prefix_append. apply drop_append.
Qed.

(** [keys] undoes [getKey]: when the client lists the names [getKey] gives
    to [ks], [keys] returns [ks] and [size] their number, whatever
    characters the keys and the prefix are made of. *)
Theorem RedisLayer_keys_strip_prefix (this : RedisLayer.t C) (ks : list string) (c : C) :
  client_keys (RedisLayer.prefix this ++ "*") (RedisLayer.client this) =
    (Some (map (RedisLayer.getKey this) ks), c) ->
  fst (RedisLayer.keys this) = ks /\
  fst (RedisLayer.size this) = length ks.
Proof.
  intros Hreply. unfold RedisLayer.keys, RedisLayer.size. rewrite Hreply. cbn [fst].
  split; [|apply length_map].
  rewrite map_map. rewrite <- (map_id ks) at 2. apply map_ext.
  intros k. unfold RedisLayer.getKey. apply remove_first_append.
Qed.

End RedisKeysFacts.

(** A Redis layer whose client lists [cache:user:1] and [cache:post:1]. *)
Lemma RedisLayer_keys_witness :
  let this := RedisLayer.mk ["cache:user:1"; "cache:post:1"] stats_zero 3600000 "cache:" in
  fst (RedisLayer.keys (V := string) this) = ["user:1"; "post:1"] /\
  fst (RedisLayer.size (V := string) this) = 2.
Proof.
  intros this.
  exact (RedisLayer_keys_strip_prefix (V := string) this ["user:1"; "post:1"] _ eq_refl).
Defined.

(* ===================================================================== *)
(** * The further properties on concrete inputs                            *)
(* ===================================================================== *)

(** The file layer lists the hash of ["user:123"], not the key. *)
Lemma FileLayer_keys_witness :
  let this := state (FileLayer.set "user:123" "v" no_options Scenario.file (frozen 0)) in
  FileLayer.keys this = ["4f5e65"] /\
  result (FileLayer.get "4f5e65" this (frozen 0)) = None.
Proof.
  intros this. split; [|reflexivity].
  exact (FileLayer_keys_are_hashes this _ ["user:123"] eq_refl eq_refl).
Defined.

(** The keys ["Aa"] and ["BB"] have the same hash: the file of the one is
    read under the other. *)
Lemma FileLayer_collision_witness :
  let e := mkEntry "v" 3600000%Z 0%Z 0 0%Z None in
  let this := FileLayer.mk stats_zero 3600000 ".cache"
                (Some [(FileLayer.getFilePath "Aa", e)]) in
  FileLayer.hashKey "Aa" = FileLayer.hashKey "BB" /\
  result (FileLayer.get "BB" this (frozen 0)) = Some "v" /\
  result (FileLayer.get "BB" this (frozen 3600001)) = None /\
  FileLayer.fs (state (FileLayer.get "BB" this (frozen 3600001))) = Some [].
Proof.
  intros e this.
  assert (Hh : FileLayer.hashKey "Aa" = FileLayer.hashKey "BB") by (vm_compute; reflexivity).
  split; [exact Hh|].
  destruct (proj1 (FileLayer_get_by_hash this _ "Aa" "BB" e (frozen 0) eq_refl eq_refl) Hh)
    as (Hlive & _).
  destruct (proj1 (FileLayer_get_by_hash this _ "Aa" "BB" e (frozen 3600001)
                     eq_refl eq_refl) Hh)
    as (Hdead & _ & Hgone).
  split; [exact Hlive|]. split; [exact Hdead|]. rewrite Hgone. reflexivity.
Defined.

(** A file layer built outside Node: [set] then [get]. *)
Lemma FileLayer_inert_witness :
  let this : FileLayer.t string := FileLayer.mk stats_zero 3600000 ".cache" None in
  FileLayer.fs this = None /\
  FileLayer.set "k" "v" no_options this (frozen 0) = (tt, this, frozen 0) /\
  FileLayer.get "k" this (frozen 0) = (None, this, frozen 0).
Proof.
  intros this.
  destruct (FileLayer_inert_without_fs this "k" "v" no_options "t" (frozen 0) eq_refl)
    as (Hset & Hget & _).
  split; [reflexivity|]. split; [exact Hset | exact Hget].
Defined.

(** Tag deletion in a directory with the files of k1 (tags a, b) and k2
    (tag b). *)
Lemma FileLayer_deleteByTag_witness :
  let o1 := mkOptions None (Some ["a"; "b"]) in
  let o2 := mkOptions None (Some ["b"]) in
  let first := FileLayer.set "k1" "v1" o1 Scenario.file (frozen 0) in
  let this := state (FileLayer.set "k2" "v2" o2 (state first) (frozen 0)) in
  fst (FileLayer.deleteByTag "b" this) = 2 /\
  fst (FileLayer.deleteByTag "a" this) = 1 /\
  FileLayer.keys (snd (FileLayer.deleteByTag "a" this)) = [FileLayer.hashKey "k2"].
Proof.
  intros o1 o2 first this.
  assert (Hwf : JsMap.wf [(FileLayer.getFilePath "k1", mkEntry "v1" 3600000%Z 0%Z 0 0%Z (Some ["a"; "b"]));
                          (FileLayer.getFilePath "k2", mkEntry "v2" 3600000%Z 0%Z 0 0%Z (Some ["b"]))]).
  { unfold JsMap.wf. vm_compute. repeat constructor; simpl; intuition discriminate. }
  rewrite (FileLayer_deleteByTag_filter "b" this _ eq_refl Hwf).
  rewrite (FileLayer_deleteByTag_filter "a" this _ eq_refl Hwf).
  repeat split; reflexivity.
Defined.

(** [delete] of a resident key, then [get] and [has], with another key kept. *)
Lemma MemoryLayer_delete_witness :
  let first := MemoryLayer.set "k1" "v1" no_options (Scenario.memory 10) (frozen 0) in
  let this := state (MemoryLayer.set "k2" "v2" no_options (state first) (frozen 0)) in
  JsMap.wf (MemoryLayer.cache this) /\
  fst (MemoryLayer.delete "k1" this) = true /\
  result (MemoryLayer.get "k1" (snd (MemoryLayer.delete "k1" this)) (frozen 0)) = None /\
  MemoryLayer.keys (snd (MemoryLayer.delete "k1" this)) = ["k2"].
Proof.
  intros first this.
  assert (Hwf : JsMap.wf (MemoryLayer.cache this)) by concrete_wf.
  destruct (MemoryLayer_delete_removes this "k1" (frozen 0) Hwf) as (Hr & Hget & _).
  split; [exact Hwf|]. split; [|split; [exact Hget | reflexivity]].
  apply Hr. vm_compute. left. reflexivity.
Defined.

(** [getOrSet] twice on an empty memory layer above a file layer: the
    loader of the first call yields ["v"], the loader of the second call
    rejects and is not asked. *)
Lemma Composer_getOrSet_witness :
  let this := Scenario.memory_over_file in
  let first := Composer.getOrSet "k" (Some "v") no_options this (frozen 0) in
  result first = Some "v" /\
  result (Composer.getOrSet "k" None no_options (state first) (clock first)) = Some "v".
Proof.
  intros this first.
  destruct (Composer_getOrSet_caches this (Scenario.memory 1) _ "k" (Some "v") no_options
              (frozen 0) eq_refl) as (_ & _ & Hmiss).
  destruct (Hmiss "v" eq_refl eq_refl) as [Hfirst Hsecond].
  split; [reflexivity|].
  apply Hsecond. unfold live. vm_compute. intros H. discriminate H.
Defined.

(** [touch] with [ttl = 5] of an entry written with a tag: the new entry
    expires at [5] and has no tag. *)
Lemma Composer_touch_witness :
  let this := state (Composer.set "k" "v" (mkOptions None (Some ["t"]))
                       Scenario.memory_over_file (frozen 0)) in
  result (Composer.touch "k" (Some 5%Z) this (frozen 0)) = true /\
  exists m' rest',
    Composer.layers (state (Composer.touch "k" (Some 5%Z) this (frozen 0))) = inl m' :: rest' /\
    JsMap.get "k" (MemoryLayer.cache m') = Some (mkEntry "v" 5%Z 0%Z 0 0%Z None).
Proof.
  intros this.
  refine (Composer_touch_rewrites this _ _ "k" (Some 5%Z) (frozen 0)
            (mkEntry "v" 3600000%Z 0%Z 0 0%Z (Some ["t"])) eq_refl eq_refl _).
  unfold live. vm_compute. intros H. discriminate H.
Defined.

(** [touch] of a key that was never set. *)
Lemma Composer_touch_absent_witness :
  result (Composer.get "k" Scenario.memory_over_file (frozen 0)) = None /\
  result (Composer.touch "k" (Some 5%Z) Scenario.memory_over_file (frozen 0)) = false.
Proof.
  assert (Hmiss : result (Composer.get "k" Scenario.memory_over_file (frozen 0)) = None)
    by reflexivity.
  split; [exact Hmiss|].
  rewrite (Composer_touch_absent Scenario.memory_over_file "k" (Some 5%Z) (frozen 0) Hmiss).
  reflexivity.
Defined.

(** [ttl] of an entry written with [ttl = 5]: the answer is [-1]; of an
    entry whose value is the empty string: [null]. *)
Lemma Composer_ttl_witness :
  let truthy := fun s : string => negb (String.eqb s "") in
  let this := state (Composer.set "k" "v" (mkOptions (Some 5%Z) None)
                       Scenario.memory_over_file (frozen 0)) in
  let blank := state (Composer.set "k" "" no_options Scenario.memory_over_file (frozen 0)) in
  result (Composer.ttl truthy "k" this (frozen 0)) = Some (-1)%Z /\
  result (Composer.ttl truthy "k" blank (frozen 0)) = None.
Proof.
  intros truthy this blank. split.
  - refine (proj1 (Composer_ttl_is_a_read this _ _ "k" truthy (frozen 0)
                     (mkEntry "v" 5%Z 0%Z 0 0%Z None) eq_refl eq_refl _)).
    unfold live. vm_compute. intros H. discriminate H.
  - refine (proj1 (Composer_ttl_is_a_read blank _ _ "k" truthy (frozen 0)
                     (mkEntry "" 3600000%Z 0%Z 0 0%Z None) eq_refl eq_refl _)).
    unfold live. vm_compute. intros H. discriminate H.
Defined.

(** The memory layer has capacity 1: after k1 and k2 are set, k1 is only in
    the file layer; [has(k1)] answers [true] and the memory layer still
    holds k2 alone. *)
Lemma Composer_has_witness :
  let r1 := Composer.set "k1" "v1" no_options Scenario.memory_over_file (frozen 0) in
  let this := state (Composer.set "k2" "v2" no_options (state r1) (frozen 0)) in
  let asked := Composer.has "k1" this (frozen 0) in
  result asked = true /\
  exists m rest, Composer.layers (state asked) = inl m :: rest /\
                 MemoryLayer.keys m = ["k2"].
Proof.
  intros r1 this asked.
  destruct (Composer_has_does_not_promote this _ _ "k1" (frozen 0) eq_refl eq_refl)
    as (Hres & Hlayers & _).
  split; [exact Hres|].
  eexists. eexists. split; [exact Hlayers|]. reflexivity.
Defined.

(** [invalidatePattern(/^user:/)] on a memory layer above a file layer that
    hold user:1, user:2 and post:1: two keys match, and the memory layer
    keeps post:1. *)
Lemma Composer_invalidatePattern_witness :
  let r1 := Composer.set "user:1" "a" no_options Scenario.roomy_over_file (frozen 0) in
  let r2 := Composer.set "user:2" "b" no_options (state r1) (frozen 0) in
  let this := state (Composer.set "post:1" "c" no_options (state r2) (frozen 0)) in
  let done := Composer.invalidatePattern Scenario.test_prefix "user:" this in
  (forall key, Scenario.test_prefix key "user:" = (String.prefix "user:" key, "user:")) /\
  fst (fst done) = 2 /\
  deletes (Composer.globalStats (snd (fst done))) = 2 /\
  exists m', Composer.layers (snd (fst done)) !! 0 = Some (inl m') /\
             MemoryLayer.keys m' = ["post:1"].
Proof.
  intros r1 r2 this done.
  assert (Htest : forall key,
             Scenario.test_prefix key "user:" = (String.prefix "user:" key, "user:"))
    by reflexivity.
  assert (Hwf : JsMap.wf [("user:1", mkEntry "a" 3600000%Z 0%Z 0 0%Z None);
                          ("user:2", mkEntry "b" 3600000%Z 0%Z 0 0%Z None);
                          ("post:1", mkEntry "c" 3600000%Z 0%Z 0 0%Z None)]) by concrete_wf.
  destruct (Composer_invalidatePattern_memory this Scenario.test_prefix "user:"
              (String.prefix "user:") 0 _ Htest eq_refl Hwf)
    as (Hn & _ & Hd & m' & Hl & Hc).
  split; [exact Htest|]. split; [exact Hn|]. split; [exact Hd|].
  exists m'. split; [exact Hl|]. unfold MemoryLayer.keys. rewrite Hc. reflexivity.
Defined.

(** A pattern with the [g] flag is outside that property:
    [invalidatePattern(/user/g)] on a memory layer above a file layer that
    hold user:1 and user:2 finds user:1, which leaves [lastIndex] at [4],
    and from there misses user:2; it returns [1] and user:2 stays. *)
Example invalidatePattern_global_flag_example :
  let r1 := Composer.set "user:1" "a" no_options Scenario.roomy_over_file (frozen 0) in
  let this := state (Composer.set "user:2" "b" no_options (state r1) (frozen 0)) in
  let done := Composer.invalidatePattern Scenario.test_global ("user", 0) this in
  fst (fst done) = 1 /\
  exists m' rest, Composer.layers (snd (fst done)) = inl m' :: rest /\
                  MemoryLayer.keys m' = ["user:2"].
Proof.
  vm_compute. split; [reflexivity|]. eexists. eexists. split; reflexivity.
Qed.

(** A clock that goes backwards between the readings of [set]: with
    [ttl = -1] and the readings [10], [5], [5] the entry expires at [9],
    after its creation at [5]. *)
Example expiry_backwards_clock_example :
  let written := MemoryLayer.set "k" "v" (mkOptions (Some (-1)%Z) None)
                   (Scenario.memory 10) (clock_of [10%Z; 5%Z; 5%Z] 5%Z) in
  JsMap.get "k" (MemoryLayer.cache (state written)) =
    Some (mkEntry "v" 9%Z 5%Z 0 5%Z None).
Proof. vm_compute. reflexivity. Qed.

(** [new CacheComposer()] has the memory layer alone, with capacity [1000],
    a TTL of one hour and the LRU policy; and
    [new CacheComposer({ memory: { enabled: true, maxSize: 0, ttl: 0 } })]
    has the same layer. *)
Example default_constructor_example :
  let zeros : Config.t unit :=
    Config.mk (Some (Config.mkMemory (Some true) (Some 0%Z) (Some 0%Z) None))
              None None None in
  Composer.layers (Scenario.composer Config.empty) =
    [inl (MemoryLayer.new 1000 3600000 (mkStrategy LRU))] /\
  Composer.layers (Scenario.composer zeros) =
    [inl (MemoryLayer.new 1000 3600000 (mkStrategy LRU))].
Proof. split; reflexivity. Qed.

(** One hit in three requests: the hit rate is the quotient of the doubles
    [1] and [3], that is [0x1.5555555555555p-2] ([0.3333333333333333]), the
    number [6004799503160661 * 2^-54]; it is not the fraction [1/3], since
    three times that numerator is not [2^54]. *)
Example hit_rate_is_a_double_example :
  let this := state (Composer.set "a" "v" no_options
                       (Scenario.composer Config.empty) (frozen 0)) in
  let r := Composer.get_each ["a"; "b"; "c"] (Composer.resetStats this) (frozen 0) in
  cs_hits (Composer.getStats (state r)) = 1 /\
  cs_misses (Composer.getStats (state r)) = 2 /\
  hitRate (Composer.getStats (state r)) = 0x1.5555555555555p-2%float /\
  Prim2SF (hitRate (Composer.getStats (state r))) =
    S754_finite false 6004799503160661 (-54) /\
  (3 * 6004799503160661 <> 2 ^ 54)%Z.
Proof. vm_compute. repeat split; try reflexivity. discriminate. Qed.
